(** * Subscription lifecycle and reconciliation engine of telegram-sub-bot

    A shallow embedding of the scheduled jobs (src/services/cronService.js),
    the renewal path (src/services/subscriptionService.js), the referral
    awarder (src/services/referralService.js) and the delivery helpers
    (src/utils/telegramUtils.js, src/utils/dateUtils.js).

    Mongo collections are lists of documents in insertion order; every
    asynchronous function is a computation in a state-and-exception monad
    over the [World] (the collections, the premium group and the history of
    calls made).  What the outside decides (the wall clock, whether Telegram
    accepts a call, whether the store rejects an operation) is read from an
    [Env] of oracles indexed by the number of calls made so far. *)

From Stdlib Require Import ZArith List Bool String Lia Arith.
Import ListNotations.
Open Scope Z_scope.

(** ** Data model (src/models) *)

(** Subscription.status: enum ['active','expired','cancelled','grace']. *)
Inductive SubStatus := S_active | S_expired | S_cancelled | S_grace.

(** User.status: enum ['active','expired','pending','inactive','blocked']. *)
Inductive UserStatus := U_active | U_expired | U_pending | U_inactive | U_blocked.

Definition SubStatus_eqb (a b : SubStatus) : bool :=
  match a, b with
  | S_active, S_active | S_expired, S_expired
  | S_cancelled, S_cancelled | S_grace, S_grace => true
  | _, _ => false
  end.

Record ReminderFlags := mkFlags { day7 : bool; day3 : bool; day1 : bool; day0 : bool }.

Record GraceNotifications := mkGrace { gn_day1 : bool; gn_day2 : bool; gn_day3 : bool }.

(** Dates are milliseconds since the epoch, as [Date.prototype.valueOf]. *)
Record Subscription := mkSub {
  sub_id : nat;                       (* _id *)
  userId : nat;
  telegramId : Z;
  planId : nat;
  planName : string;
  durationDays : Z;
  startDate : Z;
  expiryDate : Z;
  status : SubStatus;
  approvedBy : option Z;
  inviteLink : option string;
  reminderFlags : ReminderFlags;
  graceDaysUsed : Z;
  graceNotifications : GraceNotifications;
  isRenewal : bool
}.

(** The fields of the User schema the engine reads or writes ([username],
    [role], [joinDate], [referralCode], [lastInteraction] and [meta] are
    never touched by the code embedded here). *)
Record User := mkUser {
  user_id : nat;                      (* _id *)
  u_telegramId : Z;
  name : string;
  u_status : UserStatus;
  isBlocked : bool;
  referredBy : option Z;
  referralBonusApplied : bool;
  graceDaysRemaining : option Z
}.

Record Plan := mkPlan {
  plan_id : nat;
  plan_name : string;
  plan_durationDays : Z;
  plan_isActive : bool
}.

(** AdminLog.details, one constructor per shape the engine writes. *)
Inductive Details :=
| DReason (reason : string) (daysOverdue : option Z)
| DReferral (referredUser : Z) (bonusDays : Z)
| DApproval (plan : string) (days : Z) (renewal : bool).

Inductive ActionType := ban_user | referral_bonus | approve_request.

Record AdminLog := mkLog {
  adminId : Z;
  actionType : ActionType;
  targetUserId : Z;
  details : Details
}.

(** A Mongo update document over User: the fields it names are overwritten. *)
Record UserPatch := mkPatch {
  p_status : option UserStatus;
  p_isBlocked : option bool;
  p_graceDaysRemaining : option (option Z);
  p_referralBonusApplied : option bool
}.

Definition or_else {A} (o : option A) (d : A) : A :=
  match o with Some a => a | None => d end.

Definition apply_patch (p : UserPatch) (u : User) : User :=
  mkUser (user_id u) (u_telegramId u) (name u)
         (or_else (p_status p) (u_status u))
         (or_else (p_isBlocked p) (isBlocked u))
         (referredBy u)
         (or_else (p_referralBonusApplied p) (referralBonusApplied u))
         (or_else (p_graceDaysRemaining p) (graceDaysRemaining u)).

(** Field writes on a Subscription document. *)
Definition set_status (v : SubStatus) (s : Subscription) : Subscription :=
  mkSub (sub_id s) (userId s) (telegramId s) (planId s) (planName s)
        (durationDays s) (startDate s) (expiryDate s) v (approvedBy s)
        (inviteLink s) (reminderFlags s) (graceDaysUsed s)
        (graceNotifications s) (isRenewal s).

Definition set_graceDaysUsed (v : Z) (s : Subscription) : Subscription :=
  mkSub (sub_id s) (userId s) (telegramId s) (planId s) (planName s)
        (durationDays s) (startDate s) (expiryDate s) (status s) (approvedBy s)
        (inviteLink s) (reminderFlags s) v
        (graceNotifications s) (isRenewal s).

Definition set_graceNotifications (v : GraceNotifications) (s : Subscription)
  : Subscription :=
  mkSub (sub_id s) (userId s) (telegramId s) (planId s) (planName s)
        (durationDays s) (startDate s) (expiryDate s) (status s) (approvedBy s)
        (inviteLink s) (reminderFlags s) (graceDaysUsed s)
        v (isRenewal s).

Definition set_reminderFlags (v : ReminderFlags) (s : Subscription)
  : Subscription :=
  mkSub (sub_id s) (userId s) (telegramId s) (planId s) (planName s)
        (durationDays s) (startDate s) (expiryDate s) (status s) (approvedBy s)
        (inviteLink s) v (graceDaysUsed s)
        (graceNotifications s) (isRenewal s).

Definition set_inviteLink (v : option string) (s : Subscription)
  : Subscription :=
  mkSub (sub_id s) (userId s) (telegramId s) (planId s) (planName s)
        (durationDays s) (startDate s) (expiryDate s) (status s) (approvedBy s)
        v (reminderFlags s) (graceDaysUsed s)
        (graceNotifications s) (isRenewal s).

Definition set_expiryDate (v : Z) (s : Subscription) : Subscription :=
  mkSub (sub_id s) (userId s) (telegramId s) (planId s) (planName s)
        (durationDays s) (startDate s) v (status s) (approvedBy s)
        (inviteLink s) (reminderFlags s) (graceDaysUsed s)
        (graceNotifications s) (isRenewal s).

(** The four reminder checkpoints index [reminderFlags] by name. *)
Inductive Flag := F_day7 | F_day3 | F_day1 | F_day0.

Definition get_flag (f : Flag) (r : ReminderFlags) : bool :=
  match f with
  | F_day7 => day7 r | F_day3 => day3 r | F_day1 => day1 r | F_day0 => day0 r
  end.

Definition set_flag (f : Flag) (v : bool) (r : ReminderFlags) : ReminderFlags :=
  match f with
  | F_day7 => mkFlags v (day3 r) (day1 r) (day0 r)
  | F_day3 => mkFlags (day7 r) v (day1 r) (day0 r)
  | F_day1 => mkFlags (day7 r) (day3 r) v (day0 r)
  | F_day0 => mkFlags (day7 r) (day3 r) (day1 r) v
  end.

(** ** The outside world *)

(** Telegram's chat-member status of a user in the premium group. *)
Inductive ChatMemberStatus :=
  cm_creator | cm_administrator | cm_member | cm_restricted | cm_left | cm_kicked.

(** The texts the engine sends, by kind, with the values they interpolate. *)
Inductive Message :=
| MsgReminder (days : Z) (expiry : Z)
| MsgGraceStarted (expiry : Z) (graceDays : Z)
| MsgAccessRemoved
| MsgFinalWarning
| MsgGraceReminder (daysLeft : Z)
| MsgRejoin (link : string)
| MsgReferralBonus (referred : string) (bonusDays : Z)
| MsgApproved
| LogApproved (tid : Z) (plan : string)
| LogGraceStarted (tid : Z) (plan : string)
| LogRemovedAfterGrace (tid : Z) (daysOverdue : Z)
| LogRemovedByMonitor (tid : Z)
| LogBotBlocked (tid : Z).

Inductive StoreOp :=
| OpRead
| OpSubWrite (sid : nat)
| OpSubCreate
| OpUserWrite (tid : Z) (p : UserPatch)
| OpUserWriteById (id : nat) (p : UserPatch)
| OpRequestWrite
| OpLogWrite.

(** One entry per call that leaves the process.  [origin] is the [_id] of the
    subscription document being processed when the call was made; it is
    bookkeeping of the model and is not transmitted. *)
Inductive Event :=
| EvNow (t : Z)
| EvStore (op : StoreOp) (ok : bool)
| EvSendMessage (origin : option nat) (chat_id : Z) (msg : Message)
                (error_code : option Z)
| EvBanChatMember (origin : option nat) (tid : Z) (ok : bool)
| EvGetChatMember (tid : Z) (ok : bool)
| EvCreateInviteLink (tid : Z) (link : option string)
| EvAnswerCbQuery (ok : bool).

Record World := mkWorld {
  subscriptions : list Subscription;
  users : list User;
  plans : list Plan;
  adminLogs : list AdminLog;          (* newest first *)
  chat : Z -> ChatMemberStatus;       (* the premium group *)
  trace : list Event                  (* newest first *)
}.

(** What the environment decides.  The [nat] argument is the number of calls
    already made ([tick]), so an oracle may answer differently each time. *)
Record Env := mkEnv {
  clock : nat -> Z;                          (* new Date() *)
  tzOffset : Z;                              (* local time = UTC + tzOffset *)
  GRACE_PERIOD_DAYS : option Z;              (* parseInt(process.env...), None = NaN *)
  BONUS_REFERRAL_DAYS : option Z;
  LOG_CHANNEL_ID : Z;
  sendMessage_error : nat -> Z -> option Z;  (* None = delivered *)
  store_fails : nat -> bool;
  banChatMember_fails : nat -> Z -> bool;
  getChatMember_fails : nat -> Z -> bool;
  createChatInviteLink_result : nat -> Z -> option string;
  answerCbQuery_fails : nat -> bool
}.

Inductive Error :=
| TelegramError (error_code : Z)
| MongoError
| JsError (msg : string).

(** ** The monad of asynchronous functions *)

Inductive Res (A : Type) := Ok (a : A) | Throw (e : Error).
Arguments Ok {A} a.
Arguments Throw {A} e.

Definition M (A : Type) : Type := World -> Res A * World.

Definition ret {A} (a : A) : M A := fun w => (Ok a, w).

Definition bind {A B} (m : M A) (k : A -> M B) : M B :=
  fun w => match m w with
           | (Ok a, w1) => k a w1
           | (Throw e, w1) => (Throw e, w1)
           end.

Definition throw {A} (e : Error) : M A := fun w => (Throw e, w).

(** try { m } catch (e) { h e } *)
Definition try_catch {A} (m : M A) (h : Error -> M A) : M A :=
  fun w => match m w with
           | (Ok a, w1) => (Ok a, w1)
           | (Throw e, w1) => h e w1
           end.

Definition gets {A} (f : World -> A) : M A := fun w => (Ok (f w), w).

Definition modify (f : World -> World) : M unit := fun w => (Ok tt, f w).

Declare Scope js_scope.
Delimit Scope js_scope with js.
Notation "x <- m ;; k" := (bind m (fun x => k))
  (at level 100, m at next level, right associativity) : js_scope.
Notation "m ;; k" := (bind m (fun _ => k))
  (at level 100, right associativity) : js_scope.
Open Scope js_scope.

(** for (const x of l) { body x } *)
Fixpoint forM_ {A} (l : list A) (body : A -> M unit) : M unit :=
  match l with
  | [] => ret tt
  | x :: l' => body x ;; forM_ l' body
  end.

Definition tick (w : World) : nat := List.length (trace w).

Definition log_event (ev : Event) (w : World) : World :=
  mkWorld (subscriptions w) (users w) (plans w) (adminLogs w) (chat w)
          (ev :: trace w).

Definition set_subscriptions (f : list Subscription -> list Subscription)
  (w : World) : World :=
  mkWorld (f (subscriptions w)) (users w) (plans w) (adminLogs w) (chat w)
          (trace w).

Definition set_users (f : list User -> list User) (w : World) : World :=
  mkWorld (subscriptions w) (f (users w)) (plans w) (adminLogs w) (chat w)
          (trace w).

Definition set_adminLogs (f : list AdminLog -> list AdminLog) (w : World)
  : World :=
  mkWorld (subscriptions w) (users w) (plans w) (f (adminLogs w)) (chat w)
          (trace w).

Definition set_chat (f : (Z -> ChatMemberStatus) -> Z -> ChatMemberStatus)
  (w : World) : World :=
  mkWorld (subscriptions w) (users w) (plans w) (adminLogs w) (f (chat w))
          (trace w).

(** ** src/utils/dateUtils.js

    Local time is UTC shifted by a fixed [tzOffset] (no daylight-saving
    change inside the period looked at), so [setDate(getDate() + n)] moves a
    date by [n] whole days and [setHours] works within the local day. *)

Definition MS_PER_DAY : Z := 1000 * 60 * 60 * 24.

(** addDays(date, days) *)
Definition addDays (date days : Z) : Z := date + days * MS_PER_DAY.

(** d.setHours(0, 0, 0, 0) *)
Definition setHours_0 (tz d : Z) : Z :=
  let l := d + tz in l - l mod MS_PER_DAY - tz.

(** d.setHours(23, 59, 59, 999) *)
Definition setHours_end (tz d : Z) : Z :=
  setHours_0 tz d + (MS_PER_DAY - 1).

(** parseInt(process.env.X) || dflt : NaN and 0 are falsy. *)
Definition parseInt_or (v : option Z) (dflt : Z) : Z :=
  match v with
  | Some z => if z =? 0 then dflt else z
  | None => dflt
  end.

(** ** Collections *)

Definition replace_sub (doc : Subscription) (l : list Subscription)
  : list Subscription :=
  map (fun s => if Nat.eqb (sub_id s) (sub_id doc) then doc else s) l.

Definition update_sub_by_id (id : nat) (f : Subscription -> Subscription)
  (l : list Subscription) : list Subscription :=
  map (fun s => if Nat.eqb (sub_id s) id then f s else s) l.

(** Update the first document that matches, as findOneAndUpdate and
    findByIdAndUpdate do. *)
Fixpoint update_first {A} (q : A -> bool) (f : A -> A) (l : list A) : list A :=
  match l with
  | [] => []
  | x :: l' => if q x then f x :: l' else x :: update_first q f l'
  end.

Definition fresh_id (l : list Subscription) : nat :=
  S (fold_right Nat.max 0%nat (map sub_id l)).

Definition sub_by_id (id : nat) (l : list Subscription) : option Subscription :=
  find (fun s => Nat.eqb (sub_id s) id) l.

Definition by_telegramId (tid : Z) (u : User) : bool := u_telegramId u =? tid.

Definition by_user_id (id : nat) (u : User) : bool := Nat.eqb (user_id u) id.

Section Engine.

Variable env : Env.

(** *** Calls that leave the process *)

(** new Date() *)
Definition now : M Z :=
  fun w => let t := clock env (tick w) in (Ok t, log_event (EvNow t) w).

(** Every Mongoose call is a round trip that may reject. *)
Definition store (op : StoreOp) : M unit :=
  fun w => if store_fails env (tick w)
           then (Throw MongoError, log_event (EvStore op false) w)
           else (Ok tt, log_event (EvStore op true) w).

(** bot.telegram.sendMessage(chat_id, text, extra) *)
Definition sendMessage (origin : option nat) (chat_id : Z) (msg : Message)
  : M unit :=
  fun w => let r := sendMessage_error env (tick w) chat_id in
           let w1 := log_event (EvSendMessage origin chat_id msg r) w in
           match r with
           | None => (Ok tt, w1)
           | Some code => (Throw (TelegramError code), w1)
           end.

(** bot.telegram.banChatMember(groupId, telegramId) *)
Definition banChatMember (origin : option nat) (tid : Z) : M unit :=
  fun w => if banChatMember_fails env (tick w) tid
           then (Throw (TelegramError 400),
                 log_event (EvBanChatMember origin tid false) w)
           else (Ok tt,
                 set_chat (fun c x => if x =? tid then cm_kicked else c x)
                          (log_event (EvBanChatMember origin tid true) w)).

(** bot.telegram.getChatMember(groupId, telegramId) *)
Definition getChatMember (tid : Z) : M ChatMemberStatus :=
  fun w => if getChatMember_fails env (tick w) tid
           then (Throw (TelegramError 400),
                 log_event (EvGetChatMember tid false) w)
           else (Ok (chat w tid), log_event (EvGetChatMember tid true) w).

(** bot.telegram.createChatInviteLink(groupId, {member_limit: 1, ...}) *)
Definition createChatInviteLink (tid : Z) : M string :=
  fun w => let r := createChatInviteLink_result env (tick w) tid in
           let w1 := log_event (EvCreateInviteLink tid r) w in
           match r with
           | Some link => (Ok link, w1)
           | None => (Throw (TelegramError 400), w1)
           end.

(** ctx.answerCbQuery(text, extra) *)
Definition answerCbQuery : M unit :=
  fun w => if answerCbQuery_fails env (tick w)
           then (Throw (TelegramError 400), log_event (EvAnswerCbQuery false) w)
           else (Ok tt, log_event (EvAnswerCbQuery true) w).

(** *** Mongoose models *)

Definition Subscription_find (q : Subscription -> bool)
  : M (list Subscription) :=
  store OpRead ;; gets (fun w => filter q (subscriptions w)).

Definition Subscription_findOne (q : Subscription -> bool)
  : M (option Subscription) :=
  store OpRead ;; gets (fun w => find q (subscriptions w)).

Definition Subscription_countDocuments (q : Subscription -> bool) : M nat :=
  store OpRead ;; gets (fun w => List.length (filter q (subscriptions w))).

(** doc.save(): the document goes back under its [_id].  Within one sweep
    nobody else writes the record between the find and the save, so writing
    the modified paths and writing the document coincide. *)
Definition save (doc : Subscription) : M unit :=
  store (OpSubWrite (sub_id doc)) ;;
  modify (set_subscriptions (replace_sub doc)).

Definition Subscription_findByIdAndUpdate (id : nat)
  (f : Subscription -> Subscription) : M unit :=
  store (OpSubWrite id) ;;
  modify (set_subscriptions (update_sub_by_id id f)).

Definition Subscription_create (mk : nat -> Subscription) : M Subscription :=
  store OpSubCreate ;;
  doc <- gets (fun w => mk (fresh_id (subscriptions w))) ;;
  modify (set_subscriptions (fun l => l ++ [doc])) ;;
  ret doc.

Definition User_findOne (tid : Z) : M (option User) :=
  store OpRead ;; gets (fun w => find (by_telegramId tid) (users w)).

Definition User_findOneAndUpdate (tid : Z) (p : UserPatch) : M unit :=
  store (OpUserWrite tid p) ;;
  modify (set_users (update_first (by_telegramId tid) (apply_patch p))).

Definition User_findByIdAndUpdate (id : nat) (p : UserPatch) : M unit :=
  store (OpUserWriteById id p) ;;
  modify (set_users (update_first (by_user_id id) (apply_patch p))).

Definition Plan_find_active : M (list Plan) :=
  store OpRead ;; gets (fun w => filter plan_isActive (plans w)).

Definition AdminLog_create (entry : AdminLog) : M unit :=
  store OpLogWrite ;;
  modify (set_adminLogs (cons entry)).

(** *** src/utils/telegramUtils.js *)

Definition is_403 (e : Error) : bool :=
  match e with
  | TelegramError code => code =? 403
  | _ => false
  end.

Definition blocked_patch : UserPatch :=
  mkPatch (Some U_blocked) (Some true) None None.

(** handleBlockedUser(bot, telegramId) *)
Definition handleBlockedUser (tid : Z) : M unit :=
  try_catch
    (User_findOneAndUpdate tid blocked_patch ;;
     AdminLog_create
       (mkLog 0 ban_user tid (DReason "Bot blocked by user (403)" None)) ;;
     try_catch (sendMessage None (LOG_CHANNEL_ID env) (LogBotBlocked tid))
               (fun _ => ret tt))
    (fun _ => ret tt).

(** safeSend(bot, telegramId, text, extra) *)
Definition safeSend (origin : option nat) (tid : Z) (msg : Message) : M bool :=
  try_catch
    (sendMessage origin tid msg ;; ret true)
    (fun err =>
       (if is_403 err then handleBlockedUser tid else ret tt) ;;
       ret false).

(** generateInviteLink(bot, groupId, userId) *)
Definition generateInviteLink (tid : Z) : M (option string) :=
  try_catch (link <- createChatInviteLink tid ;; ret (Some link))
            (fun _ => ret None).

Definition is_present (s : ChatMemberStatus) : bool :=
  match s with
  | cm_member | cm_administrator | cm_creator => true
  | _ => false
  end.

(** isGroupMember(bot, groupId, telegramId) *)
Definition isGroupMember (tid : Z) : M bool :=
  try_catch (m <- getChatMember tid ;; ret (is_present m))
            (fun _ => ret false).

(** banFromGroup(bot, groupId, telegramId) *)
Definition banFromGroup (origin : option nat) (tid : Z) : M bool :=
  try_catch (banChatMember origin tid ;; ret true) (fun _ => ret false).

(** logToChannel(bot, message), src/services/cronService.js *)
Definition logToChannel (msg : Message) : M unit :=
  try_catch (sendMessage None (LOG_CHANNEL_ID env) msg) (fun _ => ret tt).

(** startOfToday() *)
Definition startOfToday : M Z :=
  t <- now ;; ret (setHours_0 (tzOffset env) t).

(** *** src/services/cronService.js: reminderScheduler *)

Definition checkpoints : list (Z * Flag) :=
  [(7, F_day7); (3, F_day3); (1, F_day1); (0, F_day0)].

(** { status: 'active', expiryDate: { $gte: targetStart, $lte: targetEnd },
      [`reminderFlags.${flag}`]: false } *)
Definition reminder_query (targetStart targetEnd : Z) (flag : Flag)
  (s : Subscription) : bool :=
  SubStatus_eqb (status s) S_active
  && (targetStart <=? expiryDate s) && (expiryDate s <=? targetEnd)
  && negb (get_flag flag (reminderFlags s)).

Definition reminderBody (days : Z) (flag : Flag) (sub : Subscription)
  : M unit :=
  sent <- safeSend (Some (sub_id sub)) (telegramId sub)
                   (MsgReminder days (expiryDate sub)) ;;
  if sent
  then save (set_reminderFlags (set_flag flag true (reminderFlags sub)) sub)
  else ret tt.

Definition reminderCheckpoint (cp : Z * Flag) : M unit :=
  today <- startOfToday ;;
  let targetStart := addDays today (fst cp) in
  let targetEnd := setHours_end (tzOffset env) targetStart in
  subs <- Subscription_find (reminder_query targetStart targetEnd (snd cp)) ;;
  forM_ subs (reminderBody (fst cp) (snd cp)).

Definition reminderScheduler : M unit :=
  Plan_find_active ;;
  forM_ checkpoints reminderCheckpoint.

(** *** src/services/cronService.js: gracePeriodHandler *)

(** parseInt(process.env.GRACE_PERIOD_DAYS) || 3 *)
Definition GRACE_DAYS : Z := parseInt_or (GRACE_PERIOD_DAYS env) 3.

Definition grace_started_patch : UserPatch :=
  mkPatch (Some U_expired) None (Some (Some GRACE_DAYS)) None.

Definition removed_patch : UserPatch :=
  mkPatch (Some U_expired) None (Some (Some 0)) None.

(** Body of the loop over the subscriptions that just expired. *)
Definition graceEnter (sub : Subscription) : M unit :=
  save (set_graceDaysUsed 0 (set_status S_grace sub)) ;;
  User_findOneAndUpdate (telegramId sub) grace_started_patch ;;
  Plan_find_active ;;
  safeSend (Some (sub_id sub)) (telegramId sub)
           (MsgGraceStarted (expiryDate sub) GRACE_DAYS) ;;
  logToChannel (LogGraceStarted (telegramId sub) (planName sub)).

(** Math.floor((today - sub.expiryDate) / (1000 * 60 * 60 * 24)); the
    floating-point quotient floors to the integer quotient for every pair of
    dates less than 2^53 / 86400000 days apart. *)
Definition daysSinceExpiry (today : Z) (sub : Subscription) : Z :=
  (today - expiryDate sub) / MS_PER_DAY.

Definition grace_audit (sub : Subscription) (overdue : Z) : AdminLog :=
  mkLog 0 ban_user (telegramId sub)
        (DReason "Grace period expired" (Some overdue)).

Definition set_gn_day1 (s : Subscription) : Subscription :=
  set_graceNotifications
    (mkGrace true (gn_day2 (graceNotifications s))
             (gn_day3 (graceNotifications s))) s.

Definition set_gn_day2 (s : Subscription) : Subscription :=
  set_graceNotifications
    (mkGrace (gn_day1 (graceNotifications s)) true
             (gn_day3 (graceNotifications s))) s.

(** The terminal branch of the loop over the subscriptions in grace. *)
Definition graceRemove (d : Z) (sub : Subscription) : M unit :=
  banFromGroup (Some (sub_id sub)) (telegramId sub) ;;
  save (set_graceDaysUsed GRACE_DAYS (set_status S_expired sub)) ;;
  User_findOneAndUpdate (telegramId sub) removed_patch ;;
  safeSend (Some (sub_id sub)) (telegramId sub) MsgAccessRemoved ;;
  logToChannel (LogRemovedAfterGrace (telegramId sub) d) ;;
  AdminLog_create (grace_audit sub d).

(** Body of the loop over the subscriptions in grace. *)
Definition graceStep (today : Z) (sub : Subscription) : M unit :=
  let d := daysSinceExpiry today sub in
  if GRACE_DAYS <=? d then graceRemove d sub
  else if (d =? GRACE_DAYS - 1) && negb (gn_day2 (graceNotifications sub))
  then
    Plan_find_active ;;
    safeSend (Some (sub_id sub)) (telegramId sub) MsgFinalWarning ;;
    save (set_gn_day2 sub)
  else if (d =? 1) && negb (gn_day1 (graceNotifications sub))
  then
    Plan_find_active ;;
    safeSend (Some (sub_id sub)) (telegramId sub)
             (MsgGraceReminder (GRACE_DAYS - 1)) ;;
    save (set_gn_day1 sub)
  else ret tt.

Definition just_expired_query (today : Z) (s : Subscription) : bool :=
  SubStatus_eqb (status s) S_active && (expiryDate s <? today).

Definition in_grace_query (s : Subscription) : bool :=
  SubStatus_eqb (status s) S_grace.

Definition gracePeriodHandler : M unit :=
  today <- startOfToday ;;
  justExpired <- Subscription_find (just_expired_query today) ;;
  forM_ justExpired graceEnter ;;
  inGrace <- Subscription_find in_grace_query ;;
  forM_ inGrace (graceStep today).

(** *** src/services/cronService.js: membershipMonitor *)

Definition monitor_active_query (t : Z) (s : Subscription) : bool :=
  SubStatus_eqb (status s) S_active && (t <? expiryDate s).

Definition monitor_expired_query (s : Subscription) : bool :=
  SubStatus_eqb (status s) S_expired || SubStatus_eqb (status s) S_cancelled.

(** Body of the loop over active subscriptions; [if (link)] also rejects the
    empty string. *)
Definition monitorActive (sub : Subscription) : M unit :=
  inGroup <- isGroupMember (telegramId sub) ;;
  if inGroup then ret tt
  else
    link <- generateInviteLink (telegramId sub) ;;
    match link with
    | Some l =>
        if String.eqb l EmptyString then ret tt
        else
          save (set_inviteLink (Some l) sub) ;;
          safeSend (Some (sub_id sub)) (telegramId sub) (MsgRejoin l) ;;
          ret tt
    | None => ret tt
    end.

(** Body of the loop over expired and cancelled subscriptions. *)
Definition monitorExpired (sub : Subscription) : M unit :=
  inGroup <- isGroupMember (telegramId sub) ;;
  if inGroup
  then
    banFromGroup (Some (sub_id sub)) (telegramId sub) ;;
    logToChannel (LogRemovedByMonitor (telegramId sub))
  else ret tt.

Definition membershipMonitor : M unit :=
  t <- now ;;
  activeSubs <- Subscription_find (monitor_active_query t) ;;
  forM_ activeSubs monitorActive ;;
  expiredUsers <- Subscription_find monitor_expired_query ;;
  forM_ expiredUsers monitorExpired.

(** *** src/services/subscriptionService.js: createSubscription *)

Definition active_or_grace_of (tid : Z) (s : Subscription) : bool :=
  (telegramId s =? tid)
  && (SubStatus_eqb (status s) S_active || SubStatus_eqb (status s) S_grace).

(** The field writes of the renewal branch. *)
Definition renewed (plan : Plan) (admin : Z) (newExpiry : Z)
  (s : Subscription) : Subscription :=
  mkSub (sub_id s) (userId s) (telegramId s) (plan_id plan) (plan_name plan)
        (plan_durationDays plan) (startDate s) newExpiry S_active (Some admin)
        (inviteLink s) (mkFlags false false false false) 0
        (mkGrace false false false) true.

Definition created (u : User) (tid : Z) (plan : Plan) (admin : Z)
  (start expiry : Z) (id : nat) : Subscription :=
  mkSub id (user_id u) tid (plan_id plan) (plan_name plan)
        (plan_durationDays plan) start expiry S_active (Some admin)
        None (mkFlags false false false false) 0
        (mkGrace false false false) false.

Definition activated_patch : UserPatch :=
  mkPatch (Some U_active) None (Some None) None.

(** The catch clause only logs and rethrows, so the body is the function. *)
Definition createSubscription (tid : Z) (plan : Plan) (admin : Z)
  : M Subscription :=
  user <- User_findOne tid ;;
  match user with
  | None => throw (JsError "User not found")
  | Some u =>
      existingSub <- Subscription_findOne (active_or_grace_of tid) ;;
      match existingSub with
      | Some ex =>
          t <- now ;;
          baseDate <- (if t <? expiryDate ex then ret (expiryDate ex) else now) ;;
          let doc := renewed plan admin
                       (addDays baseDate (plan_durationDays plan)) ex in
          save doc ;;
          User_findByIdAndUpdate (user_id u) activated_patch ;;
          ret doc
      | None =>
          start <- now ;;
          let expiry := addDays start (plan_durationDays plan) in
          subscription <- Subscription_create (created u tid plan admin start expiry) ;;
          User_findByIdAndUpdate (user_id u) activated_patch ;;
          ret subscription
      end
  end.

(** *** src/services/referralService.js: awardReferralBonus *)

(** parseInt(process.env.BONUS_REFERRAL_DAYS) || 3 *)
Definition BONUS_DAYS : Z := parseInt_or (BONUS_REFERRAL_DAYS env) 3.

(** { telegramId, status: { $in: ['active', 'expired'] } } *)
Definition bonus_count_query (tid : Z) (s : Subscription) : bool :=
  (telegramId s =? tid)
  && (SubStatus_eqb (status s) S_active || SubStatus_eqb (status s) S_expired).

Definition referrer_sub_query (tid t : Z) (s : Subscription) : bool :=
  (telegramId s =? tid) && SubStatus_eqb (status s) S_active
  && (t <? expiryDate s).

Definition bonus_applied_patch : UserPatch :=
  mkPatch None None None (Some true).

Definition referral_audit (referrer : User) (tid : Z) : AdminLog :=
  mkLog 0 referral_bonus (u_telegramId referrer) (DReferral tid BONUS_DAYS).

(** The part of awardReferralBonus after the referrer was found. *)
Definition award (newUser referrer : User) (tid : Z) : M unit :=
  t <- now ;;
  referrerSub <- Subscription_findOne
                   (referrer_sub_query (u_telegramId referrer) t) ;;
  match referrerSub with
  | Some rs =>
      Subscription_findByIdAndUpdate (sub_id rs)
        (set_expiryDate (addDays (expiryDate rs) BONUS_DAYS)) ;;
      try_catch
        (sendMessage None (u_telegramId referrer)
                     (MsgReferralBonus (name newUser) BONUS_DAYS))
        (fun _ => ret tt)
  | None => ret tt
  end ;;
  User_findByIdAndUpdate (user_id newUser) bonus_applied_patch ;;
  AdminLog_create (referral_audit referrer tid).

(** [!newUser.referredBy] is true for null and for 0. *)
Definition awardReferralBonus (tid : Z) : M unit :=
  try_catch
    (newUser <- User_findOne tid ;;
     match newUser with
     | None => ret tt
     | Some u =>
         match referredBy u with
         | None => ret tt
         | Some r =>
             if (r =? 0) || referralBonusApplied u then ret tt
             else
               subCount <- Subscription_countDocuments (bonus_count_query tid) ;;
               if (1 <? subCount)%nat then ret tt
               else
                 referrer <- User_findOne r ;;
                 match referrer with
                 | None => ret tt
                 | Some ref => award u ref tid
                 end
         end
     end)
    (fun _ => ret tt).

(** *** src/bot/adminHandlers.js: the approve action

    The handler body once the admin is authorised, the pending request is
    loaded and the plan is resolved.  The edit of the log-channel message
    (in a try/catch of its own, no effect on the store) is left out.  The
    catch clause logs the error and answers the callback query, a call that
    Telegram may reject in its turn. *)

Definition approval_audit (admin tid : Z) (plan : Plan) (sub : Subscription)
  : AdminLog :=
  mkLog admin approve_request tid
        (DApproval (plan_name plan) (plan_durationDays plan) (isRenewal sub)).

Definition approve (tid : Z) (plan : Plan) (admin : Z) : M unit :=
  try_catch
    (subscription <- createSubscription tid plan admin ;;
     store OpRequestWrite ;;
     alreadyInGroup <- isGroupMember tid ;;
     (if isRenewal subscription && alreadyInGroup then ret tt
      else
        link <- generateInviteLink tid ;;
        match link with
        | Some l =>
            if String.eqb l EmptyString then ret tt
            else Subscription_findByIdAndUpdate (sub_id subscription)
                   (set_inviteLink (Some l))
        | None => ret tt
        end) ;;
     safeSend None tid MsgApproved ;;
     awardReferralBonus tid ;;
     logToChannel (LogApproved tid (plan_name plan)) ;;
     AdminLog_create (approval_audit admin tid plan subscription))
    (fun _ => answerCbQuery).


End Engine.

(** ** Vocabulary of the statements *)

(** *** Computations *)

(** [preserves R m]: whatever [m] does, and whether it returns or throws, the
    world it leaves is related by [R] to the world it started from. *)
Definition preserves {A} (R : World -> World -> Prop) (m : M A) : Prop :=
  forall w, R w (snd (m w)).

(** [succeeds m]: [m] returns, it does not throw. *)
Definition succeeds {A} (m : M A) : Prop :=
  forall w, exists a, fst (m w) = Ok a.

Class Frame (R : World -> World -> Prop) : Prop := {
  frame_refl : forall w, R w w;
  frame_trans : forall a b c, R a b -> R b c -> R a c
}.

Definition stable_event (R : World -> World -> Prop) (ev : Event) : Prop :=
  forall w, R w (log_event ev w).

Definition stable_modify (R : World -> World -> Prop) (f : World -> World)
  : Prop :=
  forall w, R w (f w).

Definition rel_and (R1 R2 : World -> World -> Prop) : World -> World -> Prop :=
  fun w w' => R1 w w' /\ R2 w w'.

(** The calls added to the history all satisfy [P]. *)
Definition trace_new (P : Event -> Prop) (w w' : World) : Prop :=
  exists l, trace w' = l ++ trace w /\ Forall P l.

(** The step leaves the collection, or the group, as it was. *)
Definition subs_same (w w' : World) : Prop := subscriptions w' = subscriptions w.
Definition chat_same (w w' : World) : Prop := forall x, chat w' x = chat w x.

(** An invariant of the world, as a relation. *)
Definition keeps (I : World -> Prop) (w w' : World) : Prop := I w -> I w'.

(** A loop whose bodies all return has run every body in turn. *)
Definition exec_all {A} (body : A -> M unit) (l : list A) (w : World) : World :=
  fold_left (fun w x => snd (body x w)) l w.

(** *** Invariants of the sweeps *)

(** The collection has unique [_id]s and holds [s] under [sid]. *)
Definition holds_sub (sid : nat) (s : Subscription) (w : World) : Prop :=
  NoDup (map sub_id (subscriptions w))
  /\ sub_by_id sid (subscriptions w) = Some s.

(** The history and the audit log of [w] continue those of [w0]. *)
Definition since (w0 w : World) : Prop :=
  (exists l, trace w = l ++ trace w0)
  /\ (exists l, adminLogs w = l ++ adminLogs w0).

(** The call [ev] was made after [w0]. *)
Definition emitted (w0 : World) (ev : Event) (w : World) : Prop :=
  exists l, trace w = l ++ trace w0 /\ In ev l.

(** The audit entry [e] was written after [w0]. *)
Definition logged (w0 : World) (e : AdminLog) (w : World) : Prop :=
  exists l, adminLogs w = l ++ adminLogs w0 /\ In e l.

(** The user found under [tid], if any, has no grace days left and is
    expired, or blocked when a delivery reported so afterwards. *)
Definition user_removed (tid : Z) (w : World) : Prop :=
  forall u, find (by_telegramId tid) (users w) = Some u ->
            graceDaysRemaining u = Some 0
            /\ (u_status u = U_expired \/ u_status u = U_blocked).

(** The subscription a call was made for: the [origin] of a send or of a
    removal, the target of a subscription write. *)
Definition event_origin (ev : Event) : option nat :=
  match ev with
  | EvSendMessage o _ _ _ => o
  | EvBanChatMember o _ _ => o
  | EvStore (OpSubWrite sid) _ => Some sid
  | _ => None
  end.

Definition not_for (sid : nat) (ev : Event) : Prop :=
  event_origin ev <> Some sid.

Definition inv_and (A B : World -> Prop) (w : World) : Prop := A w /\ B w.

Definition inv_ex {X} (I : X -> World -> Prop) (w : World) : Prop :=
  exists x, I x w.

(** What the terminal transition of [s], made after [w0], leaves behind. *)
Definition removed_post (env : Env) (w0 : World) (d : Z) (s : Subscription)
  : World -> Prop :=
  inv_and (holds_sub (sub_id s)
             (set_graceDaysUsed (GRACE_DAYS env) (set_status S_expired s)))
  (inv_and (inv_ex (fun ok =>
              emitted w0 (EvBanChatMember (Some (sub_id s)) (telegramId s) ok)))
  (inv_and (emitted w0 (EvStore (OpUserWrite (telegramId s) removed_patch) true))
  (inv_and (user_removed (telegramId s))
  (inv_and (logged w0 (grace_audit s d))
           (inv_ex (fun r =>
              emitted w0 (EvSendMessage (Some (sub_id s)) (telegramId s)
                                        MsgAccessRemoved r))))))).

(** The first pass of the grace job: today, the query, the loop. *)
Definition grace_first_pass (env : Env) : M unit :=
  today <- startOfToday env ;;
  justExpired <- Subscription_find env (just_expired_query today) ;;
  forM_ justExpired (graceEnter env).

(** What entering grace, after [w0], leaves behind. *)
Definition entered_post (env : Env) (w0 : World) (s : Subscription)
  : World -> Prop :=
  inv_and (since w0)
  (inv_and (holds_sub (sub_id s) (set_graceDaysUsed 0 (set_status S_grace s)))
  (inv_and (emitted w0 (EvStore (OpUserWrite (telegramId s)
                                   (grace_started_patch env)) true))
           (inv_ex (fun r =>
              emitted w0
                (EvSendMessage (Some (sub_id s)) (telegramId s)
                   (MsgGraceStarted (expiryDate s) (GRACE_DAYS env)) r))))).

(** *** A small deployment to run the engine on *)

Definition DAY (n : Z) : Z := n * MS_PER_DAY.

(** Every store operation is accepted and every Telegram call succeeds; the
    clock stands at 09:00 UTC of day [d]. *)
Definition calm_env (d : Z) : Env :=
  mkEnv (fun _ => DAY d + 9 * 3600000) 0 None None (-1000)
        (fun _ _ => None) (fun _ => false) (fun _ _ => false)
        (fun _ _ => false) (fun _ _ => Some "https://t.me/+invite"%string)
        (fun _ => false).

Definition alice : User :=
  mkUser 1 501 "Alice" U_active false None false None.

Definition bob : User :=
  mkUser 2 502 "Bob" U_active false (Some 501) false None.

Definition monthly : Plan := mkPlan 1 "30 Days Plan" 30 true.

(** The same plan after [/editplan <id>|durationDays|-30]: updatePlan calls
    Plan.findByIdAndUpdate, which runs no validators, so the schema's
    [min: 1] does not stand in the way. *)
Definition monthly_edited : Plan := mkPlan 1 "30 Days Plan" (-30) true.

Definition no_flags : ReminderFlags := mkFlags false false false false.
Definition no_grace : GraceNotifications := mkGrace false false false.

(** A subscription of [tid] that runs from day 0 to [expiry]. *)
Definition sub_of (id : nat) (tid : Z) (expiry : Z) (st : SubStatus)
  : Subscription :=
  mkSub id 1 tid 1 "30 Days Plan" 30 0 expiry st (Some 900) None
        no_flags 0 no_grace false.

Definition world_of (subs : list Subscription) : World :=
  mkWorld subs [alice; bob] [monthly] [] (fun _ => cm_member) [].

(** The store rejects the operation made at tick [n], and only that one. *)
Definition store_rejects_at (n : nat) (d : Z) : Env :=
  mkEnv (fun _ => DAY d + 9 * 3600000) 0 None None (-1000)
        (fun _ _ => None) (fun t => Nat.eqb t n) (fun _ _ => false)
        (fun _ _ => false) (fun _ _ => Some "https://t.me/+invite"%string)
        (fun _ => false).

Definition two_in_grace : World :=
  world_of [sub_of 1 501 (DAY 5) S_grace; sub_of 2 502 (DAY 5) S_grace].

(** Telegram rejects every call: deliveries answer 403, removals fail. *)
Definition telegram_down (d : Z) : Env :=
  mkEnv (fun _ => DAY d + 9 * 3600000) 0 None None (-1000)
        (fun _ _ => Some 403) (fun _ => false) (fun _ _ => true)
        (fun _ _ => true) (fun _ _ => None) (fun _ => true).

(** Bob has blocked the bot. *)
Definition bob_blocked_bot : Env :=
  mkEnv (fun _ => DAY 10) 0 None None (-1000)
        (fun _ chat_id => if chat_id =? 502 then Some 403 else None)
        (fun _ => false) (fun _ _ => false) (fun _ _ => false)
        (fun _ _ => None) (fun _ => false).

(** *** The referral awarder *)


(** The count the code takes: status 'active' or 'expired' only. *)
Definition counted (tid : Z) (w : World) : nat :=
  List.length (filter (bonus_count_query tid) (subscriptions w)).



(** The approval workflow, run again and again. *)
Record Approval := mkApproval {
  ap_env : Env; ap_tid : Z; ap_plan : Plan; ap_admin : Z
}.

(** The worlds a sequence of approvals goes through, the first one included. *)
Fixpoint approval_worlds (rs : list Approval) (w : World) : list World :=
  w :: match rs with
       | [] => []
       | r :: rs' =>
           approval_worlds rs'
             (snd (approve (ap_env r) (ap_tid r) (ap_plan r) (ap_admin r) w))
       end.

(** referralBonusApplied of the user document with [_id] [uid]. *)
Definition bonus_flag (uid : nat) (w : World) : bool :=
  match find (by_user_id uid) (users w) with
  | Some u => referralBonusApplied u
  | None => false
  end.

(** How many times a sequence of flag values goes from false to true. *)
Fixpoint rises (l : list bool) : nat :=
  match l with
  | a :: (b :: _) as l' => (if negb a && b then 1 else 0) + rises l'
  | _ => 0
  end%nat.

(** Once true, true from then on. *)
Inductive latched : list bool -> Prop :=
| latched_nil : latched []
| latched_false l : latched l -> latched (false :: l)
| latched_true l : Forall (fun b => b = true) l -> latched (true :: l).

(** *** The membership reconciler *)

(** What the reconciler reads of a subscription and never writes. *)
Definition idkey (s : Subscription) : nat * Z * SubStatus :=
  (sub_id s, telegramId s, status s).

(** Some subscription of [x] is expired or cancelled. *)
Definition terminal_b (w : World) (x : Z) : bool :=
  existsb (fun s => (telegramId s =? x) && monitor_expired_query s)
          (subscriptions w).

(** The group the reconciler aims at: everyone as they are, except that
    those present with an expired or cancelled subscription are out. *)
Definition reconciled (w : World) (x : Z) : ChatMemberStatus :=
  if terminal_b w x && is_present (chat w x) then cm_kicked else chat w x.

Fixpoint monitor_runs (es : list Env) (w : World) : World :=
  match es with
  | [] => w
  | e :: es' => monitor_runs es' (snd (membershipMonitor e w))
  end.

(** A run in which the store, the membership query and the removal work. *)
Definition reliable (e : Env) : Prop :=
  (forall t, store_fails e t = false)
  /\ (forall t x, getChatMember_fails e t x = false)
  /\ (forall t x, banChatMember_fails e t x = false).

(** What every run keeps, whatever fails: the subscriptions keep their
    [_id], owner and status, and the only change to the group is the removal
    of someone present who has an expired or cancelled subscription. *)
Definition monitored (w0 w : World) : Prop :=
  map idkey (subscriptions w) = map idkey (subscriptions w0)
  /\ forall x, chat w x = chat w0 x
               \/ (chat w x = cm_kicked /\ terminal_b w0 x = true
                   /\ is_present (chat w0 x) = true).

(** Everyone with an expired or cancelled subscription is out. *)
Definition settled (w : World) : Prop :=
  forall x, terminal_b w x = true -> is_present (chat w x) = false.

(** *** Reachable states *)

(** (Outside the engine.) The user redeems an invite link, or is added back:
    Telegram then reports the user as a member of the premium group. *)
Definition joinGroup (tid : Z) (w : World) : World :=
  set_chat (fun c x => if x =? tid then cm_member else c x) w.

(** The states reached from a fresh deployment (users and plans on record,
    no subscription yet, nothing logged) by approvals, by the scheduled jobs
    and by users joining the group, one run after the other: each run ends
    before the next begins.  The handlers are asynchronous, and two runs that
    overlap (two approvals for one user interleaved at an await) are not
    steps of this relation. *)
Inductive reachable : World -> Prop :=
| reach_init us ps c : reachable (mkWorld [] us ps [] c [])
| reach_approve e tid plan admin w :
    reachable w -> In plan (plans w) ->
    reachable (snd (approve e tid plan admin w))
| reach_reminder e w :
    reachable w -> reachable (snd (reminderScheduler e w))
| reach_grace e w :
    reachable w -> reachable (snd (gracePeriodHandler e w))
| reach_monitor e w :
    reachable w -> reachable (snd (membershipMonitor e w))
| reach_join tid w :
    reachable w -> reachable (joinGroup tid w).

(** Alice subscribes on day 0 and joins; her subscription expires, the grace
    job moves it to grace (day 31) and then removes her (day 34); she is
    approved again on day 40, which creates a second record, and joins
    again. *)
Definition alice_resubscribed : World :=
  joinGroup 501
    (snd (approve (calm_env 40) 501 monthly 900
       (snd (gracePeriodHandler (calm_env 34)
          (snd (gracePeriodHandler (calm_env 31)
             (joinGroup 501
                (snd (approve (calm_env 0) 501 monthly 900
                   (mkWorld [] [alice; bob] [monthly] []
                            (fun _ => cm_left) [])))))))))).

Definition alice_first : Subscription :=
  mkSub 1 1 501 1 "30 Days Plan" 30 32400000 2624400000 S_expired (Some 900)
        (Some "https://t.me/+invite"%string) no_flags 3 no_grace false.

Definition alice_second : Subscription :=
  mkSub 2 1 501 1 "30 Days Plan" 30 3488400000 6080400000 S_active (Some 900)
        (Some "https://t.me/+invite"%string) no_flags 0 no_grace false.



(** *** The reminder job *)

(** The record after the reminder attempt whose outcome was [r]. *)
Definition reminded (flag : Flag) (r : option Z) (s : Subscription)
  : Subscription :=
  match r with
  | None => set_reminderFlags (set_flag flag true (reminderFlags s)) s
  | Some _ => s
  end.

(** The collection holds under [sid] a record that satisfies [P]. *)
Definition watching (sid : nat) (P : Subscription -> Prop) : World -> Prop :=
  inv_ex (fun cur => inv_and (holds_sub sid cur) (fun _ => P cur)).

(** What the reminder of [s] at its checkpoint leaves behind. *)
Definition remind_post (env : Env) (w0 : World) (k : Z) (flag : Flag)
  (s : Subscription)
  : World -> Prop :=
  inv_ex (fun r =>
    inv_and (emitted w0 (EvSendMessage (Some (sub_id s)) (telegramId s)
                                       (MsgReminder k (expiryDate s)) r))
            (holds_sub (sub_id s) (reminded flag r s))).

(** ** Services beside the sweeps *)

Section Services.

Variable env : Env.

(** *** src/utils/dateUtils.js, the other helpers *)

(** Math.ceil(a / b), for a positive [b]. *)
Definition ceil_div (a b : Z) : Z := - ((- a) / b).

(** daysRemaining(expiryDate) *)
Definition daysRemaining (expiry : Z) : M Z :=
  t <- now env ;; ret (ceil_div (expiry - t) MS_PER_DAY).

(** endOfToday() *)
Definition endOfToday : M Z :=
  t <- now env ;; ret (setHours_end (tzOffset env) t).

(** date.getDay(): 0 is Sunday, and 1 January 1970 was a Thursday. *)
Definition getDay (tz d : Z) : Z := ((d + tz) / MS_PER_DAY + 4) mod 7.

(** startOfWeek(): [setDate(getDate() - day + ...)] moves the date by whole
    days, as in addDays. *)
Definition startOfWeek : M Z :=
  date <- now env ;;
  let day := getDay (tzOffset env) date in
  let diff := - day + (if day =? 0 then -6 else 1) in
  ret (setHours_0 (tzOffset env) (addDays date diff)).

(** *** src/services/subscriptionService.js, the other functions *)

Definition expired_patch : UserPatch :=
  mkPatch (Some U_expired) None None None.

(** expireSubscription(subscription) *)
Definition expireSubscription (subscription : Subscription) : M unit :=
  Subscription_findByIdAndUpdate env (sub_id subscription)
                                 (set_status S_expired) ;;
  User_findOneAndUpdate env (telegramId subscription) expired_patch.

(** { status: 'active', expiryDate: { $gte: targetDate, $lte: targetEnd } } *)
Definition expiring_query (targetDate targetEnd : Z) (s : Subscription)
  : bool :=
  SubStatus_eqb (status s) S_active
  && (targetDate <=? expiryDate s) && (expiryDate s <=? targetEnd).

(** getSubscriptionsExpiringSoon(daysAhead) *)
Definition getSubscriptionsExpiringSoon (daysAhead : Z)
  : M (list Subscription) :=
  today <- startOfToday env ;;
  let targetDate := addDays today daysAhead in
  let targetEnd := setHours_end (tzOffset env) targetDate in
  Subscription_find env (expiring_query targetDate targetEnd).

(** getExpiredUnprocessed() *)
Definition getExpiredUnprocessed : M (list Subscription) :=
  today <- startOfToday env ;;
  Subscription_find env (just_expired_query today).

(** getTodayExpiryList() *)
Definition getTodayExpiryList : M (list Subscription) :=
  today <- startOfToday env ;;
  todayEnd <- endOfToday ;;
  Subscription_find env (expiring_query today todayEnd).

(** *** src/services/userService.js: getActiveSubscription *)

(** { telegramId, status: 'active', expiryDate: { $gt: new Date() } } *)
Definition active_now_query (tid t : Z) (s : Subscription) : bool :=
  (telegramId s =? tid) && SubStatus_eqb (status s) S_active
  && (t <? expiryDate s).

(** getActiveSubscription(telegramId); [populate('planId')] then fills in
    the plan of the record found, which does not change which record that
    is. *)
Definition getActiveSubscription (tid : Z) : M (option Subscription) :=
  t <- now env ;; Subscription_findOne env (active_now_query tid t).

End Services.

(** *** src/services/analyticsService.js: getPlanPerformance *)

(** A row of the $group stage: { _id: '$planId', planName: { $first },
    durationDays: { $first }, count: { $sum: 1 } }. *)
Record PlanRow := mkRow {
  row_id : nat;
  row_planName : string;
  row_durationDays : Z;
  row_count : nat
}.

(** A document joins the row of its plan, or opens one with its own
    planName and durationDays. *)
Fixpoint group_add (s : Subscription) (rows : list PlanRow) : list PlanRow :=
  match rows with
  | [] => [mkRow (planId s) (planName s) (durationDays s) 1]
  | r :: rows' =>
      if Nat.eqb (row_id r) (planId s)
      then mkRow (row_id r) (row_planName r) (row_durationDays r)
                 (S (row_count r)) :: rows'
      else r :: group_add s rows'
  end.

(** The $group stage.  MongoDB leaves the order of the groups open, and so
    the order of rows with equal durationDays after the sort; the rows are
    built here in the order the documents are met. *)
Definition group_by_plan (l : list Subscription) : list PlanRow :=
  fold_left (fun rows s => group_add s rows) l [].

(** { $sort: { durationDays: 1 } } *)
Fixpoint insert_row (r : PlanRow) (rows : list PlanRow) : list PlanRow :=
  match rows with
  | [] => [r]
  | x :: rows' =>
      if row_durationDays r <=? row_durationDays x then r :: x :: rows'
      else x :: insert_row r rows'
  end.

Definition sort_rows (rows : list PlanRow) : list PlanRow :=
  fold_right insert_row [] rows.

Section Analytics.

Variable env : Env.

(** getPlanPerformance(): $match { status: 'active', expiryDate: { $gt: new
    Date() } }, then the group and the sort. *)
Definition getPlanPerformance : M (list PlanRow) :=
  t <- now env ;;
  store env OpRead ;;
  gets (fun w => sort_rows (group_by_plan
                              (filter (monitor_active_query t)
                                      (subscriptions w)))).

(** The 'active' report of /reports (src/bot/superAdminHandlers.js):
    Subscription.countDocuments({ status: 'active',
    expiryDate: { $gt: new Date() } }). *)
Definition report_active : M nat :=
  t <- now env ;; Subscription_countDocuments env (monitor_active_query t).

End Analytics.

(** The matched subscriptions of plan [pid]. *)
Definition count_plan (pid : nat) (l : list Subscription) : nat :=
  List.length (filter (fun s => Nat.eqb (planId s) pid) l).

(** The sum of the counts. *)
Definition total (rows : list PlanRow) : nat :=
  fold_right Nat.add 0%nat (map row_count rows).

(** Each number is at most the next one. *)
Fixpoint ascending (l : list Z) : Prop :=
  match l with
  | a :: (b :: _) as l' => a <= b /\ ascending l'
  | _ => True
  end.

(** What the group stage has built from the documents seen so far. *)
Definition grouped (seen : list Subscription) (rows : list PlanRow) : Prop :=
  NoDup (map row_id rows)
  /\ Forall (fun r => row_count r = count_plan (row_id r) seen
                      /\ (1 <= row_count r)%nat) rows
  /\ (forall pid, ~ In pid (map row_id rows) -> count_plan pid seen = 0%nat)
  /\ total rows = List.length seen.

(** ** Vocabulary of the further properties *)

(** *** What a sweep may do to the collection *)

(** The collections of [w] and [w'] match record by record, each pair
    related by [A]. *)
Definition lifted (A : Subscription -> Subscription -> Prop) (w w' : World)
  : Prop :=
  Forall2 A (subscriptions w) (subscriptions w').

(** A relation between what a record was and what it has become that a
    sequence of writes keeps. *)
Class DocOrder (A : Subscription -> Subscription -> Prop) : Prop := {
  doc_refl : forall s, A s s;
  doc_trans : forall a b c, A a b -> A b c -> A a c;
  doc_id : forall s s', A s s' -> sub_id s' = sub_id s
}.

(** The step wrote, if anything, only under [sid], and only documents that
    satisfy [A0]. *)
Definition rewrites (sid : nat) (A0 : Subscription -> Prop) (w w' : World)
  : Prop :=
  Forall2 (fun s s' => s' = s \/ (sub_id s = sid /\ sub_id s' = sid /\ A0 s'))
          (subscriptions w) (subscriptions w').

(** From a collection with unique [_id]s, the step relates every record to
    its successor by [A]. *)
Definition sweep (A : Subscription -> Subscription -> Prop) (w w' : World)
  : Prop :=
  NoDup (map sub_id (subscriptions w)) -> lifted A w w'.

(** The reminder job: nothing but reminder flags, and flags are only set. *)
Definition flags_raised (s s' : Subscription) : Prop :=
  s' = set_reminderFlags (reminderFlags s') s
  /\ forall f, get_flag f (reminderFlags s) = true ->
               get_flag f (reminderFlags s') = true.

(** active -> grace -> expired, never back. *)
Definition status_forward (a b : SubStatus) : Prop :=
  a = b
  \/ (a = S_active /\ (b = S_grace \/ b = S_expired))
  \/ (a = S_grace /\ b = S_expired).

(** The grace job: an active or in-grace record may change its status,
    forward, and its grace bookkeeping; nothing else changes. *)
Definition grace_moved (s s' : Subscription) : Prop :=
  s' = s
  \/ ((status s = S_active \/ status s = S_grace)
      /\ s' = set_graceNotifications (graceNotifications s')
                (set_graceDaysUsed (graceDaysUsed s')
                   (set_status (status s') s))
      /\ status_forward (status s) (status s')).

(** The reconciler: an active record may get a new invite link. *)
Definition link_renewed (s s' : Subscription) : Prop :=
  s' = s \/ (status s = S_active /\ s' = set_inviteLink (inviteLink s') s).

(** The record is active or in grace. *)
Definition is_live (s : Subscription) : bool :=
  SubStatus_eqb (status s) S_active || SubStatus_eqb (status s) S_grace.

(** What every write of the sweeps to an existing record respects: the
    owner stays, a record that is not active or in grace does not become so,
    and no record becomes cancelled. *)
Definition kept (s s' : Subscription) : Prop :=
  sub_id s' = sub_id s
  /\ telegramId s' = telegramId s
  /\ (is_live s' = true -> is_live s = true)
  /\ (status s' = S_cancelled -> status s = S_cancelled).

(** How many active or in-grace subscriptions the user [tid] has. *)
Definition live_count (tid : Z) (w : World) : nat :=
  List.length (filter (active_or_grace_of tid) (subscriptions w)).

(** The collection as the engine keeps it: unique [_id]s, at most one
    active or in-grace subscription per user, none cancelled. *)
Definition well_kept (w : World) : Prop :=
  NoDup (map sub_id (subscriptions w))
  /\ (forall tid, (live_count tid w <= 1)%nat)
  /\ Forall (fun s => status s <> S_cancelled) (subscriptions w).

(** Either the store rejected the operation and nothing changed but the
    history, or it went through. *)
Definition outcome {A} (m : M A) (op : StoreOp) (a : World -> A)
  (f : World -> World) (w : World) : Prop :=
  m w = (Throw MongoError, log_event (EvStore op false) w)
  \/ m w = (Ok (a (log_event (EvStore op true) w)),
            f (log_event (EvStore op true) w)).

(** Telegram answers every delivery with 429 (too many requests). *)
Definition rate_limited (d : Z) : Env :=
  mkEnv (fun _ => DAY d + 9 * 3600000) 0 None None (-1000)
        (fun _ _ => Some 429) (fun _ => false) (fun _ _ => false)
        (fun _ _ => false) (fun _ _ => Some "https://t.me/+invite"%string)
        (fun _ => false).

(** A deployment with users and a plan on record and no subscription. *)
Definition fresh_world : World :=
  mkWorld [] [alice; bob] [monthly] [] (fun _ => cm_left) [].

(** No record is active with its expiry before [today]. *)
Definition none_unprocessed (today : Z) (w : World) : Prop :=
  Forall (fun s => just_expired_query today s = false) (subscriptions w).

(** The records still to be moved to grace are among [rem]. *)
Definition unprocessed_among (today : Z) (rem : list Subscription)
  (w : World) : Prop :=
  forall s, In s (subscriptions w) -> just_expired_query today s = true ->
            In (sub_id s) (map sub_id rem).

(** What the final warning of [s], sent after [w0], leaves behind. *)
Definition warned_post (w0 : World) (s : Subscription) : World -> Prop :=
  inv_and (holds_sub (sub_id s) (set_gn_day2 s))
          (inv_ex (fun r =>
             emitted w0 (EvSendMessage (Some (sub_id s)) (telegramId s)
                                       MsgFinalWarning r))).

(** Alice's subscription had all four reminders sent and ends on day 12; it
    is renewed on day 10 and runs to day 42. *)
Definition alice_reminded : Subscription :=
  mkSub 1 1 501 1 "30 Days Plan" 30 0 (DAY 12) S_active (Some 900) None
        (mkFlags true true true true) 0 no_grace false.

(** What the reconciler leaves behind for an active subscriber it found
    outside the group. *)
Definition reinvited_post (w0 : World) (l : string) (s : Subscription)
  : World -> Prop :=
  inv_and (holds_sub (sub_id s) (set_inviteLink (Some l) s))
  (inv_and (emitted w0 (EvCreateInviteLink (telegramId s) (Some l)))
           (inv_ex (fun r =>
              emitted w0 (EvSendMessage (Some (sub_id s)) (telegramId s)
                                        (MsgRejoin l) r)))).

(** The user [tid] is outside the group. *)
Definition absent (tid : Z) (w : World) : Prop :=
  is_present (chat w tid) = false.

(** Bob has an active subscription and has left the group. *)
Definition bob_left : World :=
  mkWorld [sub_of 1 502 (DAY 20) S_active] [alice; bob] [monthly] []
          (fun _ => cm_left) [].

(** No invite link was asked of Telegram. *)
Definition no_invite (ev : Event) : Prop :=
  forall t r, ev <> EvCreateInviteLink t r.

(** What the approval of a first subscription, made after [w0], leaves. *)
Definition approved_post (w0 : World) (sid : nat) (tid : Z) (l : string)
  : World -> Prop :=
  inv_and (watching sid (fun cur => telegramId cur = tid
                                    /\ status cur = S_active
                                    /\ isRenewal cur = false
                                    /\ inviteLink cur = Some l))
  (inv_and (emitted w0 (EvCreateInviteLink tid (Some l)))
           (since w0)).

(** What the approval of a renewal for a user still in the group leaves. *)
Definition renewed_post (w0 : World) (ex : Subscription) : World -> Prop :=
  inv_and (watching (sub_id ex)
             (fun cur => status cur = S_active /\ isRenewal cur = true
                         /\ inviteLink cur = inviteLink ex))
  (inv_and (trace_new no_invite w0) (since w0)).

(** A call that takes the access of subscription [sid] away: the removal
    from the group, or the notice that goes with it. *)
Definition removal_of (sid : nat) (ev : Event) : Prop :=
  (exists tid ok, ev = EvBanChatMember (Some sid) tid ok)
  \/ (exists tid r, ev = EvSendMessage (Some sid) tid MsgAccessRemoved r).

(** The record [s] but for its grace notification flags. *)
Definition renotified (s cur : Subscription) : Prop :=
  exists g, cur = set_graceNotifications g s.

(** ** Proofs *)

(** ** Reasoning about computations *)

Section Preserves.

Context (R : World -> World -> Prop) {FR : Frame R}.

Lemma pres_ret A (a : A) : preserves R (ret a).
Proof. intros w. apply frame_refl. Qed.

Lemma pres_throw A (e : Error) : preserves R (@throw A e).
Proof. intros w. apply frame_refl. Qed.

Lemma pres_gets A (f : World -> A) : preserves R (gets f).
Proof. intros w. apply frame_refl. Qed.

Lemma pres_modify f : stable_modify R f -> preserves R (modify f).
Proof. intros H w. apply H. Qed.

Lemma pres_bind A B (m : M A) (k : A -> M B) :
  preserves R m -> (forall a, preserves R (k a)) -> preserves R (bind m k).
Proof.
  intros Hm Hk w. unfold bind. specialize (Hm w).
  destruct (m w) as [[a|e] w1]; simpl in *; [|exact Hm].
  eapply frame_trans; [exact Hm | apply Hk].
Qed.

Lemma pres_try_catch A (m : M A) (h : Error -> M A) :
  preserves R m -> (forall e, preserves R (h e)) -> preserves R (try_catch m h).
Proof.
  intros Hm Hh w. unfold try_catch. specialize (Hm w).
  destruct (m w) as [[a|e] w1]; simpl in *; [exact Hm|].
  eapply frame_trans; [exact Hm | apply Hh].
Qed.

Lemma pres_forM_ A (l : list A) (body : A -> M unit) :
  (forall x, In x l -> preserves R (body x)) -> preserves R (forM_ l body).
Proof.
  induction l as [|x l IH]; intros H; simpl.
  - apply pres_ret.
  - apply pres_bind; [apply H; left; reflexivity|].
    intros _. apply IH. intros y Hy. apply H. right. exact Hy.
Qed.

Variable env : Env.

Lemma pres_now : (forall t, stable_event R (EvNow t)) -> preserves R (now env).
Proof. intros H w. unfold now. simpl. apply H. Qed.

Lemma pres_store op :
  (forall ok, stable_event R (EvStore op ok)) -> preserves R (store env op).
Proof.
  intros H w. unfold store. destruct (store_fails env (tick w)); simpl; apply H.
Qed.

Lemma pres_sendMessage o c msg :
  (forall r, stable_event R (EvSendMessage o c msg r)) ->
  preserves R (sendMessage env o c msg).
Proof.
  intros H w. unfold sendMessage.
  destruct (sendMessage_error env (tick w) c); simpl; apply H.
Qed.

Lemma pres_getChatMember tid :
  (forall ok, stable_event R (EvGetChatMember tid ok)) ->
  preserves R (getChatMember env tid).
Proof.
  intros H w. unfold getChatMember.
  destruct (getChatMember_fails env (tick w) tid); simpl; apply H.
Qed.

Lemma pres_createChatInviteLink tid :
  (forall r, stable_event R (EvCreateInviteLink tid r)) ->
  preserves R (createChatInviteLink env tid).
Proof.
  intros H w. unfold createChatInviteLink.
  destruct (createChatInviteLink_result env (tick w) tid); simpl; apply H.
Qed.

Lemma pres_answerCbQuery :
  (forall ok, stable_event R (EvAnswerCbQuery ok)) ->
  preserves R (answerCbQuery env).
Proof.
  intros H w. unfold answerCbQuery.
  destruct (answerCbQuery_fails env (tick w)); simpl; apply H.
Qed.

Lemma pres_banChatMember o tid :
  (forall ok, stable_event R (EvBanChatMember o tid ok)) ->
  stable_modify R (set_chat (fun c x => if x =? tid then cm_kicked else c x)) ->
  preserves R (banChatMember env o tid).
Proof.
  intros H Hc w. unfold banChatMember.
  destruct (banChatMember_fails env (tick w) tid); simpl; [apply H|].
  eapply frame_trans; [apply H | apply Hc].
Qed.

End Preserves.

Section Succeeds.

Lemma succ_ret A (a : A) : succeeds (ret a).
Proof. intros w. exists a. reflexivity. Qed.

Lemma succ_gets A (f : World -> A) : succeeds (gets f).
Proof. intros w. eexists. reflexivity. Qed.

Lemma succ_modify f : succeeds (modify f).
Proof. intros w. exists tt. reflexivity. Qed.

Lemma succ_bind A B (m : M A) (k : A -> M B) :
  succeeds m -> (forall a, succeeds (k a)) -> succeeds (bind m k).
Proof.
  intros Hm Hk w. unfold bind. destruct (Hm w) as [a Ha].
  destruct (m w) as [[a'|e] w1]; simpl in *; [apply Hk | discriminate].
Qed.

Lemma succ_try_catch A (m : M A) (h : Error -> M A) :
  (forall e, succeeds (h e)) -> succeeds (try_catch m h).
Proof.
  intros Hh w. unfold try_catch.
  destruct (m w) as [[a|e] w1]; simpl; [eexists; reflexivity | apply Hh].
Qed.

Lemma succ_forM_ A (l : list A) (body : A -> M unit) :
  (forall x, In x l -> succeeds (body x)) -> succeeds (forM_ l body).
Proof.
  induction l as [|x l IH]; intros H; simpl.
  - apply succ_ret.
  - apply succ_bind; [apply H; left; reflexivity|].
    intros _. apply IH. intros y Hy. apply H. right. exact Hy.
Qed.

Lemma succ_now env : succeeds (now env).
Proof. intros w. eexists. reflexivity. Qed.

Lemma succ_store env op :
  (forall t, store_fails env t = false) -> succeeds (store env op).
Proof. intros H w. unfold store. rewrite H. exists tt. reflexivity. Qed.

End Succeeds.

(** ** Frame relations *)

#[export] Instance Frame_and R1 R2 :
  Frame R1 -> Frame R2 -> Frame (rel_and R1 R2).
Proof.
  intros F1 F2. split.
  - intros w. split; apply frame_refl.
  - intros a b c [H1 H2] [H3 H4]. split; eapply frame_trans; eauto.
Qed.

#[export] Instance Frame_trace_new P : Frame (trace_new P).
Proof.
  split; unfold trace_new.
  - intros w. exists []. split; [reflexivity | constructor].
  - intros a b c [l1 [E1 F1]] [l2 [E2 F2]]. exists (l2 ++ l1). split.
    + rewrite E2, E1. apply app_assoc.
    + apply Forall_app. split; assumption.
Qed.

#[export] Instance Frame_subs_same : Frame subs_same.
Proof. split; unfold subs_same; intros; congruence. Qed.

#[export] Instance Frame_chat_same : Frame chat_same.
Proof.
  split; unfold chat_same; intros; try reflexivity.
  rewrite H0. apply H.
Qed.

#[export] Instance Frame_keeps I : Frame (keeps I).
Proof. split; unfold keeps; intros; auto. Qed.

Lemma stable_event_and R1 R2 ev :
  stable_event R1 ev -> stable_event R2 ev -> stable_event (rel_and R1 R2) ev.
Proof. intros H1 H2 w. split; [apply H1 | apply H2]. Qed.

Lemma stable_modify_and R1 R2 f :
  stable_modify R1 f -> stable_modify R2 f -> stable_modify (rel_and R1 R2) f.
Proof. intros H1 H2 w. split; [apply H1 | apply H2]. Qed.

(** *** Lists of documents *)

Lemma map_id_replace_sub doc l :
  map sub_id (replace_sub doc l) = map sub_id l.
Proof.
  unfold replace_sub. rewrite map_map. apply map_ext_in. intros s _.
  destruct (Nat.eqb_spec (sub_id s) (sub_id doc)); congruence.
Qed.

Lemma sub_by_id_replace_other sid doc l :
  sub_id doc <> sid ->
  sub_by_id sid (replace_sub doc l) = sub_by_id sid l.
Proof.
  intros Hne. unfold sub_by_id, replace_sub.
  induction l as [|s l IH]; simpl; [reflexivity|].
  destruct (Nat.eqb_spec (sub_id s) (sub_id doc)) as [E|E].
  - destruct (Nat.eqb_spec (sub_id doc) sid) as [E1|E1]; [contradiction|].
    destruct (Nat.eqb_spec (sub_id s) sid) as [E2|E2]; [congruence|].
    exact IH.
  - destruct (Nat.eqb (sub_id s) sid); [reflexivity | exact IH].
Qed.

Lemma sub_by_id_replace_self doc l s :
  sub_by_id (sub_id doc) l = Some s ->
  sub_by_id (sub_id doc) (replace_sub doc l) = Some doc.
Proof.
  unfold sub_by_id, replace_sub.
  induction l as [|x l IH]; simpl; [discriminate|].
  destruct (Nat.eqb_spec (sub_id x) (sub_id doc)) as [E|E].
  - intros _. rewrite Nat.eqb_refl. reflexivity.
  - destruct (Nat.eqb_spec (sub_id x) (sub_id doc)); [contradiction|].
    exact IH.
Qed.

Lemma sub_by_id_In sid l s :
  sub_by_id sid l = Some s -> In s l /\ sub_id s = sid.
Proof.
  unfold sub_by_id. intros H. apply find_some in H. destruct H as [H1 H2].
  split; [exact H1 | apply Nat.eqb_eq; exact H2].
Qed.

Lemma In_sub_by_id {l s} :
  NoDup (map sub_id l) -> In s l -> sub_by_id (sub_id s) l = Some s.
Proof.
  unfold sub_by_id. induction l as [|x l IH]; simpl; intros Hnd Hin.
  - contradiction.
  - inversion Hnd as [|? ? Hx Hl]; subst.
    destruct Hin as [->|Hin].
    + rewrite Nat.eqb_refl. reflexivity.
    + destruct (Nat.eqb_spec (sub_id x) (sub_id s)) as [E|E].
      * exfalso. apply Hx. rewrite E. apply in_map. exact Hin.
      * apply IH; assumption.
Qed.

Lemma find_update_first_tid tid q p l u' :
  find (by_telegramId tid) (update_first q (apply_patch p) l) = Some u' ->
  exists u, find (by_telegramId tid) l = Some u
            /\ (u' = u \/ u' = apply_patch p u).
Proof.
  induction l as [|x l IH]; simpl; [discriminate|].
  destruct (q x) eqn:Eq; simpl.
  - unfold by_telegramId at 1. simpl. fold (by_telegramId tid x).
    destruct (by_telegramId tid x).
    + intros H. inversion H; subst. exists x. split; [reflexivity|right; reflexivity].
    + intros H. exists u'. split; [exact H | left; reflexivity].
  - destruct (by_telegramId tid x).
    + intros H. inversion H; subst. exists u'. split; [reflexivity|left; reflexivity].
    + exact IH.
Qed.

Lemma find_update_first_self tid p l :
  find (by_telegramId tid)
       (update_first (by_telegramId tid) (apply_patch p) l)
  = option_map (apply_patch p) (find (by_telegramId tid) l).
Proof.
  induction l as [|x l IH]; simpl; [reflexivity|].
  destruct (by_telegramId tid x) eqn:E; simpl.
  - unfold by_telegramId in *. simpl. rewrite E. reflexivity.
  - rewrite E. exact IH.
Qed.

(** *** Taking a computation apart *)

Ltac unfold_engine :=
  unfold approve, awardReferralBonus, award, createSubscription,
    membershipMonitor, monitorExpired, monitorActive,
    gracePeriodHandler, graceStep, graceRemove, graceEnter,
    reminderScheduler, reminderCheckpoint, reminderBody,
    startOfToday, logToChannel, banFromGroup, isGroupMember,
    generateInviteLink, safeSend, handleBlockedUser,
    AdminLog_create, Plan_find_active, User_findByIdAndUpdate,
    User_findOneAndUpdate, User_findOne, Subscription_create,
    Subscription_findByIdAndUpdate, save, Subscription_countDocuments,
    Subscription_findOne, Subscription_find.

Ltac pres_step :=
  lazymatch goal with
  | |- preserves _ (bind _ _) => apply pres_bind; [ typeclasses eauto | | intros ? ]
  | |- preserves _ (try_catch _ _) => apply pres_try_catch; [ typeclasses eauto | | intros ? ]
  | |- preserves _ (ret _) => apply pres_ret; typeclasses eauto
  | |- preserves _ (throw _) => apply pres_throw; typeclasses eauto
  | |- preserves _ (gets _) => apply pres_gets; typeclasses eauto
  | |- preserves _ (modify _) => apply pres_modify
  | |- preserves _ (now _) => apply pres_now; intros ?
  | |- preserves _ (store _ _) => apply pres_store; intros ?
  | |- preserves _ (sendMessage _ _ _ _) => apply pres_sendMessage; intros ?
  | |- preserves _ (getChatMember _ _) => apply pres_getChatMember; intros ?
  | |- preserves _ (createChatInviteLink _ _) =>
      apply pres_createChatInviteLink; intros ?
  | |- preserves _ (answerCbQuery _) => apply pres_answerCbQuery; intros ?
  | |- preserves _ (banChatMember _ _ _) =>
      apply pres_banChatMember; [ typeclasses eauto | intros ? | ]
  | |- preserves _ (forM_ _ _) => apply pres_forM_; [ typeclasses eauto | intros ? ? ]
  | |- preserves _ (if ?b then _ else _) => destruct b
  | |- preserves _ (match ?x with _ => _ end) => destruct x
  | |- preserves _ _ => progress unfold_engine
  end.

Ltac pres := repeat pres_step.

Ltac succ_step :=
  lazymatch goal with
  | |- succeeds (bind _ _) => apply succ_bind; [ | intros ? ]
  | |- succeeds (try_catch _ _) => apply succ_try_catch; intros ?
  | |- succeeds (ret _) => apply succ_ret
  | |- succeeds (gets _) => apply succ_gets
  | |- succeeds (modify _) => apply succ_modify
  | |- succeeds (now _) => apply succ_now
  | |- succeeds (store _ _) => apply succ_store; assumption
  | |- succeeds (forM_ _ _) => apply succ_forM_; intros ? ?
  | |- succeeds (if ?b then _ else _) => destruct b
  | |- succeeds (match ?x with _ => _ end) => destruct x
  | |- succeeds _ => progress unfold_engine
  end.

Ltac succ := repeat succ_step.

(** Closing the side conditions a relation leaves. *)
Ltac stab :=
  repeat first
    [ apply stable_event_and
    | apply stable_modify_and
    | solve [ unfold stable_event, stable_modify, subs_same, chat_same;
              intros; simpl; auto ] ].

(** *** Running a computation step by step *)

Lemma bind_run {A B} {m : M A} (k : A -> M B) {w a w1} :
  m w = (Ok a, w1) -> bind m k w = k a w1.
Proof. intros E. unfold bind. rewrite E. reflexivity. Qed.

Lemma succ_run {A} {m : M A} :
  succeeds m -> forall w, exists a w1, m w = (Ok a, w1).
Proof.
  intros H w. destruct (H w) as [a Ha]. destruct (m w) as [r w1].
  simpl in Ha. subst r. exists a, w1. reflexivity.
Qed.

Lemma keeps_run {A} {m : M A} {I : World -> Prop} {w r w1} :
  preserves (keeps I) m -> I w -> m w = (r, w1) -> I w1.
Proof. intros H Hw E. specialize (H w Hw). rewrite E in H. exact H. Qed.

Lemma forM_app A (l1 l2 : list A) (body : A -> M unit) w :
  forM_ (l1 ++ l2) body w = (forM_ l1 body ;; forM_ l2 body) w.
Proof.
  revert w. induction l1 as [|x l1 IH]; intros w; simpl.
  - reflexivity.
  - unfold bind in *. destruct (body x w) as [[[]|e] w1].
    + apply IH.
    + reflexivity.
Qed.

Lemma forM_exec_all A (l : list A) (body : A -> M unit) :
  (forall x, In x l -> succeeds (body x)) ->
  forall w, forM_ l body w = (Ok tt, exec_all body l w).
Proof.
  induction l as [|x l IH]; intros H w; simpl.
  - reflexivity.
  - destruct (succ_run (H x (or_introl eq_refl)) w) as [[] [w1 E]].
    rewrite (bind_run _ E).
    replace (snd (body x w)) with w1 by (rewrite E; reflexivity).
    apply IH. intros y Hy. apply H. right. exact Hy.
Qed.

Lemma NoDup_map_filter {A B} (f : A -> B) (q : A -> bool) l :
  NoDup (map f l) -> NoDup (map f (filter q l)).
Proof.
  induction l as [|x l IH]; simpl; intros H; [constructor|].
  inversion H as [|? ? Hx Hl]; subst.
  destruct (q x); simpl; [constructor|]; auto.
  intros Hin. apply Hx. apply in_map_iff in Hin. destruct Hin as [y [E Hy]].
  apply filter_In in Hy. rewrite <- E. apply in_map. tauto.
Qed.

Lemma NoDup_split_ne {A B} (f : A -> B) l1 x l2 :
  NoDup (map f (l1 ++ x :: l2)) ->
  forall y, In y l1 \/ In y l2 -> f y <> f x.
Proof.
  rewrite map_app. simpl. intros H y Hy E.
  apply NoDup_remove_2 in H. apply H. rewrite <- E.
  apply in_or_app. destruct Hy as [Hy|Hy]; [left|right]; apply in_map; exact Hy.
Qed.

(** ** Invariants of the sweeps *)

Lemma keeps_and_event A B ev :
  stable_event (keeps A) ev -> stable_event (keeps B) ev ->
  stable_event (keeps (inv_and A B)) ev.
Proof. intros HA HB w [H1 H2]. split; [apply HA | apply HB]; assumption. Qed.

Lemma keeps_and_modify A B f :
  stable_modify (keeps A) f -> stable_modify (keeps B) f ->
  stable_modify (keeps (inv_and A B)) f.
Proof. intros HA HB w [H1 H2]. split; [apply HA | apply HB]; assumption. Qed.

Lemma keeps_ex_event X (I : X -> World -> Prop) ev :
  (forall x, stable_event (keeps (I x)) ev) ->
  stable_event (keeps (inv_ex I)) ev.
Proof. intros H w [x Hx]. exists x. apply H. exact Hx. Qed.

Lemma keeps_ex_modify X (I : X -> World -> Prop) f :
  (forall x, stable_modify (keeps (I x)) f) ->
  stable_modify (keeps (inv_ex I)) f.
Proof. intros H w [x Hx]. exists x. apply H. exact Hx. Qed.

Lemma holds_sub_event sid s ev : stable_event (keeps (holds_sub sid s)) ev.
Proof. intros w H. exact H. Qed.

Lemma holds_sub_users sid s f : stable_modify (keeps (holds_sub sid s)) (set_users f).
Proof. intros w H. exact H. Qed.

Lemma holds_sub_logs sid s f :
  stable_modify (keeps (holds_sub sid s)) (set_adminLogs f).
Proof. intros w H. exact H. Qed.

Lemma holds_sub_chat sid s f :
  stable_modify (keeps (holds_sub sid s)) (set_chat f).
Proof. intros w H. exact H. Qed.

Lemma holds_sub_replace sid s doc :
  sub_id doc <> sid ->
  stable_modify (keeps (holds_sub sid s)) (set_subscriptions (replace_sub doc)).
Proof.
  intros Hne w [H1 H2]. split; simpl.
  - rewrite map_id_replace_sub. exact H1.
  - rewrite sub_by_id_replace_other by exact Hne. exact H2.
Qed.

Lemma holds_sub_replace_self s doc w :
  holds_sub (sub_id doc) s w ->
  holds_sub (sub_id doc) doc (set_subscriptions (replace_sub doc) w).
Proof.
  intros [H1 H2]. split; simpl.
  - rewrite map_id_replace_sub. exact H1.
  - eapply sub_by_id_replace_self. exact H2.
Qed.

Lemma holds_sub_candidate sid s q w c :
  holds_sub sid s w -> In c (filter q (subscriptions w)) ->
  sub_id c = sid -> c = s.
Proof.
  intros [H1 H2] Hc E. apply filter_In in Hc. destruct Hc as [Hc _].
  apply (In_sub_by_id H1) in Hc. rewrite E in Hc. congruence.
Qed.

Lemma candidate_other sid s q w c :
  holds_sub sid s w -> q s = false ->
  In c (filter q (subscriptions w)) -> sub_id c <> sid.
Proof.
  intros H Hq Hc E.
  pose proof (holds_sub_candidate sid s q w c H Hc E) as ->.
  apply filter_In in Hc. destruct Hc as [_ Hc]. congruence.
Qed.

Lemma user_removed_patch tid q p :
  (forall u, graceDaysRemaining u = Some 0 ->
             u_status u = U_expired \/ u_status u = U_blocked ->
             graceDaysRemaining (apply_patch p u) = Some 0
             /\ (u_status (apply_patch p u) = U_expired
                 \/ u_status (apply_patch p u) = U_blocked)) ->
  stable_modify (keeps (user_removed tid))
                (set_users (update_first q (apply_patch p))).
Proof.
  intros Hp w H u' Hu'. simpl in Hu'.
  apply find_update_first_tid in Hu'. destruct Hu' as [u [Hu [->| ->]]].
  - apply H. exact Hu.
  - destruct (H u Hu) as [H1 H2]. apply Hp; assumption.
Qed.

Lemma user_removed_blocked tid q :
  stable_modify (keeps (user_removed tid))
                (set_users (update_first q (apply_patch blocked_patch))).
Proof.
  apply user_removed_patch. intros u H1 H2. simpl. split; [exact H1 | right; reflexivity].
Qed.

Lemma user_removed_removed tid q :
  stable_modify (keeps (user_removed tid))
                (set_users (update_first q (apply_patch removed_patch))).
Proof.
  apply user_removed_patch. intros u H1 H2. simpl. split; [reflexivity | left; reflexivity].
Qed.

Lemma since_refl w : since w w.
Proof. split; exists []; reflexivity. Qed.

Lemma since_trans w0 w1 w2 : since w0 w1 -> since w1 w2 -> since w0 w2.
Proof.
  intros [[l1 E1] [m1 F1]] [[l2 E2] [m2 F2]]. split.
  - exists (l2 ++ l1). rewrite E2, E1. apply app_assoc.
  - exists (m2 ++ m1). rewrite F2, F1. apply app_assoc.
Qed.

Lemma since_event w0 ev : stable_event (keeps (since w0)) ev.
Proof.
  intros w [[l E] H]. split; [|exact H]. exists (ev :: l). simpl.
  rewrite E. reflexivity.
Qed.

Lemma since_cons w0 e : stable_modify (keeps (since w0)) (set_adminLogs (cons e)).
Proof.
  intros w [H [l E]]. split; [exact H|]. exists (e :: l). simpl.
  rewrite E. reflexivity.
Qed.

Lemma emitted_event w0 ev ev' : stable_event (keeps (emitted w0 ev)) ev'.
Proof.
  intros w [l [E H]]. exists (ev' :: l). split.
  - simpl. rewrite E. reflexivity.
  - right. exact H.
Qed.

Lemma emitted_now w0 ev w : since w0 w -> emitted w0 ev (log_event ev w).
Proof.
  intros [[l E] _]. exists (ev :: l). split.
  - simpl. rewrite E. reflexivity.
  - left. reflexivity.
Qed.

Lemma logged_cons w0 e e' :
  stable_modify (keeps (logged w0 e)) (set_adminLogs (cons e')).
Proof.
  intros w [l [E H]]. exists (e' :: l). split.
  - simpl. rewrite E. reflexivity.
  - right. exact H.
Qed.

Lemma logged_now w0 e w : since w0 w -> logged w0 e (set_adminLogs (cons e) w).
Proof.
  intros [_ [l E]]. exists (e :: l). split.
  - simpl. rewrite E. reflexivity.
  - left. reflexivity.
Qed.

Lemma keeps_trace_new P w0 ev :
  P ev -> stable_event (keeps (trace_new P w0)) ev.
Proof.
  intros Hev w [l [E F]]. exists (ev :: l). split.
  - simpl. rewrite E. reflexivity.
  - constructor; assumption.
Qed.

(** Side conditions that hold because the write does not touch what the
    invariant reads. *)
Ltac untouched :=
  solve [ unfold stable_event, stable_modify, keeps, user_removed, since,
            emitted, logged, trace_new;
          intros; simpl in *; eauto ].

Ltac inv_side :=
  first
    [ apply keeps_and_event; inv_side
    | apply keeps_and_modify; inv_side
    | apply keeps_ex_event; intros ?; inv_side
    | apply keeps_ex_modify; intros ?; inv_side
    | apply holds_sub_event | apply holds_sub_users | apply holds_sub_logs
    | apply holds_sub_chat
    | apply user_removed_blocked | apply user_removed_removed
    | apply since_event | apply since_cons
    | apply emitted_event | apply logged_cons
    | apply holds_sub_replace; unfold set_gn_day1, set_gn_day2; simpl;
      assumption
    | apply keeps_trace_new; unfold not_for, set_gn_day1, set_gn_day2; simpl;
      congruence
    | untouched ].

(** [through E]: carry an invariant across the step recorded in [E]. *)
Ltac through E :=
  refine (keeps_run _ _ E); [ try solve [ pres; inv_side ] | ].

(** ** Telegram helpers: what they leave in the history *)

Section Helpers.

Variable env : Env.

Lemma safeSend_succeeds o tid msg : succeeds (safeSend env o tid msg).
Proof. succ. Qed.

Lemma banFromGroup_succeeds o tid : succeeds (banFromGroup env o tid).
Proof. succ. Qed.

Lemma logToChannel_succeeds msg : succeeds (logToChannel env msg).
Proof. succ. Qed.

Lemma handleBlockedUser_succeeds tid : succeeds (handleBlockedUser env tid).
Proof. succ. Qed.

(** safeSend returns [true] exactly when Telegram accepted the message; on
    error code 403, and only then, it runs the blocked-user procedure. *)
Lemma safeSend_run o tid msg w :
  safeSend env o tid msg w
  = let r := sendMessage_error env (tick w) tid in
    let w1 := log_event (EvSendMessage o tid msg r) w in
    match r with
    | None => (Ok true, w1)
    | Some code =>
        (Ok false,
         if code =? 403 then snd (handleBlockedUser env tid w1) else w1)
    end.
Proof.
  unfold safeSend, try_catch, bind at 1, sendMessage. cbv zeta.
  destruct (sendMessage_error env (tick w) tid) as [code|]; simpl;
    [|reflexivity].
  unfold bind. destruct (code =? 403); [|reflexivity].
  match goal with
  | |- context [handleBlockedUser env tid ?w1] =>
      destruct (succ_run (handleBlockedUser_succeeds tid) w1) as [[] [w3 E3]];
      rewrite E3
  end.
  reflexivity.
Qed.

Lemma safeSend_event w0 o tid msg w :
  since w0 w ->
  exists r,
    emitted w0 (EvSendMessage o tid msg r) (snd (safeSend env o tid msg w))
    /\ fst (safeSend env o tid msg w)
       = Ok (match r with None => true | Some _ => false end).
Proof.
  intros Hs. exists (sendMessage_error env (tick w) tid).
  rewrite safeSend_run. cbv zeta.
  pose proof (emitted_now w0
                (EvSendMessage o tid msg (sendMessage_error env (tick w) tid))
                w Hs) as K.
  destruct (sendMessage_error env (tick w) tid) as [code|]; simpl;
    [|split; [exact K | reflexivity]].
  split; [|reflexivity].
  destruct (code =? 403); [|exact K].
  match goal with
  | |- emitted _ _ (snd (?h ?w1)) => destruct (h w1) as [r w2] eqn:E
  end.
  simpl. through E. exact K.
Qed.

Lemma banFromGroup_event w0 o tid w :
  since w0 w ->
  exists ok, emitted w0 (EvBanChatMember o tid ok)
                     (snd (banFromGroup env o tid w)).
Proof.
  intros Hs. unfold banFromGroup, try_catch, bind, banChatMember.
  destruct (banChatMember_fails env (tick w) tid); simpl.
  - exists false. apply emitted_now. exact Hs.
  - exists true. apply (emitted_now w0 _ w Hs).
Qed.

End Helpers.

(** A query hands the loop documents of the collection that match it. *)
Lemma keeps_find {B} env (I : World -> Prop) q
  (K : list Subscription -> M B) :
  (forall ok, stable_event (keeps I) (EvStore OpRead ok)) ->
  (forall wf, I wf -> preserves (keeps I) (K (filter q (subscriptions wf)))) ->
  preserves (keeps I) (l <- Subscription_find env q ;; K l).
Proof.
  intros Hev HK w Hw. unfold Subscription_find, bind, store.
  destruct (store_fails env (tick w)); simpl.
  - apply Hev. exact Hw.
  - apply (HK (log_event (EvStore OpRead true) w)); apply Hev; exact Hw.
Qed.

(** Neither pass of the grace job selects a subscription that is already
    expired: the job leaves the record alone and makes no call for it. *)
Lemma gracePeriodHandler_skips_expired env sid sf w0 :
  status sf = S_expired ->
  preserves (keeps (inv_and (holds_sub sid sf) (trace_new (not_for sid) w0)))
            (gracePeriodHandler env).
Proof.
  intros Hst. unfold gracePeriodHandler.
  apply pres_bind; [typeclasses eauto | pres; inv_side | intros today].
  apply keeps_find; [intros; inv_side | intros wf [Hwf _]].
  apply pres_bind; [typeclasses eauto | | intros _].
  - apply pres_forM_; [typeclasses eauto|]. intros c Hc.
    assert (Hne : sub_id c <> sid).
    { refine (candidate_other sid sf _ wf c Hwf _ Hc).
      unfold just_expired_query. rewrite Hst. reflexivity. }
    pres; inv_side.
  - apply keeps_find; [intros; inv_side | intros wf2 [Hwf2 _]].
    apply pres_forM_; [typeclasses eauto|]. intros c Hc.
    assert (Hne : sub_id c <> sid).
    { refine (candidate_other sid sf _ wf2 c Hwf2 _ Hc).
      unfold in_grace_query. rewrite Hst. reflexivity. }
    pres; inv_side.
Qed.

(** A loop over the documents a query returned, seen from one of them:
    the others leave its record alone, and what its own turn establishes
    survives theirs. *)
Lemma loop_focus (body : Subscription -> M unit) q s wf
  (Post : World -> Prop) :
  holds_sub (sub_id s) s wf -> q s = true ->
  (forall c, succeeds (body c)) ->
  (forall c, sub_id c <> sub_id s ->
             preserves (keeps (holds_sub (sub_id s) s)) (body c)) ->
  (forall w1, holds_sub (sub_id s) s w1 ->
              exists w2, body s w1 = (Ok tt, w2)
                         /\ (since wf w1 -> Post w2)) ->
  (forall c, sub_id c <> sub_id s -> preserves (keeps Post) (body c)) ->
  (forall c, preserves (keeps (since wf)) (body c)) ->
  exists w3, forM_ (filter q (subscriptions wf)) body wf = (Ok tt, w3)
             /\ Post w3.
Proof.
  intros H0 Hq Hsucc Hkeep Hself Hpost Hsince.
  destruct H0 as [Hnd Hs].
  assert (Hin : In s (filter q (subscriptions wf))).
  { apply filter_In. split; [apply (sub_by_id_In _ _ _ Hs) | exact Hq]. }
  destruct (in_split _ _ Hin) as [l1 [l2 El]].
  pose proof (NoDup_map_filter sub_id q _ Hnd) as Hndl.
  rewrite El in Hndl.
  pose proof (NoDup_split_ne sub_id l1 s l2 Hndl) as Hne.
  rewrite El, forM_app.
  assert (S1 : succeeds (forM_ l1 body))
    by (apply succ_forM_; intros c _; apply Hsucc).
  destruct (succ_run S1 wf) as [[] [w1 E1]].
  rewrite (bind_run _ E1). simpl forM_.
  assert (H1 : holds_sub (sub_id s) s w1).
  { refine (keeps_run _ _ E1); [|split; assumption].
    apply pres_forM_; [typeclasses eauto|]. intros c Hc.
    apply Hkeep. apply Hne. left. exact Hc. }
  assert (Hs1 : since wf w1).
  { refine (keeps_run _ (since_refl wf) E1).
    apply pres_forM_; [typeclasses eauto|]. intros c _. apply Hsince. }
  destruct (Hself w1 H1) as [w2 [E2 P2]].
  rewrite (bind_run _ E2).
  assert (S3 : succeeds (forM_ l2 body))
    by (apply succ_forM_; intros c _; apply Hsucc).
  destruct (succ_run S3 w2) as [[] [w3 E3]].
  exists w3. split; [exact E3|].
  refine (keeps_run _ (P2 Hs1) E3).
  apply pres_forM_; [typeclasses eauto|]. intros c Hc.
  apply Hpost. apply Hne. right. exact Hc.
Qed.

(** ** The sweeps when the store accepts every operation *)

Section StoreOk.

Variable env : Env.
Hypothesis store_ok : forall t, store_fails env t = false.

Lemma store_run op w :
  store env op w = (Ok tt, log_event (EvStore op true) w).
Proof. unfold store. rewrite store_ok. reflexivity. Qed.

Lemma find_run q w :
  Subscription_find env q w
  = (Ok (filter q (subscriptions w)), log_event (EvStore OpRead true) w).
Proof. unfold Subscription_find, bind. rewrite store_run. reflexivity. Qed.

Lemma findOne_run q w :
  Subscription_findOne env q w
  = (Ok (find q (subscriptions w)), log_event (EvStore OpRead true) w).
Proof. unfold Subscription_findOne, bind. rewrite store_run. reflexivity. Qed.

Lemma countDocuments_run q w :
  Subscription_countDocuments env q w
  = (Ok (List.length (filter q (subscriptions w))),
     log_event (EvStore OpRead true) w).
Proof.
  unfold Subscription_countDocuments, bind. rewrite store_run. reflexivity.
Qed.

Lemma save_run doc w :
  save env doc w
  = (Ok tt, set_subscriptions (replace_sub doc)
              (log_event (EvStore (OpSubWrite (sub_id doc)) true) w)).
Proof. unfold save, bind. rewrite store_run. reflexivity. Qed.

Lemma Plan_find_active_run w :
  Plan_find_active env w
  = (Ok (filter plan_isActive (plans w)), log_event (EvStore OpRead true) w).
Proof. unfold Plan_find_active, bind. rewrite store_run. reflexivity. Qed.

Lemma User_findOne_run tid w :
  User_findOne env tid w
  = (Ok (find (by_telegramId tid) (users w)),
     log_event (EvStore OpRead true) w).
Proof. unfold User_findOne, bind. rewrite store_run. reflexivity. Qed.

Lemma User_findOneAndUpdate_run tid p w :
  User_findOneAndUpdate env tid p w
  = (Ok tt, set_users (update_first (by_telegramId tid) (apply_patch p))
              (log_event (EvStore (OpUserWrite tid p) true) w)).
Proof. unfold User_findOneAndUpdate, bind. rewrite store_run. reflexivity. Qed.

Lemma User_findByIdAndUpdate_run id p w :
  User_findByIdAndUpdate env id p w
  = (Ok tt, set_users (update_first (by_user_id id) (apply_patch p))
              (log_event (EvStore (OpUserWriteById id p) true) w)).
Proof. unfold User_findByIdAndUpdate, bind. rewrite store_run. reflexivity. Qed.

Lemma AdminLog_create_run e w :
  AdminLog_create env e w
  = (Ok tt, set_adminLogs (cons e) (log_event (EvStore OpLogWrite true) w)).
Proof. unfold AdminLog_create, bind. rewrite store_run. reflexivity. Qed.

Lemma startOfToday_run w :
  startOfToday env w
  = (Ok (setHours_0 (tzOffset env) (clock env (tick w))),
     log_event (EvNow (clock env (tick w))) w).
Proof. reflexivity. Qed.

Lemma graceEnter_succeeds c : succeeds (graceEnter env c).
Proof. succ. Qed.

Lemma graceStep_succeeds today c : succeeds (graceStep env today c).
Proof. succ. Qed.

Lemma graceStep_keeps_sub today sid s c :
  sub_id c <> sid ->
  preserves (keeps (holds_sub sid s)) (graceStep env today c).
Proof. intros Hne. pres; inv_side. Qed.

Lemma graceEnter_keeps_sub sid s c :
  sub_id c <> sid ->
  preserves (keeps (holds_sub sid s)) (graceEnter env c).
Proof. intros Hne. pres; inv_side. Qed.

(** The terminal branch, step by step. *)
Lemma graceRemove_spec w0 d s s0 w :
  holds_sub (sub_id s) s0 w -> since w0 w ->
  exists w', graceRemove env d s w = (Ok tt, w') /\ removed_post env w0 d s w'.
Proof.
  intros H0 Hs0. unfold graceRemove.
  destruct (succ_run (banFromGroup_succeeds env (Some (sub_id s)) (telegramId s)) w)
    as [ok [w1 E1]].
  rewrite (bind_run _ E1).
  rewrite (bind_run _ (save_run _ _)).
  rewrite (bind_run _ (User_findOneAndUpdate_run _ _ _)).
  destruct (banFromGroup_event env w0 (Some (sub_id s)) (telegramId s) w Hs0)
    as [ok' Hban].
  rewrite E1 in Hban. simpl in Hban.
  assert (H1 : holds_sub (sub_id s) s0 w1) by (through E1; exact H0).
  assert (Hs1 : since w0 w1) by (through E1; exact Hs0).
  match goal with
  | |- context [bind (safeSend env ?o ?t ?m) _ ?w3] =>
      assert (Hs3 : since w0 w3) by (repeat apply since_event; exact Hs1);
      destruct (succ_run (safeSend_succeeds env o t m) w3) as [sent [w4 E4]];
      destruct (safeSend_event env w0 o t m w3 Hs3) as [r [Hsend _]]
  end.
  rewrite (bind_run _ E4). rewrite E4 in Hsend. simpl in Hsend.
  match goal with
  | |- context [bind (logToChannel env ?m) _ _] =>
      destruct (succ_run (logToChannel_succeeds env m) w4) as [[] [w5 E5]]
  end.
  rewrite (bind_run _ E5). rewrite AdminLog_create_run.
  eexists. split; [reflexivity|].
  split; [|split; [|split; [|split; [|split]]]].
  - apply holds_sub_logs, holds_sub_event.
    through E5. through E4.
    apply holds_sub_users, holds_sub_event.
    apply (holds_sub_replace_self s0
             (set_graceDaysUsed (GRACE_DAYS env) (set_status S_expired s))).
    apply holds_sub_event. exact H1.
  - exists ok'. apply emitted_event. through E5. through E4.
    repeat apply emitted_event. exact Hban.
  - apply emitted_event. through E5. through E4.
    apply emitted_now. apply since_event. exact Hs1.
  - assert (Hu : user_removed (telegramId s) w5).
    { through E5. through E4.
      intros u Hu. cbn [users set_users log_event set_subscriptions] in Hu.
      rewrite find_update_first_self in Hu.
      destruct (find (by_telegramId (telegramId s)) (users w1)) as [u0|];
        simpl in Hu; [|discriminate].
      inversion Hu; subst. simpl. split; [reflexivity | left; reflexivity]. }
    exact Hu.
  - apply logged_now. apply since_event. through E5. through E4. exact Hs3.
  - exists r. apply emitted_event. through E5. exact Hsend.
Qed.

Lemma graceStep_keeps_post today w0 d s c :
  sub_id c <> sub_id s ->
  preserves (keeps (removed_post env w0 d s)) (graceStep env today c).
Proof. intros Hne. unfold removed_post. pres; inv_side. Qed.

(** The pass over the subscriptions in grace, seen from one that is overdue. *)
Lemma inGrace_pass_spec w0 today s w :
  holds_sub (sub_id s) s w -> since w0 w ->
  status s = S_grace ->
  GRACE_DAYS env <= daysSinceExpiry today s ->
  exists w',
    (inGrace <- Subscription_find env in_grace_query ;;
     forM_ inGrace (graceStep env today)) w = (Ok tt, w')
    /\ removed_post env w0 (daysSinceExpiry today s) s w'.
Proof.
  intros H0 Hs0 Hst Hd.
  rewrite (bind_run _ (find_run _ _)).
  set (wf := log_event (EvStore OpRead true) w).
  change (subscriptions w) with (subscriptions wf).
  assert (Hsf : since w0 wf) by (apply since_event; exact Hs0).
  apply (loop_focus (graceStep env today) in_grace_query s wf
                    (removed_post env w0 (daysSinceExpiry today s) s)).
  - exact H0.
  - unfold in_grace_query. rewrite Hst. reflexivity.
  - intros c. apply graceStep_succeeds.
  - intros c Hc. apply graceStep_keeps_sub. exact Hc.
  - intros w1 H1.
    assert (Est : graceStep env today s
                  = graceRemove env (daysSinceExpiry today s) s).
    { unfold graceStep. cbv zeta.
      destruct (Z.leb_spec (GRACE_DAYS env) (daysSinceExpiry today s));
        [reflexivity | lia]. }
    rewrite Est.
    destruct (graceRemove_spec w1 (daysSinceExpiry today s) s s w1 H1
                               (since_refl w1)) as [w2 [E2 _]].
    exists w2. split; [exact E2|]. intros Hs1.
    destruct (graceRemove_spec w0 (daysSinceExpiry today s) s s w1 H1
                               (since_trans w0 wf w1 Hsf Hs1)) as [w2' [E2' P]].
    rewrite E2 in E2'. inversion E2'. exact P.
  - intros c Hc. apply graceStep_keeps_post. exact Hc.
  - intros c. pres; inv_side.
Qed.

(** Entering grace, step by step. *)
Lemma graceEnter_spec w0 s s0 w :
  holds_sub (sub_id s) s0 w -> since w0 w ->
  exists w',
    graceEnter env s w = (Ok tt, w')
    /\ inv_and (holds_sub (sub_id s)
                  (set_graceDaysUsed 0 (set_status S_grace s)))
       (inv_and (emitted w0 (EvStore (OpUserWrite (telegramId s)
                                        (grace_started_patch env)) true))
                (inv_ex (fun r =>
                   emitted w0
                     (EvSendMessage (Some (sub_id s)) (telegramId s)
                        (MsgGraceStarted (expiryDate s) (GRACE_DAYS env)) r))))
       w'.
Proof.
  intros H0 Hs0. unfold graceEnter.
  rewrite (bind_run _ (save_run _ _)).
  rewrite (bind_run _ (User_findOneAndUpdate_run _ _ _)).
  rewrite (bind_run _ (Plan_find_active_run _)).
  match goal with
  | |- context [bind (safeSend env ?o ?t ?m) _ ?w3] =>
      assert (Hs3 : since w0 w3) by (repeat apply since_event; exact Hs0);
      destruct (succ_run (safeSend_succeeds env o t m) w3) as [sent [w4 E4]];
      destruct (safeSend_event env w0 o t m w3 Hs3) as [r [Hsend _]]
  end.
  rewrite (bind_run _ E4). rewrite E4 in Hsend. simpl in Hsend.
  match goal with
  | |- context [logToChannel env ?m ?w4] =>
      destruct (succ_run (logToChannel_succeeds env m) w4) as [[] [w5 E5]]
  end.
  exists w5. split; [exact E5|].
  split; [|split].
  - through E5. through E4.
    apply holds_sub_event, holds_sub_users, holds_sub_event.
    apply (holds_sub_replace_self s0
             (set_graceDaysUsed 0 (set_status S_grace s))).
    apply holds_sub_event. exact H0.
  - through E5. through E4. apply emitted_event.
    apply emitted_now. apply since_event. exact Hs0.
  - exists r. through E5. exact Hsend.
Qed.

Lemma graceEnter_keeps_since w0 c :
  preserves (keeps (since w0)) (graceEnter env c).
Proof. pres; inv_side. Qed.

Lemma gracePeriodHandler_split w w1 :
  grace_first_pass env w = (Ok tt, w1) ->
  gracePeriodHandler env w
  = (inGrace <- Subscription_find env in_grace_query ;;
     forM_ inGrace
           (graceStep env (setHours_0 (tzOffset env) (clock env (tick w))))) w1.
Proof.
  unfold grace_first_pass, gracePeriodHandler.
  rewrite !(bind_run _ (startOfToday_run w)).
  rewrite !(bind_run _ (find_run _ _)).
  intros E. rewrite (bind_run _ E).
  rewrite ?(bind_run _ (find_run _ _)). reflexivity.
Qed.

Lemma grace_first_pass_skips s w :
  holds_sub (sub_id s) s w -> status s <> S_active ->
  exists w1, grace_first_pass env w = (Ok tt, w1)
             /\ holds_sub (sub_id s) s w1 /\ since w w1.
Proof.
  intros H0 Hst. unfold grace_first_pass.
  rewrite (bind_run _ (startOfToday_run w)).
  rewrite (bind_run _ (find_run _ _)).
  match goal with
  | |- context [forM_ ?l (graceEnter env) ?wf] =>
      assert (S1 : succeeds (forM_ l (graceEnter env)))
        by (apply succ_forM_; intros c _; apply graceEnter_succeeds);
      destruct (succ_run S1 wf) as [[] [w1 E1]];
      exists w1; split; [exact E1|]; split
  end.
  - refine (keeps_run _ _ E1); [|exact H0].
    apply pres_forM_; [typeclasses eauto|]. intros c Hc.
    apply graceEnter_keeps_sub.
    refine (candidate_other (sub_id s) s _ _ c H0 _ Hc).
    unfold just_expired_query.
    destruct (status s); try reflexivity. contradiction.
  - refine (keeps_run _ _ E1);
      [|repeat apply since_event; apply since_refl].
    apply pres_forM_; [typeclasses eauto|]. intros c _.
    apply graceEnter_keeps_since.
Qed.

(** The grace job, seen from a subscription already in grace and overdue. *)
Lemma gracePeriodHandler_removes s w :
  holds_sub (sub_id s) s w ->
  status s = S_grace ->
  GRACE_DAYS env
  <= daysSinceExpiry (setHours_0 (tzOffset env) (clock env (tick w))) s ->
  exists w',
    gracePeriodHandler env w = (Ok tt, w')
    /\ removed_post env w
         (daysSinceExpiry (setHours_0 (tzOffset env) (clock env (tick w))) s)
         s w'.
Proof.
  intros H0 Hst Hd.
  destruct (grace_first_pass_skips s w H0) as [w1 [E1 [H1 Hs1]]];
    [rewrite Hst; discriminate|].
  rewrite (gracePeriodHandler_split w w1 E1).
  apply inGrace_pass_spec; assumption.
Qed.

(** The first pass, seen from an active subscription whose expiry is past. *)
Lemma grace_first_pass_enters s w :
  holds_sub (sub_id s) s w ->
  status s = S_active ->
  expiryDate s < setHours_0 (tzOffset env) (clock env (tick w)) ->
  exists w1, grace_first_pass env w = (Ok tt, w1) /\ entered_post env w s w1.
Proof.
  intros H0 Hst Hexp. unfold grace_first_pass.
  rewrite (bind_run _ (startOfToday_run w)).
  set (today := setHours_0 (tzOffset env) (clock env (tick w))) in *.
  rewrite (bind_run _ (find_run _ _)).
  match goal with
  | |- context [forM_ _ _ ?w2] => set (wf := w2)
  end.
  change (subscriptions (log_event (EvNow (clock env (tick w))) w))
    with (subscriptions wf).
  assert (Hsf : since w wf) by (repeat apply since_event; apply since_refl).
  apply (loop_focus (graceEnter env) (just_expired_query today) s wf
                    (entered_post env w s)).
  - exact H0.
  - unfold just_expired_query. rewrite Hst. simpl.
    apply Z.ltb_lt. exact Hexp.
  - intros c. apply graceEnter_succeeds.
  - intros c Hc. apply graceEnter_keeps_sub. exact Hc.
  - intros w1 H1.
    destruct (graceEnter_spec w1 s s w1 H1 (since_refl w1)) as [w2 [E2 _]].
    exists w2. split; [exact E2|]. intros Hs1.
    assert (Hs : since w w1) by (apply (since_trans w wf w1); assumption).
    destruct (graceEnter_spec w s s w1 H1 Hs) as [w2' [E2' P]].
    rewrite E2 in E2'. inversion E2'. subst w2'.
    split; [|exact P].
    refine (keeps_run (graceEnter_keeps_since w s) Hs E2).
  - intros c Hc. unfold entered_post. pres; inv_side.
  - intros c. apply graceEnter_keeps_since.
Qed.

End StoreOk.

Lemma emitted_in w0 ev w l :
  emitted w0 ev w -> trace w = l ++ trace w0 -> In ev l.
Proof.
  intros [l' [E H]] E'. rewrite E in E'. apply app_inv_tail in E'.
  subst l'. exact H.
Qed.

(** ** The claims *)

(** C1. A subscription in grace whose [daysSinceExpiry] has reached
    GRACE_PERIOD_DAYS goes through the terminal transition in one run of the
    grace job, when the store accepts the writes.  The job returns; during
    the run the group removal was called for the subscription, the store
    accepted the update {status: 'expired', graceDaysRemaining: 0} for its
    user and the removal notice was sent; the record ends with status
    'expired' and graceDaysUsed = GRACE_DAYS; the user ends with no grace
    days left and expired (blocked, if a delivery reported the bot blocked
    afterwards); the audit log gained the entry with reason
    'Grace period expired' and the overdue day count.  Any later run of the
    job, whatever the environment does, leaves the record as it is and makes
    no call (send, removal or write) for it. *)
Theorem grace_terminal_transition (env : Env) (w : World) (s : Subscription) :
  (forall t, store_fails env t = false) ->
  NoDup (map sub_id (subscriptions w)) ->
  In s (subscriptions w) ->
  status s = S_grace ->
  GRACE_DAYS env
  <= daysSinceExpiry (setHours_0 (tzOffset env) (clock env (tick w))) s ->
  exists w',
    gracePeriodHandler env w = (Ok tt, w')
    /\ (exists l,
          trace w' = l ++ trace w
          /\ (exists ok, In (EvBanChatMember (Some (sub_id s)) (telegramId s) ok) l)
          /\ In (EvStore (OpUserWrite (telegramId s)
                            (mkPatch (Some U_expired) None (Some (Some 0)) None))
                         true) l
          /\ (exists r, In (EvSendMessage (Some (sub_id s)) (telegramId s)
                                          MsgAccessRemoved r) l))
    /\ sub_by_id (sub_id s) (subscriptions w')
       = Some (set_graceDaysUsed (GRACE_DAYS env) (set_status S_expired s))
    /\ (forall u, find (by_telegramId (telegramId s)) (users w') = Some u ->
                  graceDaysRemaining u = Some 0
                  /\ (u_status u = U_expired \/ u_status u = U_blocked))
    /\ (exists l,
          adminLogs w' = l ++ adminLogs w
          /\ In (mkLog 0 ban_user (telegramId s)
                   (DReason "Grace period expired"
                      (Some (daysSinceExpiry
                               (setHours_0 (tzOffset env) (clock env (tick w)))
                               s)))) l)
    /\ forall env2,
         sub_by_id (sub_id s)
                   (subscriptions (snd (gracePeriodHandler env2 w')))
         = sub_by_id (sub_id s) (subscriptions w')
         /\ exists l,
              trace (snd (gracePeriodHandler env2 w')) = l ++ trace w'
              /\ Forall (fun ev => event_origin ev <> Some (sub_id s)) l.
Proof.
  intros Hok Hnd Hin Hst Hd.
  assert (H0 : holds_sub (sub_id s) s w).
  { split; [exact Hnd | apply In_sub_by_id; assumption]. }
  destruct (gracePeriodHandler_removes env Hok s w H0 Hst Hd)
    as [w' [E [P1 [[ok P2] [P3 [P4 [P5 [r P6]]]]]]]].
  exists w'. split; [exact E|].
  split.
  { destruct P3 as [l [El Hl]]. exists l. split; [exact El|].
    split; [exists ok; apply (emitted_in w _ w' l P2 El)|].
    split; [exact Hl|].
    exists r. apply (emitted_in w _ w' l P6 El). }
  split; [apply P1|]. split; [exact P4|]. split; [exact P5|].
  intros env2.
  assert (K : inv_and (holds_sub (sub_id s)
                         (set_graceDaysUsed (GRACE_DAYS env)
                                            (set_status S_expired s)))
                      (trace_new (not_for (sub_id s)) w')
                      (snd (gracePeriodHandler env2 w'))).
  { apply (gracePeriodHandler_skips_expired env2 (sub_id s) _ w'
             (eq_refl : status (set_graceDaysUsed _ (set_status S_expired s))
                        = S_expired)).
    split; [exact P1 | apply frame_refl]. }
  destruct K as [[_ K1] K2]. split.
  - rewrite K1. symmetry. apply P1.
  - exact K2.
Qed.

Lemma grace_terminal_transition_witness :
  exists w',
    gracePeriodHandler (calm_env 10) (world_of [sub_of 1 501 (DAY 5) S_grace])
    = (Ok tt, w')
    /\ sub_by_id 1 (subscriptions w')
       = Some (set_graceDaysUsed 3
                 (set_status S_expired (sub_of 1 501 (DAY 5) S_grace))).
Proof.
  destruct (grace_terminal_transition (calm_env 10)
              (world_of [sub_of 1 501 (DAY 5) S_grace])
              (sub_of 1 501 (DAY 5) S_grace))
    as [w' [E [_ [H _]]]].
  - intros t. reflexivity.
  - repeat constructor. simpl. intros [].
  - left. reflexivity.
  - reflexivity.
  - vm_compute. discriminate.
  - exists w'. split; [exact E | exact H].
Defined.

(** C10. A subscription still 'active' whose expiry is GRACE_PERIOD_DAYS or
    more days before today is taken through both transitions by a single run
    of the grace job (the store accepting the writes): the first pass ends in
    a world [w1] where the record is in grace with graceDaysUsed = 0 and the
    grace-started message has been sent; the second pass of the same run then
    calls the group removal, sends the removal notice and leaves the record
    'expired' with graceDaysUsed = GRACE_DAYS and the user with no grace days
    left.  Both messages go out in one run, the removal after the
    grace-started message. *)
Theorem overdue_active_removed_in_one_run (env : Env) (w : World)
  (s : Subscription) :
  (forall t, store_fails env t = false) ->
  NoDup (map sub_id (subscriptions w)) ->
  In s (subscriptions w) ->
  status s = S_active ->
  expiryDate s < setHours_0 (tzOffset env) (clock env (tick w)) ->
  GRACE_DAYS env
  <= daysSinceExpiry (setHours_0 (tzOffset env) (clock env (tick w))) s ->
  exists w1 w',
    grace_first_pass env w = (Ok tt, w1)
    /\ gracePeriodHandler env w = (Ok tt, w')
    /\ sub_by_id (sub_id s) (subscriptions w1)
       = Some (set_graceDaysUsed 0 (set_status S_grace s))
    /\ (exists l1,
          trace w1 = l1 ++ trace w
          /\ exists r, In (EvSendMessage (Some (sub_id s)) (telegramId s)
                             (MsgGraceStarted (expiryDate s) (GRACE_DAYS env))
                             r) l1)
    /\ (exists l2,
          trace w' = l2 ++ trace w1
          /\ (exists ok, In (EvBanChatMember (Some (sub_id s)) (telegramId s) ok) l2)
          /\ (exists r, In (EvSendMessage (Some (sub_id s)) (telegramId s)
                                          MsgAccessRemoved r) l2))
    /\ sub_by_id (sub_id s) (subscriptions w')
       = Some (set_graceDaysUsed (GRACE_DAYS env) (set_status S_expired s))
    /\ (forall u, find (by_telegramId (telegramId s)) (users w') = Some u ->
                  graceDaysRemaining u = Some 0
                  /\ (u_status u = U_expired \/ u_status u = U_blocked)).
Proof.
  intros Hok Hnd Hin Hst Hexp Hd.
  assert (H0 : holds_sub (sub_id s) s w).
  { split; [exact Hnd | apply In_sub_by_id; assumption]. }
  destruct (grace_first_pass_enters env Hok s w H0 Hst Hexp)
    as [w1 [E1 [Q0 [Q1 [Q2 [r1 Q3]]]]]].
  pose proof (gracePeriodHandler_split env Hok w w1 E1) as Esplit.
  destruct (inGrace_pass_spec env Hok w1
              (setHours_0 (tzOffset env) (clock env (tick w)))
              (set_graceDaysUsed 0 (set_status S_grace s)) w1
              Q1 (since_refl w1) eq_refl Hd)
    as [w' [E' [P1 [[ok P2] [P3 [P4 [P5 [r P6]]]]]]]].
  exists w1, w'. split; [exact E1|].
  split; [rewrite Esplit; exact E'|].
  split; [apply Q1|].
  split.
  { destruct Q3 as [l1 [El Hl]]. exists l1. split; [exact El|].
    exists r1. exact Hl. }
  split.
  { destruct P3 as [l2 [El _]]. exists l2. split; [exact El|].
    split; [exists ok; apply (emitted_in w1 _ w' l2 P2 El)|].
    exists r. apply (emitted_in w1 _ w' l2 P6 El). }
  split; [apply P1 | exact P4].
Qed.

Lemma overdue_active_removed_in_one_run_witness :
  exists w',
    gracePeriodHandler (calm_env 10) (world_of [sub_of 1 501 (DAY 5) S_active])
    = (Ok tt, w')
    /\ sub_by_id 1 (subscriptions w')
       = Some (set_graceDaysUsed 3
                 (set_status S_expired (sub_of 1 501 (DAY 5) S_active))).
Proof.
  destruct (overdue_active_removed_in_one_run (calm_env 10)
              (world_of [sub_of 1 501 (DAY 5) S_active])
              (sub_of 1 501 (DAY 5) S_active))
    as [w1 [w' [_ [E [_ [_ [_ [H _]]]]]]]].
  - intros t. reflexivity.
  - repeat constructor. simpl. intros [].
  - left. reflexivity.
  - reflexivity.
  - vm_compute. reflexivity.
  - vm_compute. discriminate.
  - exists w'. split; [exact E | exact H].
Defined.

(** C7, as stated, fails.  Two subscriptions are in grace and overdue; the
    store rejects the [save] of the first one.  Nothing in
    gracePeriodHandler catches the rejection, so the run ends there: the
    second subscription is still in grace and no call was made for it.  The
    statement refuted is the isolation the claim promises, for every
    environment. *)
Lemma grace_job_store_error_skips_the_rest :
  ~ (forall (env : Env) (w : World) (s : Subscription),
       NoDup (map sub_id (subscriptions w)) ->
       In s (subscriptions w) ->
       status s = S_grace ->
       GRACE_DAYS env
       <= daysSinceExpiry (setHours_0 (tzOffset env) (clock env (tick w))) s ->
       sub_by_id (sub_id s)
                 (subscriptions (snd (gracePeriodHandler env w)))
       = Some (set_graceDaysUsed (GRACE_DAYS env) (set_status S_expired s))).
Proof.
  intros H.
  specialize (H (store_rejects_at 4 10) two_in_grace
                (sub_of 2 502 (DAY 5) S_grace)).
  assert (K : sub_by_id 2
                (subscriptions
                   (snd (gracePeriodHandler (store_rejects_at 4 10)
                                            two_in_grace)))
              = Some (sub_of 2 502 (DAY 5) S_grace)) by (vm_compute; reflexivity).
  simpl sub_id in H. rewrite K in H.
  assert (E : Some (sub_of 2 502 (DAY 5) S_grace)
              = Some (set_graceDaysUsed (GRACE_DAYS (store_rejects_at 4 10))
                        (set_status S_expired (sub_of 2 502 (DAY 5) S_grace)))).
  { apply H.
    - repeat constructor; simpl; intuition discriminate.
    - right. left. reflexivity.
    - reflexivity.
    - vm_compute. discriminate. }
  vm_compute in E. discriminate E.
Qed.


(** What the run of the counterexample does: it throws the store's error,
    after the removal call for the first subscription and before any call
    for the second. *)
Example grace_job_store_error_run :
  fst (gracePeriodHandler (store_rejects_at 4 10) two_in_grace)
  = Throw MongoError
  /\ trace (snd (gracePeriodHandler (store_rejects_at 4 10) two_in_grace))
     = [EvStore (OpSubWrite 1) false; EvBanChatMember (Some 1%nat) 501 true;
        EvStore OpRead true; EvStore OpRead true; EvNow 896400000].
Proof. split; vm_compute; reflexivity. Qed.

(** C7, amended.  What the grace job isolates is Telegram: when the store
    accepts every operation, then whatever happens to the deliveries, the
    removals and the log-channel posts, the job returns and both loops have
    run the body of every candidate, in turn. *)
Theorem grace_job_isolates_telegram_failures (env : Env) (w : World) :
  (forall t, store_fails env t = false) ->
  gracePeriodHandler env w
  = let today := setHours_0 (tzOffset env) (clock env (tick w)) in
    let w0 := log_event (EvStore OpRead true)
                (log_event (EvNow (clock env (tick w))) w) in
    let w1 := exec_all (graceEnter env)
                (filter (just_expired_query today) (subscriptions w0)) w0 in
    let w2 := log_event (EvStore OpRead true) w1 in
    (Ok tt,
     exec_all (graceStep env today)
              (filter in_grace_query (subscriptions w2)) w2).
Proof.
  intros Hok. cbv zeta. unfold gracePeriodHandler.
  rewrite (bind_run _ (startOfToday_run env w)).
  rewrite (bind_run _ (find_run env Hok _ _)).
  rewrite (bind_run _ (forM_exec_all _ _ _
                         (fun c _ => graceEnter_succeeds env Hok c) _)).
  rewrite (bind_run _ (find_run env Hok _ _)).
  apply forM_exec_all. intros c _. apply graceStep_succeeds. exact Hok.
Qed.

Lemma grace_job_isolates_telegram_failures_witness :
  sub_by_id 2 (subscriptions
                 (snd (gracePeriodHandler (telegram_down 10) two_in_grace)))
  = Some (set_graceDaysUsed 3
            (set_status S_expired (sub_of 2 502 (DAY 5) S_grace))).
Proof.
  rewrite (grace_job_isolates_telegram_failures (telegram_down 10)
             two_in_grace (fun t => eq_refl)).
  vm_compute. reflexivity.
Defined.

(** C8. When Telegram answers a delivery with error code 403, safeSend
    returns [false] to its caller, whatever the store does.  When the store
    accepts the writes, the blocked-user procedure has set isBlocked = true
    and status = 'blocked' on the user found under that telegramId, written
    the audit entry (action ban_user, reason 'Bot blocked by user (403)') and
    posted the alert to the log channel (one attempt, outcome [r]); nothing
    else changed. *)
Theorem blocked_recipient_procedure (env : Env) (o : option nat) (tid : Z)
  (msg : Message) (w : World) :
  sendMessage_error env (tick w) tid = Some 403 ->
  fst (safeSend env o tid msg w) = Ok false
  /\ ((forall t, store_fails env t = false) ->
      exists r,
        snd (safeSend env o tid msg w)
        = mkWorld (subscriptions w)
            (update_first (by_telegramId tid)
               (apply_patch (mkPatch (Some U_blocked) (Some true) None None))
               (users w))
            (plans w)
            (mkLog 0 ban_user tid (DReason "Bot blocked by user (403)" None)
               :: adminLogs w)
            (chat w)
            (EvSendMessage None (LOG_CHANNEL_ID env) (LogBotBlocked tid) r
               :: EvStore OpLogWrite true
               :: EvStore (OpUserWrite tid blocked_patch) true
               :: EvSendMessage o tid msg (Some 403) :: trace w)
        /\ forall u,
             find (by_telegramId tid) (users w) = Some u ->
             exists u',
               find (by_telegramId tid)
                    (users (snd (safeSend env o tid msg w))) = Some u'
               /\ isBlocked u' = true /\ u_status u' = U_blocked).
Proof.
  intros H403. rewrite safeSend_run. cbv zeta. rewrite H403.
  split; [reflexivity|]. intros Hok.
  cbn [snd]. change (403 =? 403) with true. cbv iota.
  unfold handleBlockedUser, try_catch.
  rewrite (bind_run _ (User_findOneAndUpdate_run env Hok _ _ _)).
  rewrite (bind_run _ (AdminLog_create_run env Hok _ _)).
  unfold sendMessage. cbv zeta.
  match goal with
  | |- context [sendMessage_error env ?t ?c] =>
      exists (sendMessage_error env t c);
      destruct (sendMessage_error env t c)
  end.
  all: cbn [snd]; split; [reflexivity|].
  all: intros u Hu; unfold ret;
    cbn [users set_users set_adminLogs log_event snd];
    rewrite find_update_first_self, Hu;
    eexists; split; [reflexivity | split; reflexivity].
Qed.

Lemma blocked_recipient_procedure_witness :
  fst (safeSend bob_blocked_bot None 502 MsgFinalWarning (world_of []))
  = Ok false
  /\ exists u',
       find (by_telegramId 502)
            (users (snd (safeSend bob_blocked_bot None 502 MsgFinalWarning
                                  (world_of [])))) = Some u'
       /\ isBlocked u' = true /\ u_status u' = U_blocked.
Proof.
  destruct (blocked_recipient_procedure bob_blocked_bot None 502
              MsgFinalWarning (world_of []) eq_refl) as [H1 H2].
  split; [exact H1|].
  destruct (H2 (fun t => eq_refl)) as [r [_ H3]].
  apply (H3 bob). reflexivity.
Defined.

Lemma now_run env w :
  now env w = (Ok (clock env (tick w)), log_event (EvNow (clock env (tick w))) w).
Proof. reflexivity. Qed.

Lemma MS_PER_DAY_pos : 0 < MS_PER_DAY.
Proof. reflexivity. Qed.


Example renewal_with_negative_duration_shortens_run :
  option_map expiryDate
    (sub_by_id 1
       (subscriptions
          (snd (createSubscription (calm_env 10) 501 monthly_edited 900
                  (world_of [sub_of 1 501 (DAY 20) S_active])))))
  = Some (DAY (-10)).
Proof. vm_compute. reflexivity. Qed.



(** *** The referral awarder *)


Lemma find_update_first_key (k : User -> bool) q p l :
  (forall u, k (apply_patch p u) = k u) ->
  forall u, find k l = Some u ->
  exists u', find k (update_first q (apply_patch p) l) = Some u'
             /\ (u' = u \/ u' = apply_patch p u).
Proof.
  intros Hk. induction l as [|x l IH]; simpl; intros u Hu; [discriminate|].
  destruct (q x) eqn:Eq; simpl.
  - rewrite Hk. destruct (k x).
    + inversion Hu; subst. eexists. split; [reflexivity | right; reflexivity].
    + exists u. split; [exact Hu | left; reflexivity].
  - destruct (k x).
    + inversion Hu; subst. eexists. split; [reflexivity | left; reflexivity].
    + apply IH. exact Hu.
Qed.

(** No write of the engine clears the flag. *)
Lemma bonus_flag_patch uid q p :
  p_referralBonusApplied p <> Some false ->
  stable_modify (keeps (fun w => bonus_flag uid w = true))
                (set_users (update_first q (apply_patch p))).
Proof.
  intros Hp w H. unfold bonus_flag in *. cbn [users set_users].
  destruct (find (by_user_id uid) (users w)) as [u|] eqn:Eu; [|discriminate].
  destruct (find_update_first_key (by_user_id uid) q p (users w)
              (fun _ => eq_refl) u Eu) as [u' [E' [->| ->]]];
    rewrite E'; [exact H|].
  simpl. destruct (p_referralBonusApplied p) as [[|]|]; simpl;
    [reflexivity | congruence | exact H].
Qed.

Ltac flag_side :=
  first
    [ apply bonus_flag_patch; simpl; discriminate
    | solve [ unfold stable_event, stable_modify, keeps, bonus_flag;
              intros; simpl in *; eauto ] ].

Lemma approve_keeps_flag env tid plan admin uid :
  preserves (keeps (fun w => bonus_flag uid w = true))
            (approve env tid plan admin).
Proof. pres; flag_side. Qed.

Lemma approval_worlds_monotone rs uid :
  forall w, bonus_flag uid w = true ->
            Forall (fun w' => bonus_flag uid w' = true) (approval_worlds rs w).
Proof.
  induction rs as [|r rs IH]; intros w H; simpl.
  - constructor; [exact H | constructor].
  - constructor; [exact H|]. apply IH. apply approve_keeps_flag. exact H.
Qed.

Lemma rises_all_true l : Forall (fun b => b = true) l -> rises l = 0%nat.
Proof.
  induction l as [|a l IH]; intros H; [reflexivity|].
  inversion H as [|? ? Ha Hl]; subst.
  destruct l as [|b l']; [reflexivity|].
  change (rises (true :: b :: l')) with (0 + rises (b :: l'))%nat.
  rewrite IH by exact Hl. reflexivity.
Qed.

Lemma latched_rises l : latched l -> (rises l <= 1)%nat.
Proof.
  induction 1 as [|l Hl IH|l Hl].
  - simpl. lia.
  - destruct l as [|b l']; [simpl; lia|].
    change (rises (false :: b :: l'))
      with ((if b then 1 else 0) + rises (b :: l'))%nat.
    destruct b; [|lia].
    inversion Hl as [| |? Hall]; subst.
    assert (Hz : rises (true :: l') = 0%nat)
      by (apply rises_all_true; constructor; [reflexivity | exact Hall]).
    lia.
  - rewrite rises_all_true; [lia|]. constructor; [reflexivity | exact Hl].
Qed.

Lemma approval_flags_latched rs uid :
  forall w, latched (map (bonus_flag uid) (approval_worlds rs w)).
Proof.
  induction rs as [|r rs IH]; intros w.
  - simpl. destruct (bonus_flag uid w); repeat constructor.
  - cbn [approval_worlds map].
    destruct (bonus_flag uid w) eqn:Ew.
    + apply latched_true. apply Forall_map.
      apply approval_worlds_monotone. apply approve_keeps_flag. exact Ew.
    + apply latched_false. apply IH.
Qed.

Lemma find_update_by_id tid p l u :
  NoDup (map user_id l) ->
  find (by_telegramId tid) l = Some u ->
  find (by_telegramId tid)
       (update_first (by_user_id (user_id u)) (apply_patch p) l)
  = Some (apply_patch p u).
Proof.
  induction l as [|x l IH]; simpl; intros Hnd Hu; [discriminate|].
  inversion Hnd as [|? ? Hx Hl]; subst.
  destruct (by_telegramId tid x) eqn:Et.
  - inversion Hu; subst. unfold by_user_id at 1. rewrite Nat.eqb_refl.
    simpl. unfold by_telegramId in *. simpl. rewrite Et. reflexivity.
  - destruct (by_user_id (user_id u) x) eqn:Ei.
    + exfalso. apply Hx. apply Nat.eqb_eq in Ei. rewrite Ei.
      apply in_map. apply (find_some _ _ Hu).
    + simpl. rewrite Et. apply IH; assumption.
Qed.

Lemma Subscription_findByIdAndUpdate_run env id f w :
  (forall t, store_fails env t = false) ->
  Subscription_findByIdAndUpdate env id f w
  = (Ok tt, set_subscriptions (update_sub_by_id id f)
              (log_event (EvStore (OpSubWrite id) true) w)).
Proof.
  intros Hok. unfold Subscription_findByIdAndUpdate, bind.
  rewrite (store_run env Hok). reflexivity.
Qed.

(** The awarder once the referrer is found: whether or not the referrer has
    an active, unexpired subscription to extend, the flag is set on the
    referred user and the audit entry is written. *)
Lemma award_run env newUser referrer tid w :
  (forall t, store_fails env t = false) ->
  exists w',
    award env newUser referrer tid w = (Ok tt, w')
    /\ users w'
       = update_first (by_user_id (user_id newUser))
                      (apply_patch bonus_applied_patch) (users w)
    /\ adminLogs w' = referral_audit env referrer tid :: adminLogs w.
Proof.
  intros Hok. unfold award.
  rewrite (bind_run _ (now_run env _)).
  rewrite (bind_run _ (findOne_run env Hok _ _)).
  match goal with
  | |- context [find ?q ?l] => destruct (find q l) as [rs|]
  end.
  - unfold bind at 1.
    rewrite (bind_run _ (Subscription_findByIdAndUpdate_run env _ _ _ Hok)).
    unfold try_catch, sendMessage. cbv zeta.
    match goal with
    | |- context [sendMessage_error env ?t ?c] =>
        destruct (sendMessage_error env t c)
    end.
    all: unfold ret; cbv iota beta;
      rewrite (bind_run _ (User_findByIdAndUpdate_run env Hok _ _ _));
      rewrite AdminLog_create_run by exact Hok;
      eexists; split; [reflexivity | split; reflexivity].
  - unfold bind at 1; unfold ret at 1.
    rewrite (bind_run _ (User_findByIdAndUpdate_run env Hok _ _ _)).
    rewrite AdminLog_create_run by exact Hok.
    eexists. split; [reflexivity | split; reflexivity].
Qed.

(** C5. For an approved user whose referrer is on record, whose flag is
    still false and who passes the count check, the awarder (the store
    accepting the operations) sets referralBonusApplied = true on that user
    and writes the referral_bonus audit entry, in both branches: a referrer
    subscription found and extended, or none found.  And over any sequence
    of runs of the approval workflow, from any world and under any
    environment, the flag of any user goes from false to true at most
    once. *)
Theorem referral_flag_set_once (env : Env) (w : World) (tid r : Z)
  (u referrer : User) :
  (forall t, store_fails env t = false) ->
  NoDup (map user_id (users w)) ->
  find (by_telegramId tid) (users w) = Some u ->
  referredBy u = Some r -> r <> 0 ->
  referralBonusApplied u = false ->
  (counted tid w <= 1)%nat ->
  find (by_telegramId r) (users w) = Some referrer ->
  (fst (awardReferralBonus env tid w) = Ok tt
   /\ (exists u',
         find (by_telegramId tid) (users (snd (awardReferralBonus env tid w)))
         = Some u'
         /\ user_id u' = user_id u /\ referralBonusApplied u' = true)
   /\ adminLogs (snd (awardReferralBonus env tid w))
      = mkLog 0 referral_bonus (u_telegramId referrer)
              (DReferral tid (BONUS_DAYS env))
        :: adminLogs w)
  /\ forall (rs : list Approval) (uid : nat) (w0 : World),
       (rises (map (bonus_flag uid) (approval_worlds rs w0)) <= 1)%nat.
Proof.
  intros Hok Hnd Hu Hr Hr0 Hflag Hcount Href.
  split; [|intros rs uid w0; apply latched_rises, approval_flags_latched].
  unfold awardReferralBonus, try_catch.
  rewrite (bind_run _ (User_findOne_run env Hok _ _)).
  cbn [users log_event]. rewrite Hu, Hr, Hflag.
  destruct (Z.eqb_spec r 0) as [E0|_]; [contradiction|]. cbn [orb].
  rewrite (bind_run _ (countDocuments_run env Hok _ _)).
  cbn [subscriptions log_event]. fold (counted tid w).
  destruct (Nat.ltb_spec 1 (counted tid w)) as [Hc|_]; [lia|].
  rewrite (bind_run _ (User_findOne_run env Hok _ _)).
  cbn [users log_event]. rewrite Href.
  match goal with
  | |- context [award env u referrer tid ?w3] =>
      destruct (award_run env u referrer tid w3 Hok) as [w' [E [Eu El]]];
      rewrite E
  end.
  cbn [fst snd]. split; [reflexivity|]. split.
  - exists (apply_patch bonus_applied_patch u).
    rewrite Eu. cbn [users log_event].
    rewrite (find_update_by_id tid bonus_applied_patch (users w) u Hnd Hu).
    repeat split.
  - rewrite El. reflexivity.
Qed.

(** Bob's first subscription is approved; Alice, who referred him, has no
    subscription to extend. *)
Lemma referral_flag_set_once_witness :
  option_map referralBonusApplied
    (find (by_telegramId 502)
          (users (snd (awardReferralBonus (calm_env 10) 502
                         (world_of [sub_of 1 502 (DAY 40) S_active])))))
  = Some true.
Proof.
  destruct (referral_flag_set_once (calm_env 10)
              (world_of [sub_of 1 502 (DAY 40) S_active]) 502 501 bob alice)
    as [[_ [[u' [E [_ F]]] _]] _].
  - intros t. reflexivity.
  - repeat constructor; simpl; intuition discriminate.
  - reflexivity.
  - reflexivity.
  - discriminate.
  - reflexivity.
  - vm_compute. repeat constructor.
  - reflexivity.
  - rewrite E. simpl. rewrite F. reflexivity.
Defined.

(** *** The membership reconciler *)

Lemma monitored_refl w : monitored w w.
Proof. split; [reflexivity | intros x; left; reflexivity]. Qed.

Lemma map_idkey_ids l l' :
  map idkey l = map idkey l' -> map sub_id l = map sub_id l'.
Proof.
  intros H.
  assert (E : forall l0, map sub_id l0 = map (fun k => fst (fst k)) (map idkey l0)).
  { intros l0. rewrite map_map. reflexivity. }
  rewrite (E l), (E l'), H. reflexivity.
Qed.

Lemma terminal_b_idkey w w' x :
  map idkey (subscriptions w) = map idkey (subscriptions w') ->
  terminal_b w x = terminal_b w' x.
Proof.
  unfold terminal_b.
  assert (E : forall l,
             existsb (fun s => (telegramId s =? x) && monitor_expired_query s) l
             = existsb (fun k => (snd (fst k) =? x)
                                 && (SubStatus_eqb (snd k) S_expired
                                     || SubStatus_eqb (snd k) S_cancelled))
                       (map idkey l)).
  { induction l as [|s l IH]; simpl; [reflexivity|]. rewrite IH. reflexivity. }
  intros H. rewrite !E, H. reflexivity.
Qed.

Lemma idkey_unique l a b :
  NoDup (map sub_id l) -> In a l -> In (idkey b) (map idkey l) ->
  sub_id a = sub_id b -> idkey a = idkey b.
Proof.
  intros Hnd Ha Hb E. apply in_map_iff in Hb. destruct Hb as [b' [Eb Hb']].
  assert (a = b').
  { pose proof (In_sub_by_id Hnd Ha) as H1.
    pose proof (In_sub_by_id Hnd Hb') as H2.
    assert (sub_id b' = sub_id a).
    { unfold idkey in Eb. inversion Eb. congruence. }
    rewrite H in H2. congruence. }
  subst b'. exact Eb.
Qed.

Lemma map_idkey_replace doc l :
  NoDup (map sub_id l) -> In (idkey doc) (map idkey l) ->
  map idkey (replace_sub doc l) = map idkey l.
Proof.
  intros Hnd Hdoc. unfold replace_sub. rewrite map_map.
  apply map_ext_in. intros s Hs.
  destruct (Nat.eqb_spec (sub_id s) (sub_id doc)) as [E|E]; [|reflexivity].
  symmetry. apply (idkey_unique l s doc Hnd Hs Hdoc E).
Qed.

Lemma monitored_replace w0 doc :
  NoDup (map sub_id (subscriptions w0)) ->
  In (idkey doc) (map idkey (subscriptions w0)) ->
  stable_modify (keeps (monitored w0)) (set_subscriptions (replace_sub doc)).
Proof.
  intros Hnd Hdoc w [H1 H2]. split; [|exact H2]. cbn [subscriptions set_subscriptions].
  rewrite <- H1. apply map_idkey_replace.
  - rewrite (map_idkey_ids _ _ H1). exact Hnd.
  - rewrite H1. exact Hdoc.
Qed.

Ltac monitored_side :=
  first
    [ apply monitored_replace; assumption
    | solve [ unfold stable_event, stable_modify, keeps, monitored;
              intros; simpl in *; eauto ] ].

Lemma monitorActive_monitored env w0 c :
  NoDup (map sub_id (subscriptions w0)) ->
  In (idkey c) (map idkey (subscriptions w0)) ->
  preserves (keeps (monitored w0)) (monitorActive env c).
Proof. intros Hnd Hc. pres; monitored_side. Qed.

Lemma isGroupMember_run env tid w :
  isGroupMember env tid w
  = if getChatMember_fails env (tick w) tid
    then (Ok false, log_event (EvGetChatMember tid false) w)
    else (Ok (is_present (chat w tid)),
          log_event (EvGetChatMember tid true) w).
Proof.
  unfold isGroupMember, try_catch, bind, getChatMember.
  destruct (getChatMember_fails env (tick w) tid); reflexivity.
Qed.

Lemma banFromGroup_run env o tid w :
  banFromGroup env o tid w
  = if banChatMember_fails env (tick w) tid
    then (Ok false, log_event (EvBanChatMember o tid false) w)
    else (Ok true,
          set_chat (fun c x => if x =? tid then cm_kicked else c x)
                   (log_event (EvBanChatMember o tid true) w)).
Proof.
  unfold banFromGroup, try_catch, bind, banChatMember.
  destruct (banChatMember_fails env (tick w) tid); reflexivity.
Qed.

Lemma logToChannel_same env m w :
  subscriptions (snd (logToChannel env m w)) = subscriptions w
  /\ forall x, chat (snd (logToChannel env m w)) x = chat w x.
Proof.
  assert (Hs : preserves (rel_and subs_same chat_same) (logToChannel env m))
    by (pres; stab).
  apply Hs.
Qed.

(** One turn of the second loop: the group changes at most by the removal
    of the candidate, and only if the candidate was present. *)
Lemma monitorExpired_effect env c w :
  subscriptions (snd (monitorExpired env c w)) = subscriptions w
  /\ forall x,
       chat (snd (monitorExpired env c w)) x = chat w x
       \/ (x = telegramId c
           /\ chat (snd (monitorExpired env c w)) x = cm_kicked
           /\ is_present (chat w x) = true).
Proof.
  unfold monitorExpired.
  pose proof (isGroupMember_run env (telegramId c) w) as E1.
  destruct (getChatMember_fails env (tick w) (telegramId c)).
  { rewrite (bind_run _ E1). split; [reflexivity | intros x; left; reflexivity]. }
  rewrite (bind_run _ E1).
  destruct (is_present (chat w (telegramId c))) eqn:Ep;
    [|split; [reflexivity | intros x; left; reflexivity]].
  match goal with
  | |- context [bind (banFromGroup env ?o ?t) _ ?w1] =>
      pose proof (banFromGroup_run env o t w1) as E2;
      destruct (banChatMember_fails env (tick w1) t)
  end; rewrite (bind_run _ E2);
  match goal with
  | |- context [logToChannel env ?m ?w2] =>
      destruct (logToChannel_same env m w2) as [Hs1 Hs2]
  end.
  - split; [rewrite Hs1; reflexivity|].
    intros x. left. rewrite Hs2. reflexivity.
  - split; [rewrite Hs1; reflexivity|].
    intros x. rewrite Hs2. cbn [chat set_chat log_event].
    destruct (Z.eqb_spec x (telegramId c)) as [->|Hne];
      [right; repeat split; assumption | left; reflexivity].
Qed.

Lemma monitorExpired_monitored env w0 c :
  terminal_b w0 (telegramId c) = true ->
  preserves (keeps (monitored w0)) (monitorExpired env c).
Proof.
  intros Ht w [H1 H2].
  destruct (monitorExpired_effect env c w) as [Es Ec].
  split; [rewrite Es; exact H1|].
  intros x. destruct (Ec x) as [E|[-> [Ek Ep]]].
  - rewrite E. apply H2.
  - destruct (H2 (telegramId c)) as [E0|[E0 _]].
    + right. rewrite <- E0. repeat split; assumption.
    + rewrite E0 in Ep. discriminate Ep.
Qed.

Lemma candidate_terminal w0 wf c :
  map idkey (subscriptions wf) = map idkey (subscriptions w0) ->
  In c (filter monitor_expired_query (subscriptions wf)) ->
  terminal_b w0 (telegramId c) = true.
Proof.
  intros H Hc. rewrite <- (terminal_b_idkey wf w0 _ H).
  apply filter_In in Hc. destruct Hc as [Hin Hq].
  unfold terminal_b. apply existsb_exists. exists c. split; [exact Hin|].
  rewrite Z.eqb_refl. exact Hq.
Qed.

(** Every run of the reconciler, whatever fails in it, keeps [monitored]. *)
Lemma membershipMonitor_monitored env w0 :
  NoDup (map sub_id (subscriptions w0)) ->
  preserves (keeps (monitored w0)) (membershipMonitor env).
Proof.
  intros Hnd. unfold membershipMonitor.
  apply pres_bind; [typeclasses eauto | pres; monitored_side | intros t].
  apply keeps_find; [intros; monitored_side | intros wf [Hwf _]].
  apply pres_bind; [typeclasses eauto | | intros _].
  - apply pres_forM_; [typeclasses eauto|]. intros c Hc.
    apply monitorActive_monitored; [exact Hnd|].
    rewrite <- Hwf. apply in_map. apply filter_In in Hc. apply Hc.
  - apply keeps_find; [intros; monitored_side | intros wf2 [Hwf2 _]].
    apply pres_forM_; [typeclasses eauto|]. intros c Hc.
    apply monitorExpired_monitored.
    apply (candidate_terminal w0 wf2 c Hwf2 Hc).
Qed.

Lemma monitorExpired_succeeds env c : succeeds (monitorExpired env c).
Proof. succ. Qed.

Lemma monitorActive_succeeds env c :
  (forall t, store_fails env t = false) -> succeeds (monitorActive env c).
Proof. intros Hok. succ. Qed.

Lemma monitorExpired_keeps_absent env c x :
  preserves (keeps (fun w => is_present (chat w x) = false))
            (monitorExpired env c).
Proof.
  intros w H. destruct (monitorExpired_effect env c w) as [_ Ec].
  destruct (Ec x) as [E|[_ [E _]]]; rewrite E; [exact H | reflexivity].
Qed.

(** In a reliable run, a turn of the second loop leaves its candidate out. *)
Lemma monitorExpired_reliable env c w :
  reliable env ->
  is_present (chat (snd (monitorExpired env c w)) (telegramId c)) = false.
Proof.
  intros [_ [Hq Hb]]. unfold monitorExpired.
  pose proof (isGroupMember_run env (telegramId c) w) as E1.
  rewrite Hq in E1. rewrite (bind_run _ E1).
  destruct (is_present (chat w (telegramId c))) eqn:Ep; [|exact Ep].
  match goal with
  | |- context [bind (banFromGroup env ?o ?t) _ ?w1] =>
      pose proof (banFromGroup_run env o t w1) as E2
  end.
  rewrite Hb in E2. rewrite (bind_run _ E2).
  match goal with
  | |- context [logToChannel env ?m ?w2] =>
      destruct (logToChannel_same env m w2) as [_ Hs2]
  end.
  rewrite Hs2. cbn [chat set_chat log_event]. rewrite Z.eqb_refl. reflexivity.
Qed.

Lemma exec_all_keeps {A} (body : A -> M unit) (I : World -> Prop) l :
  (forall c, preserves (keeps I) (body c)) ->
  forall w, I w -> I (exec_all body l w).
Proof.
  intros H. induction l as [|a l IH]; intros w Hw; simpl; [exact Hw|].
  apply IH. apply H. exact Hw.
Qed.

Lemma second_loop_reliable env l :
  reliable env ->
  forall w c, In c l ->
    is_present (chat (exec_all (monitorExpired env) l w) (telegramId c))
    = false.
Proof.
  intros Hrel. induction l as [|a l IH]; intros w c Hc; [contradiction|].
  simpl. destruct Hc as [->|Hc]; [|apply IH; exact Hc].
  apply (exec_all_keeps (monitorExpired env)
           (fun w => is_present (chat w (telegramId c)) = false)).
  - intros c'. apply monitorExpired_keeps_absent.
  - apply monitorExpired_reliable. exact Hrel.
Qed.

Lemma membershipMonitor_reliable env w :
  reliable env ->
  NoDup (map sub_id (subscriptions w)) ->
  settled (snd (membershipMonitor env w)).
Proof.
  intros Hrel Hnd x Hx.
  pose proof (membershipMonitor_monitored env w Hnd w (monitored_refl w))
    as [Hk _].
  rewrite (terminal_b_idkey _ w x Hk) in Hx. clear Hk.
  destruct Hrel as [Hok Hrest]. unfold membershipMonitor.
  rewrite (bind_run _ (now_run env w)).
  rewrite (bind_run _ (find_run env Hok _ _)).
  match goal with
  | |- context [bind (forM_ ?l (monitorActive env)) _ ?wf] =>
      assert (S1 : succeeds (forM_ l (monitorActive env)))
        by (apply succ_forM_; intros c _; apply monitorActive_succeeds;
            exact Hok);
      destruct (succ_run S1 wf) as [[] [w1 E1]];
      assert (M0 : monitored w wf)
        by (split; [reflexivity | intros ?; left; reflexivity]);
      assert (M1 : monitored w w1)
  end.
  { refine (keeps_run _ M0 E1).
    apply pres_forM_; [typeclasses eauto|]. intros c Hc.
    apply monitorActive_monitored; [exact Hnd|].
    apply in_map. apply filter_In in Hc. apply Hc. }
  rewrite (bind_run _ E1).
  rewrite (bind_run _ (find_run env Hok _ _)).
  rewrite forM_exec_all by (intros c _; apply monitorExpired_succeeds).
  cbn [snd subscriptions log_event].
  destruct M1 as [M1 _].
  rewrite <- (terminal_b_idkey w1 w x M1) in Hx.
  unfold terminal_b in Hx. apply existsb_exists in Hx.
  destruct Hx as [c [Hc Hq]]. apply andb_true_iff in Hq.
  destruct Hq as [Et Hq]. apply Z.eqb_eq in Et. subst x.
  apply second_loop_reliable; [split; assumption|].
  apply filter_In. split; assumption.
Qed.

Lemma monitored_reconciled w0 w x :
  monitored w0 w -> reconciled w x = reconciled w0 x.
Proof.
  intros [H1 H2]. unfold reconciled.
  rewrite (terminal_b_idkey w w0 x H1).
  destruct (H2 x) as [E|[E [Et Ep]]].
  - rewrite E. reflexivity.
  - rewrite E, Et, Ep. simpl. destruct (terminal_b w0 x); reflexivity.
Qed.

Lemma settled_reconciled w x : settled w -> reconciled w x = chat w x.
Proof.
  intros H. unfold reconciled. destruct (terminal_b w x) eqn:Et; [|reflexivity].
  rewrite (H x Et). reflexivity.
Qed.

Lemma monitor_runs_app es1 es2 w :
  monitor_runs (es1 ++ es2) w = monitor_runs es2 (monitor_runs es1 w).
Proof.
  revert w. induction es1 as [|e es1 IH]; intros w; simpl;
    [reflexivity | apply IH].
Qed.

Lemma monitor_runs_monitored es w0 :
  NoDup (map sub_id (subscriptions w0)) ->
  forall w, monitored w0 w -> monitored w0 (monitor_runs es w).
Proof.
  intros Hnd. induction es as [|e es IH]; intros w H; simpl; [exact H|].
  apply IH. apply (membershipMonitor_monitored e w0 Hnd). exact H.
Qed.

Lemma settled_stays w0 w :
  settled w0 -> monitored w0 w -> forall x, chat w x = chat w0 x.
Proof.
  intros Hs [_ H2] x. destruct (H2 x) as [E|[_ [Et Ep]]]; [exact E|].
  rewrite (Hs x Et) in Ep. discriminate Ep.
Qed.

(** C6. From any starting state (with unique [_id]s), repeated runs of the
    reconciler converge to one state of the group, [reconciled w]: whatever
    runs came before, and whatever they failed to do, a run in which the
    store, the membership query and the removal work leaves exactly that
    group, and every further run, whatever the environment does to it,
    leaves the group as it is. *)
Theorem reconciler_converges (w : World) (e : Env) (es1 es2 : list Env) :
  NoDup (map sub_id (subscriptions w)) ->
  reliable e ->
  forall x, chat (monitor_runs (es1 ++ e :: es2) w) x = reconciled w x.
Proof.
  intros Hnd Hrel x.
  rewrite monitor_runs_app. cbn [monitor_runs].
  set (w1 := monitor_runs es1 w).
  assert (M1 : monitored w w1)
    by (apply monitor_runs_monitored; [exact Hnd | apply monitored_refl]).
  assert (Hnd1 : NoDup (map sub_id (subscriptions w1))).
  { destruct M1 as [M1 _]. rewrite (map_idkey_ids _ _ M1). exact Hnd. }
  set (w2 := snd (membershipMonitor e w1)).
  assert (M2 : monitored w1 w2)
    by (apply (membershipMonitor_monitored e w1 Hnd1); apply monitored_refl).
  assert (S2 : settled w2) by (apply membershipMonitor_reliable; assumption).
  assert (Hnd2 : NoDup (map sub_id (subscriptions w2))).
  { destruct M2 as [M2 _]. rewrite (map_idkey_ids _ _ M2). exact Hnd1. }
  rewrite (settled_stays w2 (monitor_runs es2 w2) S2
             (monitor_runs_monitored es2 w2 Hnd2 w2 (monitored_refl w2)) x).
  rewrite <- (settled_reconciled w2 x S2).
  rewrite (monitored_reconciled w1 w2 x M2).
  apply monitored_reconciled. exact M1.
Qed.

(** Alice's subscription has expired and she is still in the group; Telegram
    is down for the first run, works for the second, is down again. *)
Lemma reconciler_converges_witness :
  chat (monitor_runs [telegram_down 10; calm_env 11; telegram_down 12]
                     (world_of [sub_of 1 501 (DAY 5) S_expired])) 501
  = cm_kicked.
Proof.
  rewrite (reconciler_converges (world_of [sub_of 1 501 (DAY 5) S_expired])
             (calm_env 11) [telegram_down 10] [telegram_down 12]).
  - reflexivity.
  - repeat constructor. simpl. intros [].
  - repeat split.
Defined.

(** *** A state the engine reaches *)

Lemma alice_resubscribed_reachable : reachable alice_resubscribed.
Proof.
  unfold alice_resubscribed.
  apply reach_join. apply reach_approve.
  - apply reach_grace. apply reach_grace. apply reach_join.
    apply reach_approve; [apply reach_init | left; reflexivity].
  - vm_compute. left. reflexivity.
Qed.

(** C9. There is a reachable state in which the second pass of the
    reconciler removes a user who holds an active, unexpired subscription.
    Alice was removed after grace and approved again: the approval found no
    active or in-grace record and created a second one, next to the expired
    one, which stays in the collection.  She is in the group.  The run of the
    reconciler finds the expired record, finds her present, and bans her
    (the removal call carries the [_id] of the old record); her active
    subscription is untouched and still has 29 days to run. *)
Theorem monitor_removes_resubscribed_user :
  exists (w : World) (env : Env) (s old : Subscription),
    reachable w
    /\ In s (subscriptions w) /\ status s = S_active
    /\ (forall t, clock env t < expiryDate s)
    /\ is_present (chat w (telegramId s)) = true
    /\ In old (subscriptions w) /\ status old = S_expired
    /\ telegramId old = telegramId s
    /\ (exists l,
          trace (snd (membershipMonitor env w)) = l ++ trace w
          /\ In (EvBanChatMember (Some (sub_id old)) (telegramId s) true) l)
    /\ chat (snd (membershipMonitor env w)) (telegramId s) = cm_kicked
    /\ In s (subscriptions (snd (membershipMonitor env w))).
Proof.
  exists alice_resubscribed, (calm_env 41), alice_second, alice_first.
  split; [apply alice_resubscribed_reachable|].
  split; [vm_compute; right; left; reflexivity|].
  split; [reflexivity|].
  split; [intros t; vm_compute; reflexivity|].
  split; [vm_compute; reflexivity|].
  split; [vm_compute; left; reflexivity|].
  split; [reflexivity|].
  split; [reflexivity|].
  split.
  { exists (firstn 7 (trace (snd (membershipMonitor (calm_env 41)
                                                     alice_resubscribed)))).
    split; [vm_compute; reflexivity|].
    vm_compute. right. left. reflexivity. }
  split; [vm_compute; reflexivity|].
  vm_compute. right. left. reflexivity.
Qed.

(** *** The reminder job *)

Lemma get_set_flag flag v r : get_flag flag (set_flag flag v r) = v.
Proof. destruct flag; reflexivity. Qed.

Lemma setHours_0_le tz d : setHours_0 tz d <= d.
Proof.
  unfold setHours_0.
  pose proof (Z.mod_pos_bound (d + tz) MS_PER_DAY MS_PER_DAY_pos). lia.
Qed.

(** The day windows of two different offsets do not meet. *)
Lemma windows_disjoint tz tz' today j k e :
  j <> k ->
  addDays today k <= e <= setHours_end tz (addDays today k) ->
  (addDays today j <=? e) && (e <=? setHours_end tz' (addDays today j)) = false.
Proof.
  intros Hjk [H1 H2]. apply andb_false_iff.
  destruct (Z.leb_spec (addDays today j) e) as [H3|H3]; [|left; reflexivity].
  right. apply Z.leb_gt.
  pose proof (setHours_0_le tz (addDays today k)) as Hk.
  pose proof (setHours_0_le tz' (addDays today j)) as Hj.
  unfold setHours_end, addDays, MS_PER_DAY in *.
  assert (j < k \/ k < j) as [Hlt|Hlt] by lia; [lia|].
  exfalso. lia.
Qed.

Lemma checkpoint_flag k f f' :
  In (k, f) checkpoints -> In (k, f') checkpoints -> f = f'.
Proof.
  unfold checkpoints. simpl.
  intros [E|[E|[E|[E|[]]]]] [E'|[E'|[E'|[E'|[]]]]];
    inversion E; subst; inversion E'; reflexivity.
Qed.

Lemma checkpoints_split cp :
  In cp checkpoints ->
  exists l1 l2,
    checkpoints = l1 ++ cp :: l2
    /\ forall cp', In cp' l1 \/ In cp' l2 ->
                   In cp' checkpoints /\ fst cp' <> fst cp.
Proof.
  unfold checkpoints. simpl. intros [E|[E|[E|[E|[]]]]]; subst cp.
  - exists [], [(3, F_day3); (1, F_day1); (0, F_day0)].
    split; [reflexivity|]. simpl.
    intros cp' [[]|[E|[E|[E|[]]]]]; subst cp'; simpl; split; auto; lia.
  - exists [(7, F_day7)], [(1, F_day1); (0, F_day0)].
    split; [reflexivity|]. simpl.
    intros cp' [[E|[]]|[E|[E|[]]]]; subst cp'; simpl; split; auto; lia.
  - exists [(7, F_day7); (3, F_day3)], [(0, F_day0)].
    split; [reflexivity|]. simpl.
    intros cp' [[E|[E|[]]]|[E|[]]]; subst cp'; simpl; split; auto 6; lia.
  - exists [(7, F_day7); (3, F_day3); (1, F_day1)], [].
    split; [reflexivity|]. simpl.
    intros cp' [[E|[E|[E|[]]]]|[]]; subst cp'; simpl; split; auto 6; lia.
Qed.

Lemma reminderBody_succeeds env k f c :
  (forall t, store_fails env t = false) -> succeeds (reminderBody env k f c).
Proof. intros Hok. succ. Qed.

Lemma reminderCheckpoint_succeeds env cp :
  (forall t, store_fails env t = false) -> succeeds (reminderCheckpoint env cp).
Proof. intros Hok. succ. Qed.

(** A checkpoint whose query does not select the watched record leaves it
    alone, and keeps whatever the turns of the other records keep. *)
Lemma reminderCheckpoint_skips env today sid P (I : World -> Prop) cp :
  (forall t, setHours_0 (tzOffset env) (clock env t) = today) ->
  (forall cur, P cur ->
     reminder_query (addDays today (fst cp))
                    (setHours_end (tzOffset env) (addDays today (fst cp)))
                    (snd cp) cur = false) ->
  (forall t, stable_event (keeps I) (EvNow t)) ->
  (forall ok, stable_event (keeps I) (EvStore OpRead ok)) ->
  (forall c, sub_id c <> sid ->
             preserves (keeps I) (reminderBody env (fst cp) (snd cp) c)) ->
  preserves (keeps (inv_and (watching sid P) I)) (reminderCheckpoint env cp).
Proof.
  intros Hday Hsel HI1 HI2 HI3 w Hw. unfold reminderCheckpoint.
  rewrite (bind_run _ (startOfToday_run env w)). rewrite Hday.
  match goal with
  | |- inv_and _ _ (snd (?m ?w1)) =>
      assert (Hm : preserves (keeps (inv_and (watching sid P) I)) m);
      [|apply Hm; destruct Hw as [Hw1 Hw2]; split;
        [exact Hw1 | apply HI1; exact Hw2]]
  end.
  apply keeps_find.
  - intros ok. apply keeps_and_event; [|apply HI2].
    unfold watching. inv_side.
  - intros wf [[cur [Hcur Pcur]] _].
    apply pres_forM_; [typeclasses eauto|]. intros c Hc.
    assert (Hne : sub_id c <> sid).
    { refine (candidate_other sid cur _ wf c Hcur _ Hc).
      apply Hsel. exact Pcur. }
    assert (HW : preserves (keeps (watching sid P))
                           (reminderBody env (fst cp) (snd cp) c))
      by (unfold watching; pres; inv_side).
    intros w1 [W1 W2]. split; [apply HW | apply HI3]; assumption.
Qed.

Section ReminderStoreOk.

Variable env : Env.
Hypothesis store_ok : forall t, store_fails env t = false.

(** One turn of the loop on [s]: the reminder is attempted, and the flag is
    saved exactly when it was delivered. *)
Lemma reminderBody_spec w0 k flag s w :
  holds_sub (sub_id s) s w -> since w0 w ->
  exists r w',
    reminderBody env k flag s w = (Ok tt, w')
    /\ emitted w0 (EvSendMessage (Some (sub_id s)) (telegramId s)
                                 (MsgReminder k (expiryDate s)) r) w'
    /\ holds_sub (sub_id s) (reminded flag r s) w'.
Proof.
  intros H0 Hs0. unfold reminderBody.
  match goal with
  | |- context [bind (safeSend env ?o ?t ?m) _ _] =>
      destruct (safeSend_event env w0 o t m w Hs0) as [r [Hsend Hres]];
      destruct (safeSend env o t m w) as [res w1] eqn:E1
  end.
  cbn [fst snd] in *. subst res. rewrite (bind_run _ E1).
  assert (H1 : holds_sub (sub_id s) s w1) by (through E1; exact H0).
  exists r. destruct r as [code|]; cbv iota.
  - exists w1. split; [reflexivity|]. split; [exact Hsend | exact H1].
  - rewrite save_run by exact store_ok. eexists. split; [reflexivity|].
    split.
    + apply emitted_event. exact Hsend.
    + apply (holds_sub_replace_self s
               (set_reminderFlags (set_flag flag true (reminderFlags s)) s)).
      apply holds_sub_event. exact H1.
Qed.

Lemma reminderBody_keeps_since w0 k f c :
  preserves (keeps (since w0)) (reminderBody env k f c).
Proof. pres; inv_side. Qed.

Lemma reminderCheckpoint_spec w0 today k flag s w :
  (forall t, setHours_0 (tzOffset env) (clock env t) = today) ->
  holds_sub (sub_id s) s w -> since w0 w ->
  status s = S_active ->
  addDays today k <= expiryDate s
  <= setHours_end (tzOffset env) (addDays today k) ->
  get_flag flag (reminderFlags s) = false ->
  exists w',
    reminderCheckpoint env (k, flag) w = (Ok tt, w')
    /\ remind_post env w0 k flag s w'.
Proof.
  intros Hday H0 Hs0 Hst [Hlo Hhi] Hflag. unfold reminderCheckpoint.
  rewrite (bind_run _ (startOfToday_run env w)). rewrite Hday.
  cbn [fst snd].
  rewrite (bind_run _ (find_run env store_ok _ _)).
  match goal with
  | |- context [forM_ _ _ ?w2] => set (wf := w2)
  end.
  change (subscriptions (log_event (EvNow (clock env (tick w))) w))
    with (subscriptions wf).
  assert (Hsf : since w0 wf) by (repeat apply since_event; exact Hs0).
  apply (loop_focus (reminderBody env k flag)
           (reminder_query (addDays today k)
              (setHours_end (tzOffset env) (addDays today k)) flag)
           s wf (remind_post env w0 k flag s)).
  - exact H0.
  - unfold reminder_query.
    rewrite Hst, Hflag, (proj2 (Z.leb_le _ _) Hlo), (proj2 (Z.leb_le _ _) Hhi).
    reflexivity.
  - intros c. apply reminderBody_succeeds. exact store_ok.
  - intros c Hc. pres; inv_side.
  - intros w1 H1.
    destruct (reminderBody_spec w1 k flag s w1 H1 (since_refl w1))
      as [r0 [w2 [E2 _]]].
    exists w2. split; [exact E2|]. intros Hs1.
    destruct (reminderBody_spec w0 k flag s w1 H1
                (since_trans w0 wf w1 Hsf Hs1)) as [r [w2' [E2' [P1 P2]]]].
    rewrite E2 in E2'. inversion E2'. subst w2'.
    exists r. split; assumption.
  - intros c Hc. unfold remind_post. pres; inv_side.
  - intros c. apply reminderBody_keeps_since.
Qed.

(** A checkpoint of another offset does not select a record whose expiry
    lies in the window of offset [k]. *)
Lemma other_offset_unselected tz tz' today k cp s :
  fst cp <> k ->
  addDays today k <= expiryDate s <= setHours_end tz (addDays today k) ->
  reminder_query (addDays today (fst cp))
                 (setHours_end tz' (addDays today (fst cp))) (snd cp) s
  = false.
Proof.
  intros Hne Hwin. unfold reminder_query.
  rewrite <- !andb_assoc.
  rewrite (andb_assoc (addDays today (fst cp) <=? expiryDate s)).
  rewrite (windows_disjoint tz tz' today (fst cp) k (expiryDate s) Hne Hwin).
  simpl. apply andb_false_r.
Qed.

Lemma reminderScheduler_spec today k flag s w :
  (forall t, setHours_0 (tzOffset env) (clock env t) = today) ->
  holds_sub (sub_id s) s w ->
  status s = S_active ->
  In (k, flag) checkpoints ->
  addDays today k <= expiryDate s
  <= setHours_end (tzOffset env) (addDays today k) ->
  get_flag flag (reminderFlags s) = false ->
  exists r w',
    reminderScheduler env w = (Ok tt, w')
    /\ emitted w (EvSendMessage (Some (sub_id s)) (telegramId s)
                                (MsgReminder k (expiryDate s)) r) w'
    /\ holds_sub (sub_id s) (reminded flag r s) w'.
Proof.
  intros Hday H0 Hst Hin Hwin Hflag. unfold reminderScheduler.
  rewrite (bind_run _ (Plan_find_active_run env store_ok w)).
  set (wa := log_event (EvStore OpRead true) w).
  destruct (checkpoints_split (k, flag) Hin) as [l1 [l2 [El Hothers]]].
  rewrite El, forM_app.
  assert (S1 : succeeds (forM_ l1 (reminderCheckpoint env)))
    by (apply succ_forM_; intros c _; apply reminderCheckpoint_succeeds;
        exact store_ok).
  destruct (succ_run S1 wa) as [[] [w1 E1]].
  rewrite (bind_run _ E1). simpl forM_.
  assert (I1 : inv_and (watching (sub_id s) (eq s)) (since w) w1).
  { refine (keeps_run _ _ E1).
    - apply pres_forM_; [typeclasses eauto|]. intros cp Hcp.
      apply (reminderCheckpoint_skips env today).
      + exact Hday.
      + intros cur <-.
        apply (other_offset_unselected (tzOffset env) (tzOffset env) today k).
        * apply (Hothers cp). left. exact Hcp.
        * exact Hwin.
      + intros t. apply since_event.
      + intros ok. apply since_event.
      + intros c _. apply reminderBody_keeps_since.
    - split.
      + exists s. split; [exact H0 | reflexivity].
      + apply since_event. apply since_refl. }
  destruct I1 as [[cur [H1 <-]] Hs1].
  destruct (reminderCheckpoint_spec w today k flag s w1 Hday H1 Hs1 Hst Hwin
                                    Hflag) as [w2 [E2 [r [P1 P2]]]].
  rewrite (bind_run _ E2).
  assert (S3 : succeeds (forM_ l2 (reminderCheckpoint env)))
    by (apply succ_forM_; intros c _; apply reminderCheckpoint_succeeds;
        exact store_ok).
  destruct (succ_run S3 w2) as [[] [w3 E3]].
  exists r, w3. split; [exact E3|].
  assert (I3 : inv_and (watching (sub_id s) (eq (reminded flag r s)))
                 (emitted w (EvSendMessage (Some (sub_id s)) (telegramId s)
                                           (MsgReminder k (expiryDate s)) r))
                 w3).
  { refine (keeps_run _ _ E3).
    - apply pres_forM_; [typeclasses eauto|]. intros cp Hcp.
      apply (reminderCheckpoint_skips env today).
      + exact Hday.
      + intros cur <-.
        apply (other_offset_unselected (tzOffset env) (tzOffset env) today k).
        * apply (Hothers cp). right. exact Hcp.
        * destruct r; exact Hwin.
      + intros t. apply emitted_event.
      + intros ok. apply emitted_event.
      + intros c _. pres; inv_side.
    - split; [|exact P1].
      exists (reminded flag r s). split; [exact P2 | reflexivity]. }
  destruct I3 as [[cur [H3 <-]] P3]. split; assumption.
Qed.

End ReminderStoreOk.

(** Once the flag is set, no checkpoint of a run on the same day selects the
    record: the run leaves it alone and makes no call for it. *)
Lemma reminderScheduler_skips_reminded env tz today k flag s w0 :
  (forall t, setHours_0 (tzOffset env) (clock env t) = today) ->
  In (k, flag) checkpoints ->
  addDays today k <= expiryDate s <= setHours_end tz (addDays today k) ->
  preserves
    (keeps (inv_and (watching (sub_id s) (eq (reminded flag None s)))
                    (trace_new (not_for (sub_id s)) w0)))
    (reminderScheduler env).
Proof.
  intros Hday Hin Hwin. unfold reminderScheduler.
  apply pres_bind; [typeclasses eauto | unfold watching; pres; inv_side|].
  intros _. apply pres_forM_; [typeclasses eauto|]. intros cp Hcp.
  apply (reminderCheckpoint_skips env today).
  - exact Hday.
  - intros cur <-.
    destruct (Z.eq_dec (fst cp) k) as [E|E].
    + destruct cp as [k' f']. simpl in E. subst k'.
      rewrite (checkpoint_flag k f' flag Hcp Hin).
      unfold reminder_query, reminded. cbn [reminderFlags set_reminderFlags snd].
      rewrite get_set_flag. apply andb_false_r.
    + apply (other_offset_unselected tz (tzOffset env) today k);
        [exact E | exact Hwin].
  - intros t. apply keeps_trace_new. unfold not_for. simpl. discriminate.
  - intros ok. apply keeps_trace_new. unfold not_for. simpl. discriminate.
  - intros c Hc. pres; inv_side.
Qed.

(** C3. An active subscription whose expiry lies in the day window of a
    checkpoint (offset [k] days ahead of today) and whose flag for that
    checkpoint is false gets its reminder attempted in a run of the reminder
    job (the store accepting the operations, the run staying within the
    day).  [r] is Telegram's answer to that attempt: [None] for delivered,
    [Some 403] for an unreachable recipient, any other code for a transient
    failure.  The record ends the run with the flag set exactly when the
    reminder was delivered, and unchanged, flag false, on either failure.
    After a delivery, a second run on the same day, whatever the environment
    does to it, makes no call (send or write) for that subscription. *)
Theorem reminder_flag_latch (env : Env) (today : Z) (w : World)
  (s : Subscription) (k : Z) (flag : Flag) :
  (forall t, store_fails env t = false) ->
  (forall t, setHours_0 (tzOffset env) (clock env t) = today) ->
  NoDup (map sub_id (subscriptions w)) ->
  In s (subscriptions w) ->
  status s = S_active ->
  In (k, flag) checkpoints ->
  addDays today k <= expiryDate s
  <= setHours_end (tzOffset env) (addDays today k) ->
  get_flag flag (reminderFlags s) = false ->
  exists r w',
    reminderScheduler env w = (Ok tt, w')
    /\ (exists l,
          trace w' = l ++ trace w
          /\ In (EvSendMessage (Some (sub_id s)) (telegramId s)
                               (MsgReminder k (expiryDate s)) r) l)
    /\ (exists s',
          sub_by_id (sub_id s) (subscriptions w') = Some s'
          /\ s' = match r with
                  | None =>
                      set_reminderFlags
                        (set_flag flag true (reminderFlags s)) s
                  | Some _ => s
                  end
          /\ (get_flag flag (reminderFlags s') = true <-> r = None))
    /\ (r = None ->
        forall env2,
          (forall t, setHours_0 (tzOffset env2) (clock env2 t) = today) ->
          exists l2,
            trace (snd (reminderScheduler env2 w')) = l2 ++ trace w'
            /\ Forall (fun ev => event_origin ev <> Some (sub_id s)) l2).
Proof.
  intros Hok Hday Hnd Hin Hst Hcp Hwin Hflag.
  assert (H0 : holds_sub (sub_id s) s w).
  { split; [exact Hnd | apply In_sub_by_id; assumption]. }
  destruct (reminderScheduler_spec env Hok today k flag s w Hday H0 Hst Hcp
                                   Hwin Hflag) as [r [w' [E [P1 P2]]]].
  exists r, w'. split; [exact E|]. split; [exact P1|]. split.
  { exists (reminded flag r s). split; [apply P2|]. split; [reflexivity|].
    destruct r as [code|]; simpl.
    - rewrite Hflag. split; discriminate.
    - rewrite get_set_flag. split; reflexivity. }
  intros -> env2 Hday2.
  assert (K : inv_and (watching (sub_id s) (eq (reminded flag None s)))
                      (trace_new (not_for (sub_id s)) w')
                      (snd (reminderScheduler env2 w'))).
  { apply (reminderScheduler_skips_reminded env2 (tzOffset env) today k flag
             s w' Hday2 Hcp Hwin).
    split; [|apply frame_refl].
    exists (reminded flag None s). split; [exact P2 | reflexivity]. }
  destruct K as [_ K]. exact K.
Qed.

(** Day 10, a subscription that expires in the morning of day 17, every
    delivery accepted. *)
Lemma reminder_flag_latch_witness :
  exists w',
    reminderScheduler (calm_env 10)
                      (world_of [sub_of 1 501 (DAY 17 + 3600000) S_active])
    = (Ok tt, w')
    /\ option_map (fun s => day7 (reminderFlags s))
                  (sub_by_id 1 (subscriptions w'))
       = Some true.
Proof.
  destruct (reminder_flag_latch (calm_env 10) (DAY 10)
              (world_of [sub_of 1 501 (DAY 17 + 3600000) S_active])
              (sub_of 1 501 (DAY 17 + 3600000) S_active) 7 F_day7)
    as [r [w' [E [_ [_ _]]]]].
  - intros t. reflexivity.
  - intros t. vm_compute. reflexivity.
  - repeat constructor. simpl. intros [].
  - left. reflexivity.
  - reflexivity.
  - left. reflexivity.
  - split; vm_compute; discriminate.
  - reflexivity.
  - exists w'. split; [exact E|].
    vm_compute in E. inversion E. vm_compute. reflexivity.
Defined.

(** ** Further properties of the engine and its services *)

Lemma Forall2_same {X} (R : X -> X -> Prop) l :
  (forall x, In x l -> R x x) -> Forall2 R l l.
Proof.
  induction l as [|x l IH]; intros H; constructor.
  - apply H. left. reflexivity.
  - apply IH. intros y Hy. apply H. right. exact Hy.
Qed.

Lemma Forall2_chain {X} (R1 R2 R3 : X -> X -> Prop) l1 :
  forall l2 l3,
    (forall a b c, In a l1 -> R1 a b -> R2 b c -> R3 a c) ->
    Forall2 R1 l1 l2 -> Forall2 R2 l2 l3 -> Forall2 R3 l1 l3.
Proof.
  induction l1 as [|a l1 IH]; intros l2 l3 H H1 H2.
  - inversion H1; subst. inversion H2; subst. constructor.
  - inversion H1 as [|? b ? l2' Hab H1']; subst.
    inversion H2 as [|? c ? l3' Hbc H2']; subst.
    constructor.
    + apply (H a b c); [left; reflexivity | assumption | assumption].
    + apply (IH l2' l3'); [|assumption|assumption].
      intros x y z Hx. apply H. right. exact Hx.
Qed.

Lemma Forall2_weaken {X} (R1 R2 : X -> X -> Prop) l1 :
  forall l2,
    (forall a b, In a l1 -> R1 a b -> R2 a b) ->
    Forall2 R1 l1 l2 -> Forall2 R2 l1 l2.
Proof.
  induction l1 as [|a l1 IH]; intros l2 H H1.
  - inversion H1; subst. constructor.
  - inversion H1 as [|? b ? l2' Hab H1']; subst. constructor.
    + apply H; [left; reflexivity | exact Hab].
    + apply IH; [|exact H1']. intros x y Hx. apply H. right. exact Hx.
Qed.

Lemma Forall2_image {X} (R : X -> X -> Prop) l1 :
  forall l2 a, Forall2 R l1 l2 -> In a l1 -> exists b, In b l2 /\ R a b.
Proof.
  induction l1 as [|x l1 IH]; intros l2 a H Ha; [contradiction|].
  inversion H as [|? y ? l2' Hxy H']; subst.
  destruct Ha as [->|Ha].
  - exists y. split; [left; reflexivity | exact Hxy].
  - destruct (IH l2' a H' Ha) as [b [Hb Rb]].
    exists b. split; [right; exact Hb | exact Rb].
Qed.

Lemma Forall2_preimage {X} (R : X -> X -> Prop) l1 :
  forall l2 b, Forall2 R l1 l2 -> In b l2 -> exists a, In a l1 /\ R a b.
Proof.
  induction l1 as [|x l1 IH]; intros l2 b H Hb.
  - inversion H; subst. contradiction.
  - inversion H as [|? y ? l2' Hxy H']; subst.
    destruct Hb as [->|Hb].
    + exists x. split; [left; reflexivity | exact Hxy].
    + destruct (IH l2' b H' Hb) as [a [Ha Ra]].
      exists a. split; [right; exact Ha | exact Ra].
Qed.

Lemma Forall2_map_eq {X Y} (f : X -> Y) (R : X -> X -> Prop) l1 :
  forall l2, (forall a b, R a b -> f b = f a) ->
             Forall2 R l1 l2 -> map f l2 = map f l1.
Proof.
  induction l1 as [|x l1 IH]; intros l2 H H1.
  - inversion H1; subst. reflexivity.
  - inversion H1 as [|? y ? l2' Hxy H1']; subst. simpl.
    rewrite (H x y Hxy), (IH l2' H H1'). reflexivity.
Qed.

#[export] Instance Frame_rewrites sid A0 : Frame (rewrites sid A0).
Proof.
  split; unfold rewrites.
  - intros w. apply Forall2_same. intros x _. left. reflexivity.
  - intros a b c H1 H2.
    refine (Forall2_chain _ _ _ _ _ _ _ H1 H2).
    intros x y z _ [->|[E1 [E2 P]]] [->|[E3 [E4 Q]]].
    + left. reflexivity.
    + right. auto.
    + right. auto.
    + right. auto.
Qed.

Lemma rewrites_ids sid A0 w w' :
  rewrites sid A0 w w' ->
  map sub_id (subscriptions w') = map sub_id (subscriptions w).
Proof.
  apply Forall2_map_eq. intros a b [->|[E1 [E2 _]]]; congruence.
Qed.

Lemma rewrites_replace sid (A0 : Subscription -> Prop) doc :
  sub_id doc = sid -> A0 doc ->
  stable_modify (rewrites sid A0) (set_subscriptions (replace_sub doc)).
Proof.
  intros E P w. unfold rewrites. cbn [subscriptions set_subscriptions].
  unfold replace_sub. induction (subscriptions w) as [|s l IH]; simpl;
    constructor; [|exact IH].
  destruct (Nat.eqb_spec (sub_id s) (sub_id doc)) as [E'|E'].
  - right. repeat split; congruence.
  - left. reflexivity.
Qed.

Lemma rewrites_same sid A0 w w' :
  subscriptions w' = subscriptions w -> rewrites sid A0 w w'.
Proof.
  intros E. unfold rewrites. rewrite E.
  apply Forall2_same. intros x _. left. reflexivity.
Qed.

Section Sweeps.

Context (A : Subscription -> Subscription -> Prop) {DA : DocOrder A}.

Lemma lifted_refl w : lifted A w w.
Proof. apply Forall2_same. intros x _. apply doc_refl. Qed.

Lemma lifted_trans a b c : lifted A a b -> lifted A b c -> lifted A a c.
Proof.
  intros H1 H2. refine (Forall2_chain _ _ _ _ _ _ _ H1 H2).
  intros x y z _. apply doc_trans.
Qed.

Lemma lifted_ids w w' :
  lifted A w w' -> map sub_id (subscriptions w') = map sub_id (subscriptions w).
Proof. apply Forall2_map_eq. intros a b. apply doc_id. Qed.

#[export] Instance Frame_sweep : Frame (sweep A).
Proof.
  split; unfold sweep.
  - intros w _. apply lifted_refl.
  - intros a b c H1 H2 Hnd. specialize (H1 Hnd).
    apply (lifted_trans a b c H1). apply H2.
    rewrite (lifted_ids a b H1). exact Hnd.
Qed.

Lemma lifted_same w w' : subscriptions w' = subscriptions w -> lifted A w w'.
Proof.
  intros E. unfold lifted. rewrite E. apply Forall2_same. intros x _.
  apply doc_refl.
Qed.

Lemma sweep_same w w' : subscriptions w' = subscriptions w -> sweep A w w'.
Proof. intros E _. apply lifted_same. exact E. Qed.

(** One turn of a loop, seen from the collection: the turn wrote only under
    the [_id] of its candidate [c], which the collection still holds as it
    was read. *)
Lemma rewrites_lifted c w w' :
  NoDup (map sub_id (subscriptions w)) -> In c (subscriptions w) ->
  rewrites (sub_id c) (A c) w w' -> lifted A w w'.
Proof.
  intros Hnd Hc. apply Forall2_weaken. intros s s' Hs [->|[E1 [E2 P]]].
  - apply doc_refl.
  - assert (s = c).
    { pose proof (In_sub_by_id Hnd Hs) as H1.
      pose proof (In_sub_by_id Hnd Hc) as H2.
      rewrite E1 in H1. congruence. }
    subst s. exact P.
Qed.

Lemma rewrites_keeps_other c c' w w' :
  sub_id c' <> sub_id c -> In c' (subscriptions w) ->
  rewrites (sub_id c) (A c) w w' -> In c' (subscriptions w').
Proof.
  intros Hne Hc' H.
  destruct (Forall2_image _ _ _ c' H Hc') as [b [Hb [->|[E _]]]];
    [exact Hb | contradiction].
Qed.

(** A loop over documents read from the collection: each turn writes only
    under the [_id] of its own document, so every document is still as it
    was read when its turn comes. *)
Lemma snapshot_loop (body : Subscription -> M unit) l :
  NoDup (map sub_id l) ->
  (forall c, In c l -> preserves (rewrites (sub_id c) (A c)) (body c)) ->
  forall w,
    NoDup (map sub_id (subscriptions w)) ->
    (forall c, In c l -> In c (subscriptions w)) ->
    lifted A w (snd (forM_ l body w)).
Proof.
  induction l as [|c l IH]; intros Hl Hbody w Hnd Hin.
  - apply lifted_refl.
  - simpl. inversion Hl as [|? ? Hc Hl']; subst.
    assert (Hstep : rewrites (sub_id c) (A c) w (snd (body c w)))
      by (apply Hbody; left; reflexivity).
    assert (L1 : lifted A w (snd (body c w))).
    { apply (rewrites_lifted c); [exact Hnd | apply Hin; left; reflexivity|].
      exact Hstep. }
    unfold bind. destruct (body c w) as [[[]|e] w1]; cbn [snd] in *;
      [|exact L1].
    apply (lifted_trans w w1 _ L1). apply IH.
    + exact Hl'.
    + intros c' Hc'. apply Hbody. right. exact Hc'.
    + rewrite (lifted_ids w w1 L1). exact Hnd.
    + intros c' Hc'.
      apply (rewrites_keeps_other c c' w w1); [|apply Hin; right; exact Hc'|].
      * intros E. apply Hc. rewrite <- E. apply in_map. exact Hc'.
      * exact Hstep.
Qed.

(** A query followed by the loop over its result. *)
Lemma find_loop_sweep env q (body : Subscription -> M unit) :
  (forall c, q c = true -> preserves (rewrites (sub_id c) (A c)) (body c)) ->
  preserves (sweep A) (l <- Subscription_find env q ;; forM_ l body).
Proof.
  intros Hbody w Hnd. unfold Subscription_find, bind, store.
  destruct (store_fails env (tick w)); cbn [snd gets].
  - apply lifted_same. reflexivity.
  - set (w1 := log_event (EvStore OpRead true) w).
    apply (lifted_trans w w1); [apply lifted_same; reflexivity|].
    change (subscriptions w) with (subscriptions w1).
    apply snapshot_loop.
    + apply NoDup_map_filter. exact Hnd.
    + intros c Hc. apply Hbody. apply filter_In in Hc. apply Hc.
    + exact Hnd.
    + intros c Hc. apply filter_In in Hc. apply Hc.
Qed.

End Sweeps.

(** *** The relations of the three sweeps *)

#[export] Instance DocOrder_flags_raised : DocOrder flags_raised.
Proof.
  split; unfold flags_raised.
  - intros s. split; [destruct s; reflexivity | auto].
  - intros a b c [E1 F1] [E2 F2]. split; [|auto].
    rewrite E2, E1. reflexivity.
  - intros s s' [E _]. rewrite E. reflexivity.
Qed.

Lemma status_forward_trans a b c :
  status_forward a b -> status_forward b c -> status_forward a c.
Proof.
  unfold status_forward. intros H1 H2.
  destruct a, b, c; intuition discriminate.
Qed.

#[export] Instance DocOrder_grace_moved : DocOrder grace_moved.
Proof.
  split; unfold grace_moved.
  - intros s. left. reflexivity.
  - intros a b c [Eab|[S1 [E1 F1]]] [Ebc|[S2 [E2 F2]]].
    + left. congruence.
    + subst b. right. auto.
    + subst c. right. auto.
    + right. split; [exact S1|]. split.
      * rewrite E2, E1. reflexivity.
      * apply (status_forward_trans _ _ _ F1 F2).
  - intros s s' [->|[_ [E _]]]; [reflexivity|]. rewrite E. reflexivity.
Qed.

#[export] Instance DocOrder_link_renewed : DocOrder link_renewed.
Proof.
  split; unfold link_renewed.
  - intros s. left. reflexivity.
  - intros a b c [Eab|[S1 E1]] [Ebc|[S2 E2]].
    + left. congruence.
    + subst b. right. auto.
    + subst c. right. auto.
    + right. split; [exact S1|]. rewrite E2, E1. reflexivity.
  - intros s s' [->|[_ E]]; [reflexivity|]. rewrite E. reflexivity.
Qed.

#[export] Instance DocOrder_kept : DocOrder kept.
Proof.
  split; unfold kept.
  - intros s. auto.
  - intros a b c [E1 [T1 [L1 C1]]] [E2 [T2 [L2 C2]]].
    repeat split; try congruence; auto.
  - intros s s' [E _]. exact E.
Qed.

Lemma flags_raised_kept s s' : flags_raised s s' -> kept s s'.
Proof.
  intros [E _]. rewrite E. unfold kept, is_live. simpl. auto.
Qed.

Lemma grace_moved_kept s s' : grace_moved s s' -> kept s s'.
Proof.
  intros [->|[S1 [E F]]]; [apply doc_refl|].
  unfold kept, is_live. rewrite E. cbn [sub_id telegramId status
    set_graceNotifications set_graceDaysUsed set_status].
  split; [reflexivity|]. split; [reflexivity|]. split.
  - intros _. destruct S1 as [-> | ->]; reflexivity.
  - intros Ec. rewrite Ec in F. unfold status_forward in F.
    destruct S1 as [S1|S1]; rewrite S1 in F; intuition discriminate.
Qed.

Lemma link_renewed_kept s s' : link_renewed s s' -> kept s s'.
Proof.
  intros [->|[_ E]]; [apply doc_refl|].
  rewrite E. unfold kept, is_live. simpl. auto.
Qed.

(** *** Side conditions *)

Ltac rew_side :=
  first
    [ apply rewrites_replace; [reflexivity|]
    | solve [ intros ?; apply rewrites_same; reflexivity ] ].

Ltac sweep_side :=
  solve [ intros ?; apply sweep_same; [typeclasses eauto | reflexivity] ].

Lemma raise_flag flag c :
  flags_raised c (set_reminderFlags (set_flag flag true (reminderFlags c)) c).
Proof.
  split; [reflexivity|]. intros f. cbn [reminderFlags set_reminderFlags].
  destruct f, flag; simpl; auto.
Qed.

Lemma reminderBody_rewrites env k flag c :
  preserves (rewrites (sub_id c) (flags_raised c)) (reminderBody env k flag c).
Proof. pres; rew_side. apply raise_flag. Qed.

Lemma reminderScheduler_sweep env :
  preserves (sweep flags_raised) (reminderScheduler env).
Proof.
  unfold reminderScheduler.
  apply pres_bind; [typeclasses eauto | pres; sweep_side | intros _].
  apply pres_forM_; [typeclasses eauto|]. intros cp _.
  unfold reminderCheckpoint.
  apply pres_bind; [typeclasses eauto | pres; sweep_side | intros today].
  apply find_loop_sweep; [typeclasses eauto|]. intros c _.
  apply reminderBody_rewrites.
Qed.

Lemma graceEnter_rewrites env c :
  status c = S_active ->
  preserves (rewrites (sub_id c) (grace_moved c)) (graceEnter env c).
Proof.
  intros Hst. pres; rew_side.
  right. split; [left; exact Hst|]. split; [reflexivity|].
  cbn [status set_graceDaysUsed set_status]. rewrite Hst.
  right. left. auto.
Qed.

Lemma graceStep_rewrites env today c :
  status c = S_grace ->
  preserves (rewrites (sub_id c) (grace_moved c)) (graceStep env today c).
Proof.
  intros Hst. pres; rew_side.
  - right. split; [right; exact Hst|]. split; [reflexivity|].
    cbn [status set_graceDaysUsed set_status]. rewrite Hst.
    right. right. auto.
  - right. split; [right; exact Hst|]. split; [reflexivity|].
    left. reflexivity.
  - right. split; [right; exact Hst|]. split; [reflexivity|].
    left. reflexivity.
Qed.

Lemma SubStatus_eqb_eq a b : SubStatus_eqb a b = true -> a = b.
Proof. destruct a, b; simpl; congruence. Qed.

Lemma gracePeriodHandler_sweep env :
  preserves (sweep grace_moved) (gracePeriodHandler env).
Proof.
  unfold gracePeriodHandler.
  apply pres_bind; [typeclasses eauto | pres; sweep_side | intros today].
  match goal with
  | |- preserves _ (bind ?m (fun l => bind (forM_ l ?b) ?k)) =>
      assert (E : forall w, bind m (fun l => bind (forM_ l b) k) w
                            = bind (bind m (fun l => forM_ l b)) k w)
  end.
  { intros w. unfold bind.
    destruct (Subscription_find env (just_expired_query today) w)
      as [[l|e] w1]; reflexivity. }
  intros w. rewrite E. revert w.
  apply pres_bind; [typeclasses eauto | | intros _].
  - apply find_loop_sweep; [typeclasses eauto|]. intros c Hc.
    apply graceEnter_rewrites.
    unfold just_expired_query in Hc. apply andb_true_iff in Hc.
    apply SubStatus_eqb_eq. apply Hc.
  - apply find_loop_sweep; [typeclasses eauto|]. intros c Hc.
    apply graceStep_rewrites. apply SubStatus_eqb_eq. exact Hc.
Qed.

Lemma monitorActive_rewrites env c :
  status c = S_active ->
  preserves (rewrites (sub_id c) (link_renewed c)) (monitorActive env c).
Proof.
  intros Hst. pres; rew_side.
  right. split; [exact Hst | reflexivity].
Qed.

Lemma monitorExpired_rewrites env c :
  preserves (rewrites (sub_id c) (link_renewed c)) (monitorExpired env c).
Proof. pres; rew_side. Qed.

Lemma membershipMonitor_sweep env :
  preserves (sweep link_renewed) (membershipMonitor env).
Proof.
  unfold membershipMonitor.
  apply pres_bind; [typeclasses eauto | pres; sweep_side | intros t].
  match goal with
  | |- preserves _ (bind ?m (fun l => bind (forM_ l ?b) ?k)) =>
      assert (E : forall w, bind m (fun l => bind (forM_ l b) k) w
                            = bind (bind m (fun l => forM_ l b)) k w)
  end.
  { intros w. unfold bind.
    destruct (Subscription_find env (monitor_active_query t) w)
      as [[l|e] w1]; reflexivity. }
  intros w. rewrite E. revert w.
  apply pres_bind; [typeclasses eauto | | intros _].
  - apply find_loop_sweep; [typeclasses eauto|]. intros c Hc.
    apply monitorActive_rewrites.
    unfold monitor_active_query in Hc. apply andb_true_iff in Hc.
    apply SubStatus_eqb_eq. apply Hc.
  - apply find_loop_sweep; [typeclasses eauto|]. intros c Hc.
    apply monitorExpired_rewrites.
Qed.

(** *** The two outcomes of a round trip to the store *)

Lemma bind_throw {A B} {m : M A} (k : A -> M B) {w e w1} :
  m w = (Throw e, w1) -> bind m k w = (Throw e, w1).
Proof. intros E. unfold bind. rewrite E. reflexivity. Qed.

Lemma bind_ret {A B} (a : A) (k : A -> M B) w : bind (ret a) k w = k a w.
Proof. reflexivity. Qed.

Section Outcomes.

Variable env : Env.

Lemma store_outcome op w :
  outcome (store env op) op (fun _ => tt) (fun w => w) w.
Proof.
  unfold outcome, store. destruct (store_fails env (tick w)); [left | right]; reflexivity.
Qed.

Lemma read_outcome {A} (g : World -> A) w :
  outcome (store env OpRead ;; gets g) OpRead g (fun w => w) w.
Proof.
  unfold outcome, bind, store, gets.
  destruct (store_fails env (tick w)); [left | right]; reflexivity.
Qed.

Lemma write_outcome op f w :
  outcome (store env op ;; modify f) op (fun _ => tt) f w.
Proof.
  unfold outcome, bind, store, modify.
  destruct (store_fails env (tick w)); [left | right]; reflexivity.
Qed.

Lemma create_outcome mk w :
  outcome (Subscription_create env mk) OpSubCreate
          (fun w => mk (fresh_id (subscriptions w)))
          (fun w1 => set_subscriptions
                       (fun l => l ++ [mk (fresh_id (subscriptions w1))]) w1)
          w.
Proof.
  unfold outcome, Subscription_create, bind, store, gets, modify, ret.
  destruct (store_fails env (tick w)); [left | right]; reflexivity.
Qed.

End Outcomes.

Lemma createSubscription_writes env tid plan admin w :
  subscriptions (snd (createSubscription env tid plan admin w))
  = subscriptions w
  \/ (exists ex e,
        find (active_or_grace_of tid) (subscriptions w) = Some ex
        /\ subscriptions (snd (createSubscription env tid plan admin w))
           = replace_sub (renewed plan admin e ex) (subscriptions w))
  \/ (exists u start,
        find (by_telegramId tid) (users w) = Some u
        /\ find (active_or_grace_of tid) (subscriptions w) = None
        /\ subscriptions (snd (createSubscription env tid plan admin w))
           = subscriptions w
             ++ [created u tid plan admin start
                         (addDays start (plan_durationDays plan))
                         (fresh_id (subscriptions w))]).
Proof.
  unfold createSubscription.
  destruct (read_outcome env (fun w => find (by_telegramId tid) (users w)) w)
    as [E|E];
    [rewrite (bind_throw _ E); left; reflexivity | rewrite (bind_run _ E)].
  cbn [users log_event].
  destruct (find (by_telegramId tid) (users w)) as [u|] eqn:Eu;
    [|left; reflexivity].
  match goal with
  | |- context [bind (Subscription_findOne env ?q) _ ?w1] =>
      destruct (read_outcome env (fun w => find q (subscriptions w)) w1)
        as [E1|E1];
      [rewrite (bind_throw _ E1); left; reflexivity | rewrite (bind_run _ E1)]
  end.
  cbn [subscriptions log_event].
  destruct (find (active_or_grace_of tid) (subscriptions w)) as [ex|] eqn:Eex.
  - rewrite (bind_run _ (now_run env _)).
    match goal with
    | |- context [if ?b then ret _ else now env] => destruct b
    end.
    + rewrite bind_ret.
      match goal with
      | |- context [bind (save env ?doc) _ ?w1] =>
          destruct (write_outcome env (OpSubWrite (sub_id doc))
                      (set_subscriptions (replace_sub doc)) w1) as [E2|E2];
          [rewrite (bind_throw _ E2); left; reflexivity
          | rewrite (bind_run _ E2)]
      end.
      right. left. eexists. eexists. split; [reflexivity|].
      match goal with
      | |- context [bind (User_findByIdAndUpdate env ?i ?p) _ ?w1] =>
          destruct (write_outcome env (OpUserWriteById i p)
                      (set_users (update_first (by_user_id i) (apply_patch p)))
                      w1) as [E3|E3];
          [rewrite (bind_throw _ E3) | rewrite (bind_run _ E3)]
      end; reflexivity.
    + rewrite (bind_run _ (now_run env _)).
      match goal with
      | |- context [bind (save env ?doc) _ ?w1] =>
          destruct (write_outcome env (OpSubWrite (sub_id doc))
                      (set_subscriptions (replace_sub doc)) w1) as [E2|E2];
          [rewrite (bind_throw _ E2); left; reflexivity
          | rewrite (bind_run _ E2)]
      end.
      right. left. eexists. eexists. split; [reflexivity|].
      match goal with
      | |- context [bind (User_findByIdAndUpdate env ?i ?p) _ ?w1] =>
          destruct (write_outcome env (OpUserWriteById i p)
                      (set_users (update_first (by_user_id i) (apply_patch p)))
                      w1) as [E3|E3];
          [rewrite (bind_throw _ E3) | rewrite (bind_run _ E3)]
      end; reflexivity.
  - rewrite (bind_run _ (now_run env _)).
    match goal with
    | |- context [bind (Subscription_create env ?mk) _ ?w1] =>
        destruct (create_outcome env mk w1) as [E2|E2];
        [rewrite (bind_throw _ E2); left; reflexivity
        | rewrite (bind_run _ E2)]
    end.
    right. right. eexists. eexists. split; [reflexivity|].
    split; [reflexivity|].
    match goal with
    | |- context [bind (User_findByIdAndUpdate env ?i ?p) _ ?w1] =>
        destruct (write_outcome env (OpUserWriteById i p)
                    (set_users (update_first (by_user_id i) (apply_patch p)))
                    w1) as [E3|E3];
        [rewrite (bind_throw _ E3) | rewrite (bind_run _ E3)]
    end; reflexivity.
Qed.

(** *** The collection stays well kept *)

Lemma kept_selected tid s s' :
  kept s s' -> active_or_grace_of tid s' = true ->
  active_or_grace_of tid s = true.
Proof.
  intros [_ [Et [Hl _]]]. unfold active_or_grace_of. rewrite Et.
  intros H. apply andb_true_iff in H. destruct H as [H1 H2].
  rewrite H1. apply Hl. exact H2.
Qed.

Lemma kept_count tid l l' :
  Forall2 kept l l' ->
  (List.length (filter (active_or_grace_of tid) l')
   <= List.length (filter (active_or_grace_of tid) l))%nat.
Proof.
  induction 1 as [|s s' l l' Hk _ IH]; simpl; [lia|].
  destruct (active_or_grace_of tid s') eqn:E'.
  - rewrite (kept_selected tid s s' Hk E'). simpl. lia.
  - destruct (active_or_grace_of tid s); simpl; lia.
Qed.

Lemma well_kept_lifted w w' :
  well_kept w -> lifted kept w w' -> well_kept w'.
Proof.
  intros [Hnd [Hc Hx]] H. split; [|split].
  - rewrite (lifted_ids kept w w' H). exact Hnd.
  - intros tid. unfold live_count. specialize (Hc tid).
    pose proof (kept_count tid _ _ H). unfold live_count in Hc. lia.
  - apply Forall_forall. intros s' Hs'.
    destruct (Forall2_preimage _ _ _ s' H Hs') as [s [Hs [_ [_ [_ Hk]]]]].
    intros E. apply Hk in E. revert E.
    apply (proj1 (Forall_forall _ _) Hx s Hs).
Qed.

Lemma well_kept_sweep (A : Subscription -> Subscription -> Prop) w w' :
  (forall s s', A s s' -> kept s s') ->
  well_kept w -> sweep A w w' -> well_kept w'.
Proof.
  intros HA Hw H. apply (well_kept_lifted w w' Hw).
  refine (Forall2_weaken _ _ _ _ _ (H (proj1 Hw))).
  intros a b _. apply HA.
Qed.

Lemma well_kept_same w w' :
  subscriptions w' = subscriptions w -> well_kept w -> well_kept w'.
Proof. unfold well_kept, live_count. intros ->. auto. Qed.

Lemma well_kept_update id f :
  (forall s, kept s (f s)) ->
  stable_modify (keeps well_kept) (set_subscriptions (update_sub_by_id id f)).
Proof.
  intros Hf w Hw. apply (well_kept_lifted w _ Hw).
  unfold lifted, update_sub_by_id. cbn [subscriptions set_subscriptions].
  clear Hw. induction (subscriptions w) as [|s l IH]; simpl; constructor;
    [|exact IH].
  destruct (Nat.eqb (sub_id s) id); [apply Hf | apply doc_refl].
Qed.

Lemma fresh_id_above l s : In s l -> (sub_id s < fresh_id l)%nat.
Proof.
  unfold fresh_id. induction l as [|x l IH]; simpl; [contradiction|].
  intros [->|H]; [lia|]. specialize (IH H). lia.
Qed.

Lemma filter_none {X} (q : X -> bool) l :
  find q l = None -> filter q l = [].
Proof.
  induction l as [|x l IH]; simpl; [reflexivity|].
  destruct (q x); [discriminate | exact IH].
Qed.

Lemma Forall2_graph {X} (f : X -> X) l :
  Forall2 (fun s s' => s' = f s) l (map f l).
Proof. induction l; simpl; constructor; auto. Qed.

Lemma createSubscription_well_kept env tid plan admin :
  preserves (keeps well_kept) (createSubscription env tid plan admin).
Proof.
  intros w Hw.
  destruct (createSubscription_writes env tid plan admin w)
    as [E|[[ex [e [Hex E]]]|[u [start [Hu [Hex E]]]]]].
  - apply (well_kept_same w _ E Hw).
  - apply (well_kept_lifted w _ Hw). unfold lifted. rewrite E.
    destruct Hw as [Hnd _].
    destruct (find_some _ _ Hex) as [Hin Hq].
    unfold replace_sub. apply Forall2_weaken with (R1 := fun s s' =>
      s' = if Nat.eqb (sub_id s) (sub_id (renewed plan admin e ex))
           then renewed plan admin e ex else s).
    + intros s s' Hs ->.
      destruct (Nat.eqb_spec (sub_id s) (sub_id (renewed plan admin e ex)))
        as [Ei|Ei]; [|apply doc_refl].
      assert (s = ex).
      { pose proof (In_sub_by_id Hnd Hs) as H1.
        pose proof (In_sub_by_id Hnd Hin) as H2.
        cbn [sub_id renewed] in Ei. rewrite Ei in H1. congruence. }
      subst s. unfold kept, is_live. cbn [sub_id telegramId status renewed].
      unfold active_or_grace_of in Hq. apply andb_true_iff in Hq.
      split; [reflexivity|]. split; [reflexivity|].
      split; [intros _; apply Hq | discriminate].
    + apply Forall2_graph.
  - destruct Hw as [Hnd [Hc Hx]]. split; [|split].
    + rewrite E, map_app. cbn [map sub_id created].
      apply NoDup_app; [exact Hnd | repeat constructor; intros [] |].
      intros i Hi [<-|[]]. apply in_map_iff in Hi.
      destruct Hi as [s [Es Hs]]. pose proof (fresh_id_above _ s Hs). lia.
    + intros t. unfold live_count. rewrite E, filter_app, length_app.
      specialize (Hc t). unfold live_count in Hc.
      cbn [filter]. unfold active_or_grace_of at 2.
      cbn [telegramId status created SubStatus_eqb orb].
      destruct (Z.eqb_spec tid t) as [->|Hne]; simpl.
      * rewrite (filter_none _ _ Hex). simpl. lia.
      * lia.
    + rewrite E. apply Forall_app. split; [exact Hx|].
      constructor; [discriminate | constructor].
Qed.

Ltac kept_side :=
  first
    [ apply well_kept_update; intros ?; unfold kept, is_live; simpl;
      solve [auto]
    | solve [ intros ? ?; eapply well_kept_same; [|eassumption];
              reflexivity ] ].

Lemma approve_well_kept env tid plan admin :
  preserves (keeps well_kept) (approve env tid plan admin).
Proof.
  unfold approve.
  apply pres_try_catch; [typeclasses eauto | | intros e; pres; kept_side].
  apply pres_bind;
    [typeclasses eauto | apply createSubscription_well_kept | intros sub].
  pres; kept_side.
Qed.

Lemma reachable_well_kept w : reachable w -> well_kept w.
Proof.
  induction 1 as [us ps c|e tid plan admin w _ IH _|e w _ IH|e w _ IH
                 |e w _ IH|tid w _ IH].
  - split; [constructor|]. split; [intros tid; unfold live_count; simpl; lia | constructor].
  - apply approve_well_kept. exact IH.
  - apply (well_kept_sweep flags_raised w _ flags_raised_kept IH).
    apply reminderScheduler_sweep.
  - apply (well_kept_sweep grace_moved w _ grace_moved_kept IH).
    apply gracePeriodHandler_sweep.
  - apply (well_kept_sweep link_renewed w _ link_renewed_kept IH).
    apply membershipMonitor_sweep.
  - apply (well_kept_same w _ eq_refl IH).
Qed.

Lemma bind_assoc {A B C} (m : M A) (k1 : A -> M B) (k2 : B -> M C) w :
  bind (bind m k1) k2 w = bind m (fun a => bind (k1 a) k2) w.
Proof. unfold bind. destruct (m w) as [[a|e] w1]; reflexivity. Qed.

Lemma try_catch_ret_snd {A} (m : M A) (a : A) w :
  snd (try_catch m (fun _ => ret a) w) = snd (m w).
Proof. unfold try_catch, ret. destruct (m w) as [[x|e] w1]; reflexivity. Qed.

(** The awarder once the referrer is found: the only subscription it may
    write is the one its query returns. *)
Lemma award_writes env newUser referrer tid w :
  subscriptions (snd (award env newUser referrer tid w)) = subscriptions w
  \/ exists rs t,
       find (referrer_sub_query (u_telegramId referrer) t) (subscriptions w)
       = Some rs
       /\ subscriptions (snd (award env newUser referrer tid w))
          = update_sub_by_id (sub_id rs)
              (set_expiryDate (addDays (expiryDate rs) (BONUS_DAYS env)))
              (subscriptions w).
Proof.
  unfold award. rewrite (bind_run _ (now_run env _)).
  match goal with
  | |- context [bind (Subscription_findOne env ?q) _ ?w1] =>
      destruct (read_outcome env (fun w => find q (subscriptions w)) w1)
        as [E1|E1];
      [rewrite (bind_throw _ E1); left; reflexivity | rewrite (bind_run _ E1)]
  end.
  cbn [subscriptions log_event].
  match goal with
  | |- context [find ?q (subscriptions w)] =>
      destruct (find q (subscriptions w)) as [rs|] eqn:Ers
  end.
  - rewrite bind_assoc.
    match goal with
    | |- context [bind (Subscription_findByIdAndUpdate env ?i ?f) ?k ?w1] =>
        destruct (write_outcome env (OpSubWrite i)
                    (set_subscriptions (update_sub_by_id i f)) w1) as [E2|E2];
        [rewrite (bind_throw _ E2); left; reflexivity
        | rewrite (bind_run _ E2)]
    end.
    right. exists rs. eexists. split; [exact Ers|].
    match goal with
    | |- subscriptions (snd (?m ?w2)) = _ =>
        assert (Hs : preserves subs_same m) by (pres; stab);
        rewrite (Hs w2)
    end.
    reflexivity.
  - left.
    match goal with
    | |- subscriptions (snd (?m ?w2)) = _ =>
        assert (Hs : preserves subs_same m) by (pres; stab);
        rewrite (Hs w2)
    end.
    reflexivity.
Qed.

Lemma awardReferralBonus_writes env tid w :
  subscriptions (snd (awardReferralBonus env tid w)) = subscriptions w
  \/ exists u r referrer rs t,
       find (by_telegramId tid) (users w) = Some u
       /\ referredBy u = Some r /\ r <> 0
       /\ referralBonusApplied u = false
       /\ find (by_telegramId r) (users w) = Some referrer
       /\ find (referrer_sub_query r t) (subscriptions w) = Some rs
       /\ subscriptions (snd (awardReferralBonus env tid w))
          = update_sub_by_id (sub_id rs)
              (set_expiryDate (addDays (expiryDate rs) (BONUS_DAYS env)))
              (subscriptions w).
Proof.
  unfold awardReferralBonus. rewrite try_catch_ret_snd.
  destruct (read_outcome env (fun w => find (by_telegramId tid) (users w)) w)
    as [E|E];
    [rewrite (bind_throw _ E); left; reflexivity | rewrite (bind_run _ E)].
  cbn [users log_event].
  destruct (find (by_telegramId tid) (users w)) as [u|] eqn:Eu;
    [|left; reflexivity].
  destruct (referredBy u) as [r|] eqn:Er; [|left; reflexivity].
  destruct (Z.eqb_spec r 0) as [E0|E0]; [left; reflexivity|].
  destruct (referralBonusApplied u) eqn:Eb; [left; reflexivity|].
  cbn [orb].
  match goal with
  | |- context [bind (Subscription_countDocuments env ?q) _ ?w1] =>
      destruct (read_outcome env
                  (fun w => List.length (filter q (subscriptions w))) w1)
        as [E1|E1];
      [rewrite (bind_throw _ E1); left; reflexivity | rewrite (bind_run _ E1)]
  end.
  match goal with
  | |- context [if ?b then ret tt else _] => destruct b; [left; reflexivity|]
  end.
  match goal with
  | |- context [bind (User_findOne env r) _ ?w1] =>
      destruct (read_outcome env (fun w => find (by_telegramId r) (users w)) w1)
        as [E2|E2];
      [rewrite (bind_throw _ E2); left; reflexivity | rewrite (bind_run _ E2)]
  end.
  cbn [users log_event].
  destruct (find (by_telegramId r) (users w)) as [referrer|] eqn:Eref;
    [|left; reflexivity].
  match goal with
  | |- context [award env u referrer tid ?w3] =>
      destruct (award_writes env u referrer tid w3) as [H|[rs [t [H1 H2]]]]
  end.
  - left. rewrite H. reflexivity.
  - right. exists u, r, referrer, rs, t.
    assert (Et : u_telegramId referrer = r).
    { apply find_some in Eref. apply Z.eqb_eq. apply Eref. }
    rewrite Et in H1.
    repeat split; try assumption.
Qed.

Lemma safeSend_frame env o tid msg :
  preserves (rel_and subs_same chat_same) (safeSend env o tid msg).
Proof. pres; stab. Qed.

(** X1. safeSend never throws, whatever Telegram and the store do: it
    returns [true] exactly when Telegram accepted the message and [false] on
    any error.  On an error other than 403 the attempt is all it leaves in
    the history; in every case the subscriptions and the group are as
    before. *)
Theorem safeSend_never_throws (env : Env) (o : option nat) (tid : Z)
  (msg : Message) (w : World) :
  fst (safeSend env o tid msg w)
  = Ok (match sendMessage_error env (tick w) tid with
        | None => true
        | Some _ => false
        end)
  /\ (sendMessage_error env (tick w) tid <> Some 403 ->
      snd (safeSend env o tid msg w)
      = log_event (EvSendMessage o tid msg
                     (sendMessage_error env (tick w) tid)) w)
  /\ subscriptions (snd (safeSend env o tid msg w)) = subscriptions w
  /\ (forall x, chat (snd (safeSend env o tid msg w)) x = chat w x).
Proof.
  split; [|split].
  - rewrite safeSend_run. cbv zeta.
    destruct (sendMessage_error env (tick w) tid); reflexivity.
  - intros H. rewrite safeSend_run. cbv zeta.
    destruct (sendMessage_error env (tick w) tid) as [code|];
      [|reflexivity].
    cbn [snd]. destruct (Z.eqb_spec code 403) as [->|_];
      [contradiction H; reflexivity | reflexivity].
  - apply (safeSend_frame env o tid msg w).
Qed.

Lemma safeSend_never_throws_witness :
  snd (safeSend (rate_limited 10) None 501 MsgApproved fresh_world)
  = log_event (EvSendMessage None 501 MsgApproved (Some 429)) fresh_world.
Proof.
  apply (proj1 (proj2 (safeSend_never_throws (rate_limited 10) None 501
                         MsgApproved fresh_world))).
  simpl. discriminate.
Defined.

(** X2. Approving a plan for a telegramId that has no user document:
    createSubscription throws its 'not found' error after its first read (the
    store accepting that read), and the approve action catches whatever was
    thrown and answers the callback query with the error alert.  So from
    its call of createSubscription on, the action makes that one read and
    that one answer and nothing else (no subscription, no message to the
    user, no audit entry); it returns when Telegram accepts the answer and
    rejects with Telegram's error when it does not. *)
Theorem approve_unknown_user (env : Env) (tid : Z) (plan : Plan) (admin : Z)
  (w : World) :
  find (by_telegramId tid) (users w) = None ->
  (store_fails env (tick w) = false ->
   exists msg,
     createSubscription env tid plan admin w
     = (Throw (JsError msg), log_event (EvStore OpRead true) w))
  /\ exists ok,
       let w1 := log_event (EvStore OpRead ok) w in
       snd (approve env tid plan admin w)
       = log_event (EvAnswerCbQuery (negb (answerCbQuery_fails env (tick w1))))
                   w1
       /\ (answerCbQuery_fails env (tick w1) = false ->
           fst (approve env tid plan admin w) = Ok tt)
       /\ (answerCbQuery_fails env (tick w1) = true ->
           exists code,
             fst (approve env tid plan admin w) = Throw (TelegramError code)).
Proof.
  intros Hu. split.
  - intros Hok. unfold createSubscription.
    destruct (read_outcome env (fun w => find (by_telegramId tid) (users w)) w)
      as [E|E].
    + unfold User_findOne, bind, store in E. rewrite Hok in E. discriminate E.
    + rewrite (bind_run _ E). cbn [users log_event]. rewrite Hu.
      eexists. reflexivity.
  - assert (H : exists ok,
               approve env tid plan admin w
               = answerCbQuery env (log_event (EvStore OpRead ok) w)).
    { unfold approve, try_catch, createSubscription. rewrite bind_assoc.
      destruct (read_outcome env
                  (fun w => find (by_telegramId tid) (users w)) w) as [E|E].
      + rewrite (bind_throw _ E). exists false. reflexivity.
      + rewrite (bind_run _ E). cbn [users log_event]. rewrite Hu.
        exists true. reflexivity. }
    destruct H as [ok H]. exists ok. cbv zeta. rewrite H.
    unfold answerCbQuery.
    destruct (answerCbQuery_fails env (tick (log_event (EvStore OpRead ok) w)));
      cbn [fst snd negb].
    + split; [reflexivity|]. split; [discriminate|].
      intros _. eexists. reflexivity.
    + split; [reflexivity|]. split; [reflexivity | discriminate].
Qed.

Lemma approve_unknown_user_witness :
  exists ok,
    snd (approve (calm_env 10) 777 monthly 900 fresh_world)
    = log_event (EvAnswerCbQuery true)
                (log_event (EvStore OpRead ok) fresh_world).
Proof.
  destruct (proj2 (approve_unknown_user (calm_env 10) 777 monthly 900
                     fresh_world eq_refl)) as [ok [H _]].
  exists ok. exact H.
Defined.

Lemma exec_all_inv {A} (body : A -> M unit) (Inv : list A -> World -> Prop) :
  forall l,
    (forall c rem w, Inv (c :: rem) w -> Inv rem (snd (body c w))) ->
    forall w, Inv l w -> Inv [] (exec_all body l w).
Proof.
  induction l as [|c l IH]; intros H w Hw; simpl; [exact Hw|].
  apply IH; [exact H|]. apply H. exact Hw.
Qed.

Lemma exec_all_keeps_in {A} (body : A -> M unit) (I : World -> Prop) l :
  (forall c, In c l -> preserves (keeps I) (body c)) ->
  forall w, I w -> I (exec_all body l w).
Proof.
  induction l as [|a l IH]; intros H w Hw; simpl; [exact Hw|].
  apply IH; [intros c Hc; apply H; right; exact Hc|].
  apply H; [left; reflexivity | exact Hw].
Qed.

Lemma In_replace_sub doc l s :
  In s (replace_sub doc l) ->
  s = doc \/ (In s l /\ sub_id s <> sub_id doc).
Proof.
  unfold replace_sub. intros H. apply in_map_iff in H.
  destruct H as [x [E Hx]].
  destruct (Nat.eqb_spec (sub_id x) (sub_id doc)) as [Ei|Ei].
  - left. symmetry. exact E.
  - right. subst s. split; assumption.
Qed.

Section GraceStoreOk.

Variable env : Env.
Hypothesis store_ok : forall t, store_fails env t = false.

Lemma graceEnter_subs c w :
  subscriptions (snd (graceEnter env c w))
  = replace_sub (set_graceDaysUsed 0 (set_status S_grace c)) (subscriptions w).
Proof.
  unfold graceEnter. rewrite (bind_run _ (save_run env store_ok _ _)).
  match goal with
  | |- subscriptions (snd (?m ?w2)) = _ =>
      assert (Hs : preserves subs_same m) by (pres; stab);
      rewrite (Hs w2)
  end.
  reflexivity.
Qed.

Lemma first_loop_processes today l w :
  unprocessed_among today l w ->
  none_unprocessed today (exec_all (graceEnter env) l w).
Proof.
  intros H.
  assert (K : unprocessed_among today []
                (exec_all (graceEnter env) l w)).
  { apply (exec_all_inv (graceEnter env) (unprocessed_among today)).
    - intros c rem w1 Hw1 s Hs Hq. rewrite graceEnter_subs in Hs.
      apply In_replace_sub in Hs. destruct Hs as [->|[Hs Hne]].
      + discriminate Hq.
      + destruct (Hw1 s Hs Hq) as [E|Hin]; [|exact Hin].
        cbn [sub_id set_graceDaysUsed set_status] in Hne. congruence.
    - exact H. }
  apply Forall_forall. intros s Hs.
  destruct (just_expired_query today s) eqn:E; [|reflexivity].
  destruct (K s Hs E).
Qed.

Lemma none_unprocessed_replace today doc :
  just_expired_query today doc = false ->
  stable_modify (keeps (none_unprocessed today))
                (set_subscriptions (replace_sub doc)).
Proof.
  intros Hd w H. unfold none_unprocessed in *.
  cbn [subscriptions set_subscriptions].
  apply Forall_forall. intros s Hs. apply In_replace_sub in Hs.
  destruct Hs as [->|[Hs _]]; [exact Hd|].
  apply (proj1 (Forall_forall _ _) H s Hs).
Qed.

Lemma graceStep_keeps_processed today today' c :
  status c = S_grace ->
  preserves (keeps (none_unprocessed today)) (graceStep env today' c).
Proof.
  intros Hst. pres.
  all: try solve [ intros ? ?; assumption ].
  all: apply none_unprocessed_replace; unfold just_expired_query;
    cbn [status set_graceDaysUsed set_status set_gn_day1 set_gn_day2
         set_graceNotifications]; try rewrite Hst; reflexivity.
Qed.

Lemma gracePeriodHandler_processes today w :
  setHours_0 (tzOffset env) (clock env (tick w)) = today ->
  exists w', gracePeriodHandler env w = (Ok tt, w')
             /\ none_unprocessed today w'.
Proof.
  intros Hday. unfold gracePeriodHandler.
  rewrite (bind_run _ (startOfToday_run env w)). rewrite Hday.
  rewrite (bind_run _ (find_run env store_ok _ _)).
  rewrite (bind_run _ (forM_exec_all _ _ _
                         (fun c _ => graceEnter_succeeds env store_ok c) _)).
  rewrite (bind_run _ (find_run env store_ok _ _)).
  rewrite forM_exec_all
    by (intros c _; apply graceStep_succeeds; exact store_ok).
  eexists. split; [reflexivity|].
  apply exec_all_keeps_in.
  - intros c Hc. apply graceStep_keeps_processed.
    apply filter_In in Hc. apply SubStatus_eqb_eq. apply Hc.
  - apply first_loop_processes.
    intros s Hs Hq. apply in_map. apply filter_In. split; assumption.
Qed.

End GraceStoreOk.

(** X3. After a run of the grace job that stays within one day (the store
    accepting every operation) getExpiredUnprocessed returns the empty list:
    no subscription is left 'active' with an expiry before today's
    midnight. *)
Theorem grace_job_leaves_none_unprocessed (env : Env) (today : Z) (w : World) :
  (forall t, store_fails env t = false) ->
  (forall t, setHours_0 (tzOffset env) (clock env t) = today) ->
  exists w',
    gracePeriodHandler env w = (Ok tt, w')
    /\ fst (getExpiredUnprocessed env w') = Ok []
    /\ Forall (fun s => status s = S_active -> today <= expiryDate s)
              (subscriptions w').
Proof.
  intros Hok Hday.
  destruct (gracePeriodHandler_processes env Hok today w (Hday _))
    as [w' [E N]].
  exists w'. split; [exact E|]. split.
  - unfold getExpiredUnprocessed.
    rewrite (bind_run _ (startOfToday_run env w')). rewrite Hday.
    rewrite (find_run env Hok). cbn [fst subscriptions log_event].
    f_equal. unfold none_unprocessed in N.
    induction (subscriptions w') as [|s l IH]; [reflexivity|].
    inversion N as [|? ? Hs Hl]; subst. simpl. rewrite Hs. apply IH. exact Hl.
  - unfold none_unprocessed in N. apply Forall_forall. intros s Hs Hst.
    pose proof (proj1 (Forall_forall _ _) N s Hs) as Hq.
    unfold just_expired_query in Hq. rewrite Hst in Hq. simpl in Hq.
    apply Z.ltb_ge. exact Hq.
Qed.

Lemma grace_job_leaves_none_unprocessed_witness :
  exists w',
    gracePeriodHandler (calm_env 10)
      (world_of [sub_of 1 501 (DAY 5) S_active; sub_of 2 502 (DAY 9) S_active])
    = (Ok tt, w')
    /\ fst (getExpiredUnprocessed (calm_env 10) w') = Ok [].
Proof.
  destruct (grace_job_leaves_none_unprocessed (calm_env 10) (DAY 10)
              (world_of [sub_of 1 501 (DAY 5) S_active;
                         sub_of 2 502 (DAY 9) S_active]))
    as [w' [E [H _]]].
  - intros t. reflexivity.
  - intros t. vm_compute. reflexivity.
  - exists w'. split; [exact E | exact H].
Defined.

(** Neither pass of the grace job selects a record that its queries do not
    match: the job leaves the record alone and makes no call for it. *)
Lemma grace_passes_skip env sid sf w0 today :
  just_expired_query today sf = false ->
  in_grace_query sf = false ->
  preserves (keeps (inv_and (holds_sub sid sf) (trace_new (not_for sid) w0)))
    (justExpired <- Subscription_find env (just_expired_query today) ;;
     forM_ justExpired (graceEnter env) ;;
     inGrace <- Subscription_find env in_grace_query ;;
     forM_ inGrace (graceStep env today)).
Proof.
  intros Hq1 Hq2.
  apply keeps_find; [intros; inv_side | intros wf [Hwf _]].
  apply pres_bind; [typeclasses eauto | | intros _].
  - apply pres_forM_; [typeclasses eauto|]. intros c Hc.
    assert (Hne : sub_id c <> sid)
      by (refine (candidate_other sid sf _ wf c Hwf Hq1 Hc)).
    pres; inv_side.
  - apply keeps_find; [intros; inv_side | intros wf2 [Hwf2 _]].
    apply pres_forM_; [typeclasses eauto|]. intros c Hc.
    assert (Hne : sub_id c <> sid)
      by (refine (candidate_other sid sf _ wf2 c Hwf2 Hq2 Hc)).
    pres; inv_side.
Qed.

(** X4. The grace job does not touch a subscription that is not due: one
    that is 'active' with its expiry at today's midnight or later, or
    'expired', or 'cancelled'.  Whatever the environment does, the record is
    the same after the run and no call (send, removal or write) was made for
    it. *)
Theorem grace_job_spares_not_due (env : Env) (w : World) (s : Subscription) :
  NoDup (map sub_id (subscriptions w)) ->
  In s (subscriptions w) ->
  (status s = S_active
   /\ setHours_0 (tzOffset env) (clock env (tick w)) <= expiryDate s)
  \/ status s = S_expired \/ status s = S_cancelled ->
  sub_by_id (sub_id s) (subscriptions (snd (gracePeriodHandler env w)))
  = Some s
  /\ exists l,
       trace (snd (gracePeriodHandler env w)) = l ++ trace w
       /\ Forall (fun ev => event_origin ev <> Some (sub_id s)) l.
Proof.
  intros Hnd Hin Hs.
  unfold gracePeriodHandler.
  rewrite (bind_run _ (startOfToday_run env w)).
  set (today := setHours_0 (tzOffset env) (clock env (tick w))) in *.
  match goal with
  | |- context [snd (?m ?w1)] =>
      assert (K : inv_and (holds_sub (sub_id s) s)
                          (trace_new (not_for (sub_id s)) w) (snd (m w1)))
  end.
  { apply (grace_passes_skip env (sub_id s) s w today).
    - unfold just_expired_query.
      destruct Hs as [[Hst Hexp]|[Hst|Hst]]; rewrite Hst; [|reflexivity..].
      simpl. apply Z.ltb_ge. exact Hexp.
    - unfold in_grace_query.
      destruct Hs as [[Hst _]|[Hst|Hst]]; rewrite Hst; reflexivity.
    - split.
      + split; [exact Hnd | apply In_sub_by_id; assumption].
      + exists [EvNow (clock env (tick w))]. split; [reflexivity|].
        constructor; [|constructor]. unfold not_for. simpl. discriminate. }
  destruct K as [[_ K1] K2]. split; [exact K1 | exact K2].
Qed.

(** A subscription that expired at 07:00 this morning; the job runs at
    09:00. *)
Lemma grace_job_spares_not_due_witness :
  sub_by_id 1
    (subscriptions
       (snd (gracePeriodHandler (calm_env 10)
               (world_of [sub_of 1 501 (DAY 10 + 7 * 3600000) S_active]))))
  = Some (sub_of 1 501 (DAY 10 + 7 * 3600000) S_active).
Proof.
  apply (grace_job_spares_not_due (calm_env 10)
           (world_of [sub_of 1 501 (DAY 10 + 7 * 3600000) S_active])
           (sub_of 1 501 (DAY 10 + 7 * 3600000) S_active)).
  - repeat constructor. simpl. intros [].
  - left. reflexivity.
  - left. split; [reflexivity | vm_compute; discriminate].
Defined.

Section WarnStoreOk.

Variable env : Env.
Hypothesis store_ok : forall t, store_fails env t = false.

(** The final-warning branch, step by step: the flag is saved whatever the
    delivery answered. *)
Lemma graceStep_warns w0 today s s0 w :
  holds_sub (sub_id s) s0 w -> since w0 w ->
  daysSinceExpiry today s = GRACE_DAYS env - 1 ->
  gn_day2 (graceNotifications s) = false ->
  exists w', graceStep env today s w = (Ok tt, w') /\ warned_post w0 s w'.
Proof.
  intros H0 Hs0 Hd Hflag. unfold graceStep. cbv zeta.
  destruct (Z.leb_spec (GRACE_DAYS env) (daysSinceExpiry today s)) as [Hle|_];
    [lia|].
  rewrite Hd, Z.eqb_refl, Hflag. cbn [negb andb].
  rewrite (bind_run _ (Plan_find_active_run env store_ok _)).
  match goal with
  | |- context [bind (safeSend env ?o ?t ?m) _ ?w3] =>
      assert (Hs3 : since w0 w3) by (repeat apply since_event; exact Hs0);
      destruct (succ_run (safeSend_succeeds env o t m) w3) as [sent [w4 E4]];
      destruct (safeSend_event env w0 o t m w3 Hs3) as [r [Hsend _]]
  end.
  rewrite (bind_run _ E4). rewrite E4 in Hsend. simpl in Hsend.
  rewrite (save_run env store_ok).
  eexists. split; [reflexivity|]. split.
  - apply (holds_sub_replace_self s0 (set_gn_day2 s)).
    apply holds_sub_event. through E4. apply holds_sub_event. exact H0.
  - exists r. apply emitted_event. exact Hsend.
Qed.

Lemma graceStep_keeps_warned today w0 s c :
  sub_id c <> sub_id s ->
  preserves (keeps (warned_post w0 s)) (graceStep env today c).
Proof. intros Hne. unfold warned_post. pres; inv_side. Qed.

Lemma gracePeriodHandler_warns s w :
  holds_sub (sub_id s) s w ->
  status s = S_grace ->
  daysSinceExpiry (setHours_0 (tzOffset env) (clock env (tick w))) s
  = GRACE_DAYS env - 1 ->
  gn_day2 (graceNotifications s) = false ->
  exists w', gracePeriodHandler env w = (Ok tt, w') /\ warned_post w s w'.
Proof.
  intros H0 Hst Hd Hflag.
  destruct (grace_first_pass_skips env store_ok s w H0) as [w1 [E1 [H1 Hs1]]];
    [rewrite Hst; discriminate|].
  rewrite (gracePeriodHandler_split env store_ok w w1 E1).
  set (today := setHours_0 (tzOffset env) (clock env (tick w))) in *.
  rewrite (bind_run _ (find_run env store_ok _ _)).
  set (wf := log_event (EvStore OpRead true) w1).
  change (subscriptions w1) with (subscriptions wf).
  assert (Hsf : since w wf) by (apply since_event; exact Hs1).
  apply (loop_focus (graceStep env today) in_grace_query s wf
                    (warned_post w s)).
  - exact H1.
  - unfold in_grace_query. rewrite Hst. reflexivity.
  - intros c. apply graceStep_succeeds. exact store_ok.
  - intros c Hc. apply graceStep_keeps_sub. exact Hc.
  - intros w2 H2.
    destruct (graceStep_warns w2 today s s w2 H2 (since_refl w2) Hd Hflag)
      as [w3 [E3 _]].
    exists w3. split; [exact E3|]. intros Hs2.
    destruct (graceStep_warns w today s s w2 H2
                (since_trans w wf w2 Hsf Hs2) Hd Hflag) as [w3' [E3' P]].
    rewrite E3 in E3'. inversion E3'. exact P.
  - intros c Hc. apply graceStep_keeps_warned. exact Hc.
  - intros c. pres; inv_side.
Qed.

End WarnStoreOk.

(** X5. On the last day of grace (daysSinceExpiry = GRACE_DAYS - 1) a
    subscription whose day2 notification flag is false gets the final warning
    attempted, and the flag is saved whatever Telegram answered to the
    delivery (the reminder flags are saved on delivery only); the rest of
    the record is unchanged.  The store accepts the operations; the
    deliveries may all fail. *)
Theorem final_warning_flag_set_whatever_delivery (env : Env) (w : World)
  (s : Subscription) :
  (forall t, store_fails env t = false) ->
  NoDup (map sub_id (subscriptions w)) ->
  In s (subscriptions w) ->
  status s = S_grace ->
  daysSinceExpiry (setHours_0 (tzOffset env) (clock env (tick w))) s
  = GRACE_DAYS env - 1 ->
  gn_day2 (graceNotifications s) = false ->
  exists w',
    gracePeriodHandler env w = (Ok tt, w')
    /\ (exists l r,
          trace w' = l ++ trace w
          /\ In (EvSendMessage (Some (sub_id s)) (telegramId s)
                               MsgFinalWarning r) l)
    /\ sub_by_id (sub_id s) (subscriptions w')
       = Some (set_graceNotifications
                 (mkGrace (gn_day1 (graceNotifications s)) true
                          (gn_day3 (graceNotifications s))) s).
Proof.
  intros Hok Hnd Hin Hst Hd Hflag.
  assert (H0 : holds_sub (sub_id s) s w).
  { split; [exact Hnd | apply In_sub_by_id; assumption]. }
  destruct (gracePeriodHandler_warns env Hok s w H0 Hst Hd Hflag)
    as [w' [E [P1 [r [l [El Hl]]]]]].
  exists w'. split; [exact E|]. split.
  - exists l, r. split; assumption.
  - apply P1.
Qed.

(** Day 9, a subscription in grace since day 7, every delivery refused. *)
Lemma final_warning_flag_set_whatever_delivery_witness :
  exists w',
    gracePeriodHandler (telegram_down 9)
                       (world_of [sub_of 1 501 (DAY 7) S_grace])
    = (Ok tt, w')
    /\ option_map (fun s => gn_day2 (graceNotifications s))
                  (sub_by_id 1 (subscriptions w'))
       = Some true.
Proof.
  destruct (final_warning_flag_set_whatever_delivery (telegram_down 9)
              (world_of [sub_of 1 501 (DAY 7) S_grace])
              (sub_of 1 501 (DAY 7) S_grace))
    as [w' [E [_ H]]].
  - intros t. reflexivity.
  - repeat constructor. simpl. intros [].
  - left. reflexivity.
  - reflexivity.
  - vm_compute. reflexivity.
  - reflexivity.
  - exists w'. split; [exact E|]. simpl sub_id in H. rewrite H. reflexivity.
Defined.

(** X6. Whatever the environment does, a run of the reminder job leaves
    every subscription in its place with every field but reminderFlags as it
    was, and a reminder flag that was true stays true; the group is
    unchanged. *)
Theorem reminder_job_only_raises_flags (env : Env) (w : World) :
  NoDup (map sub_id (subscriptions w)) ->
  Forall2 flags_raised
          (subscriptions w) (subscriptions (snd (reminderScheduler env w)))
  /\ forall x, chat (snd (reminderScheduler env w)) x = chat w x.
Proof.
  intros Hnd. split.
  - apply (reminderScheduler_sweep env w Hnd).
  - assert (H : preserves chat_same (reminderScheduler env)) by (pres; stab).
    apply H.
Qed.

Lemma reminder_job_only_raises_flags_witness :
  Forall2 flags_raised
    [sub_of 1 501 (DAY 17 + 3600000) S_active]
    (subscriptions
       (snd (reminderScheduler (calm_env 10)
               (world_of [sub_of 1 501 (DAY 17 + 3600000) S_active])))).
Proof.
  apply (reminder_job_only_raises_flags (calm_env 10)
           (world_of [sub_of 1 501 (DAY 17 + 3600000) S_active])).
  repeat constructor. simpl. intros [].
Defined.

(** X7. Whatever the environment does, a run of the grace job leaves every
    subscription in its place.  A record it changes was 'active' or 'grace',
    differs in status, graceDaysUsed and graceNotifications only, and its
    status moved forward if at all: active to grace or expired, grace to
    expired. *)
Theorem grace_job_moves_status_forward (env : Env) (w : World) :
  NoDup (map sub_id (subscriptions w)) ->
  Forall2 grace_moved
          (subscriptions w) (subscriptions (snd (gracePeriodHandler env w))).
Proof. intros Hnd. apply (gracePeriodHandler_sweep env w Hnd). Qed.

Lemma grace_job_moves_status_forward_witness :
  Forall2 grace_moved
    (subscriptions two_in_grace)
    (subscriptions (snd (gracePeriodHandler (store_rejects_at 4 10)
                                            two_in_grace))).
Proof.
  apply (grace_job_moves_status_forward (store_rejects_at 4 10) two_in_grace).
  repeat constructor; simpl; intuition discriminate.
Defined.

(** X8. Whatever the environment does, a run of the reconciler
    (membershipMonitor) changes no field of any subscription but the
    inviteLink of 'active' ones, and leaves the membership of every user who
    has no 'expired' or 'cancelled' subscription as it was. *)
Theorem monitor_spares_users_in_good_standing (env : Env) (w : World) :
  NoDup (map sub_id (subscriptions w)) ->
  Forall2 link_renewed
          (subscriptions w) (subscriptions (snd (membershipMonitor env w)))
  /\ forall x, terminal_b w x = false ->
               chat (snd (membershipMonitor env w)) x = chat w x.
Proof.
  intros Hnd. split.
  - apply (membershipMonitor_sweep env w Hnd).
  - intros x Hx.
    destruct (membershipMonitor_monitored env w Hnd w (monitored_refl w))
      as [_ H].
    destruct (H x) as [E|[_ [E _]]]; [exact E | congruence].
Qed.

Lemma monitor_spares_users_in_good_standing_witness :
  chat (snd (membershipMonitor (calm_env 10)
               (world_of [sub_of 1 501 (DAY 5) S_expired;
                          sub_of 2 502 (DAY 8) S_grace]))) 502
  = cm_member.
Proof.
  apply (proj2 (monitor_spares_users_in_good_standing (calm_env 10)
                  (world_of [sub_of 1 501 (DAY 5) S_expired;
                             sub_of 2 502 (DAY 8) S_grace])
                  ltac:(repeat constructor; simpl; intuition discriminate))
               502).
  reflexivity.
Defined.

(** X9. As long as runs do not overlap (each run of the approve action or of
    a job ends before the next begins, which is what [reachable] composes),
    the subscriptions have distinct [_id]s and every user has at most one
    subscription that is 'active' or 'grace'.  Two approvals for one user
    that interleave between the lookup and the creation in
    createSubscription are not covered: nothing in the schema keeps them
    from creating two records. *)
Theorem reachable_one_live_subscription (w : World) :
  reachable w ->
  NoDup (map sub_id (subscriptions w))
  /\ forall tid,
       (List.length (filter (active_or_grace_of tid) (subscriptions w)) <= 1)%nat.
Proof.
  intros H. destruct (reachable_well_kept w H) as [H1 [H2 _]].
  split; [exact H1 | exact H2].
Qed.

Lemma reachable_one_live_subscription_witness :
  (List.length (filter (active_or_grace_of 501)
                       (subscriptions alice_resubscribed)) <= 1)%nat.
Proof.
  apply (proj2 (reachable_one_live_subscription alice_resubscribed
                  alice_resubscribed_reachable)).
Defined.

(** X10. No reachable state holds a 'cancelled' subscription: neither the
    approval workflow nor any of the scheduled jobs writes that status. *)
Theorem reachable_never_cancelled (w : World) :
  reachable w ->
  Forall (fun s => status s <> S_cancelled) (subscriptions w).
Proof. intros H. apply (reachable_well_kept w H). Qed.

Lemma reachable_never_cancelled_witness :
  Forall (fun s => status s <> S_cancelled)
         (subscriptions (snd (approve (calm_env 0) 501 monthly 900
                                      fresh_world))).
Proof.
  apply reachable_never_cancelled.
  apply reach_approve; [apply reach_init | left; reflexivity].
Defined.

(** X11. createSubscription writes at most one record, whatever the store
    does: the collection is as it was, or the user's first active-or-grace
    record is replaced by its renewal, or (the user on record and no such
    subscription) one record is appended under a fresh [_id], running from
    its start for the plan's duration. *)
Theorem createSubscription_writes_one_record (env : Env) (tid : Z)
  (plan : Plan) (admin : Z) (w : World) :
  subscriptions (snd (createSubscription env tid plan admin w))
  = subscriptions w
  \/ (exists ex e,
        find (active_or_grace_of tid) (subscriptions w) = Some ex
        /\ subscriptions (snd (createSubscription env tid plan admin w))
           = replace_sub (renewed plan admin e ex) (subscriptions w))
  \/ (exists u start,
        find (by_telegramId tid) (users w) = Some u
        /\ find (active_or_grace_of tid) (subscriptions w) = None
        /\ subscriptions (snd (createSubscription env tid plan admin w))
           = subscriptions w
             ++ [created u tid plan admin start
                         (addDays start (plan_durationDays plan))
                         (fresh_id (subscriptions w))]).
Proof. apply createSubscription_writes. Qed.

(** X12. awardReferralBonus changes at most one subscription, whatever the
    store does: the collection is as it was, or the approved user has a
    referrer on record and a flag still false, and the subscription of the
    referrer that the query found has its expiry moved BONUS_DAYS later. *)
Theorem referral_bonus_extends_only_the_referrer (env : Env) (tid : Z)
  (w : World) :
  subscriptions (snd (awardReferralBonus env tid w)) = subscriptions w
  \/ exists u r referrer rs t,
       find (by_telegramId tid) (users w) = Some u
       /\ referredBy u = Some r /\ r <> 0
       /\ referralBonusApplied u = false
       /\ find (by_telegramId r) (users w) = Some referrer
       /\ find (referrer_sub_query r t) (subscriptions w) = Some rs
       /\ subscriptions (snd (awardReferralBonus env tid w))
          = update_sub_by_id (sub_id rs)
              (set_expiryDate (addDays (expiryDate rs) (BONUS_DAYS env)))
              (subscriptions w).
Proof. apply awardReferralBonus_writes. Qed.

(** The renewal branch of createSubscription when the store works. *)
Lemma createSubscription_renews env tid plan admin w u ex :
  (forall t, store_fails env t = false) ->
  find (by_telegramId tid) (users w) = Some u ->
  find (active_or_grace_of tid) (subscriptions w) = Some ex ->
  exists e w1,
    createSubscription env tid plan admin w
    = (Ok (renewed plan admin e ex), w1)
    /\ subscriptions w1 = replace_sub (renewed plan admin e ex) (subscriptions w)
    /\ users w1 = update_first (by_user_id (user_id u))
                               (apply_patch activated_patch) (users w)
    /\ chat w1 = chat w.
Proof.
  intros Hok Hu Hex. unfold createSubscription.
  rewrite (bind_run _ (User_findOne_run env Hok _ _)). rewrite Hu.
  rewrite (bind_run _ (findOne_run env Hok _ _)).
  cbn [subscriptions log_event]. rewrite Hex.
  rewrite (bind_run _ (now_run env _)).
  match goal with
  | |- context [if ?b then ret _ else now env] => destruct b
  end.
  - rewrite bind_ret.
    rewrite (bind_run _ (save_run env Hok _ _)).
    rewrite (bind_run _ (User_findByIdAndUpdate_run env Hok _ _ _)).
    eexists. eexists. split; [reflexivity|]. repeat split.
  - rewrite (bind_run _ (now_run env _)).
    rewrite (bind_run _ (save_run env Hok _ _)).
    rewrite (bind_run _ (User_findByIdAndUpdate_run env Hok _ _ _)).
    eexists. eexists. split; [reflexivity|]. repeat split.
Qed.

(** X13. A renewal (the store accepting the operations) writes the record
    back 'active' with the four reminder flags false, the grace notifications
    false and graceDaysUsed 0.  So when the new expiry comes into the window
    of a checkpoint, a run of the reminder job on that day sends the
    reminder of that checkpoint again, whatever the flags were before the
    renewal. *)
Theorem renewal_restarts_reminders (env env2 : Env) (today : Z) (w : World)
  (tid : Z) (plan : Plan) (admin : Z) (u : User) (ex : Subscription)
  (k : Z) (flag : Flag) :
  (forall t, store_fails env t = false) ->
  (forall t, store_fails env2 t = false) ->
  (forall t, setHours_0 (tzOffset env2) (clock env2 t) = today) ->
  NoDup (map sub_id (subscriptions w)) ->
  find (by_telegramId tid) (users w) = Some u ->
  find (active_or_grace_of tid) (subscriptions w) = Some ex ->
  In (k, flag) checkpoints ->
  exists doc w1,
    createSubscription env tid plan admin w = (Ok doc, w1)
    /\ sub_by_id (sub_id ex) (subscriptions w1) = Some doc
    /\ status doc = S_active
    /\ reminderFlags doc = mkFlags false false false false
    /\ graceNotifications doc = mkGrace false false false
    /\ graceDaysUsed doc = 0
    /\ (addDays today k <= expiryDate doc
        <= setHours_end (tzOffset env2) (addDays today k) ->
        exists r w2 l,
          reminderScheduler env2 w1 = (Ok tt, w2)
          /\ trace w2 = l ++ trace w1
          /\ In (EvSendMessage (Some (sub_id ex)) tid
                               (MsgReminder k (expiryDate doc)) r) l).
Proof.
  intros Hok Hok2 Hday Hnd Hu Hex Hcp.
  destruct (createSubscription_renews env tid plan admin w u ex Hok Hu Hex)
    as [e [w1 [E [Es _]]]].
  destruct (find_some _ _ Hex) as [Hin Hq].
  assert (H1 : holds_sub (sub_id ex) (renewed plan admin e ex) w1).
  { assert (H0 : holds_sub (sub_id ex) ex w)
      by (split; [exact Hnd | apply In_sub_by_id; assumption]).
    destruct H0 as [H0a H0b]. split; rewrite Es.
    - rewrite map_id_replace_sub. exact H0a.
    - apply (sub_by_id_replace_self (renewed plan admin e ex) _ ex H0b). }
  exists (renewed plan admin e ex), w1.
  split; [exact E|]. split; [apply H1|].
  split; [reflexivity|]. split; [reflexivity|]. split; [reflexivity|].
  split; [reflexivity|].
  intros Hwin.
  destruct (reminderScheduler_spec env2 Hok2 today k flag
              (renewed plan admin e ex) w1 Hday H1 eq_refl Hcp Hwin
              (ltac:(destruct flag; reflexivity)))
    as [r [w2 [E2 [[l [El Hl]] _]]]].
  exists r, w2, l. split; [exact E2|]. split; [exact El|].
  cbn [sub_id telegramId renewed] in Hl.
  unfold active_or_grace_of in Hq. apply andb_true_iff in Hq.
  destruct Hq as [Ht _]. apply Z.eqb_eq in Ht. rewrite Ht in Hl. exact Hl.
Qed.

Lemma renewal_restarts_reminders_witness :
  exists r w2 l,
    reminderScheduler (calm_env 35)
      (snd (createSubscription (calm_env 10) 501 monthly 900
              (world_of [alice_reminded])))
    = (Ok tt, w2)
    /\ trace w2
       = l ++ trace (snd (createSubscription (calm_env 10) 501 monthly 900
                            (world_of [alice_reminded])))
    /\ In (EvSendMessage (Some 1%nat) 501 (MsgReminder 7 (DAY 42)) r) l.
Proof.
  destruct (renewal_restarts_reminders (calm_env 10) (calm_env 35) (DAY 35)
              (world_of [alice_reminded]) 501 monthly 900 alice
              alice_reminded 7 F_day7)
    as [doc [w1 [E [_ [_ [_ [_ [_ H]]]]]]]].
  - intros t. reflexivity.
  - intros t. reflexivity.
  - intros t. vm_compute. reflexivity.
  - repeat constructor. simpl. intros [].
  - reflexivity.
  - reflexivity.
  - left. reflexivity.
  - vm_compute in E. inversion E. subst doc w1. clear E.
    destruct H as [r [w2 [l [E2 [El Hl]]]]].
    + split; vm_compute; discriminate.
    + exists r, w2, l. split; [exact E2|]. split; [exact El | exact Hl].
Defined.

(** *** expireSubscription *)

Lemma update_sub_by_id_ids id f l :
  (forall s, sub_id (f s) = sub_id s) ->
  map sub_id (update_sub_by_id id f l) = map sub_id l.
Proof.
  intros Hf. unfold update_sub_by_id. rewrite map_map. apply map_ext.
  intros s. destruct (Nat.eqb (sub_id s) id); [apply Hf | reflexivity].
Qed.

Lemma sub_by_id_update id f l s :
  (forall x, sub_id (f x) = sub_id x) ->
  sub_by_id id l = Some s ->
  sub_by_id id (update_sub_by_id id f l) = Some (f s).
Proof.
  intros Hf. unfold sub_by_id, update_sub_by_id.
  induction l as [|x l IH]; simpl; [discriminate|].
  destruct (Nat.eqb_spec (sub_id x) id) as [E|E].
  - intros H. inversion H; subst. rewrite Hf, Nat.eqb_refl. reflexivity.
  - destruct (Nat.eqb_spec (sub_id x) id); [contradiction|]. exact IH.
Qed.

(** X14. expireSubscription (the store accepting the writes) sets the record
    'expired' and leaves the group alone; the next run of the reconciler in
    which the store, the membership query and the removal work leaves the
    user outside the group. *)
Theorem expired_subscriber_leaves_at_next_monitor (env env2 : Env) (w : World)
  (s : Subscription) :
  (forall t, store_fails env t = false) ->
  reliable env2 ->
  NoDup (map sub_id (subscriptions w)) ->
  In s (subscriptions w) ->
  fst (expireSubscription env s w) = Ok tt
  /\ sub_by_id (sub_id s) (subscriptions (snd (expireSubscription env s w)))
     = Some (set_status S_expired s)
  /\ (forall x, chat (snd (expireSubscription env s w)) x = chat w x)
  /\ is_present
       (chat (snd (membershipMonitor env2 (snd (expireSubscription env s w))))
             (telegramId s))
     = false.
Proof.
  intros Hok Hrel Hnd Hin. unfold expireSubscription.
  rewrite (bind_run _ (Subscription_findByIdAndUpdate_run env _ _ _ Hok)).
  rewrite (User_findOneAndUpdate_run env Hok). cbn [fst snd].
  split; [reflexivity|].
  assert (Hrec : sub_by_id (sub_id s)
                   (update_sub_by_id (sub_id s) (set_status S_expired)
                                     (subscriptions w))
                 = Some (set_status S_expired s)).
  { apply sub_by_id_update; [intros x; reflexivity|].
    apply In_sub_by_id; assumption. }
  split; [exact Hrec|]. split; [reflexivity|].
  match goal with
  | |- is_present (chat (snd (membershipMonitor env2 ?w1)) _) = false =>
      assert (S : settled (snd (membershipMonitor env2 w1)));
      [apply membershipMonitor_reliable; [exact Hrel|]
      | apply S;
        pose proof (membershipMonitor_monitored env2 w1) as M ]
  end.
  - cbn [subscriptions set_users set_subscriptions log_event].
    rewrite update_sub_by_id_ids by (intros x; reflexivity). exact Hnd.
  - match type of M with
    | NoDup ?l -> _ =>
        assert (Hnd1 : NoDup l)
    end.
    { cbn [subscriptions set_users set_subscriptions log_event].
      rewrite update_sub_by_id_ids by (intros x; reflexivity). exact Hnd. }
    specialize (M Hnd1 _ (monitored_refl _)). destruct M as [M _].
    rewrite (terminal_b_idkey _ _ (telegramId s) M).
    unfold terminal_b. apply existsb_exists.
    exists (set_status S_expired s). split.
    + cbn [subscriptions set_users set_subscriptions log_event].
      apply (sub_by_id_In _ _ _ Hrec).
    + cbn [telegramId set_status]. rewrite Z.eqb_refl. reflexivity.
Qed.

Lemma expired_subscriber_leaves_at_next_monitor_witness :
  is_present
    (chat (snd (membershipMonitor (calm_env 11)
                  (snd (expireSubscription (calm_env 10)
                          (sub_of 1 501 (DAY 20) S_active)
                          (world_of [sub_of 1 501 (DAY 20) S_active])))))
          501)
  = false.
Proof.
  apply (expired_subscriber_leaves_at_next_monitor (calm_env 10) (calm_env 11)
           (world_of [sub_of 1 501 (DAY 20) S_active])
           (sub_of 1 501 (DAY 20) S_active)).
  - intros t. reflexivity.
  - repeat split.
  - repeat constructor. simpl. intros [].
  - left. reflexivity.
Defined.

(** [loop_focus], with an invariant of the loop the turn of [s] may use. *)
Lemma loop_focus_inv (body : Subscription -> M unit) q s wf
  (I Post : World -> Prop) :
  holds_sub (sub_id s) s wf -> q s = true -> I wf ->
  (forall c, succeeds (body c)) ->
  (forall c, sub_id c <> sub_id s ->
             preserves (keeps (holds_sub (sub_id s) s)) (body c)) ->
  (forall c, sub_id c <> sub_id s -> preserves (keeps I) (body c)) ->
  (forall w1, holds_sub (sub_id s) s w1 -> I w1 ->
              exists w2, body s w1 = (Ok tt, w2) /\ Post w2) ->
  (forall c, sub_id c <> sub_id s -> preserves (keeps Post) (body c)) ->
  exists w3, forM_ (filter q (subscriptions wf)) body wf = (Ok tt, w3)
             /\ Post w3.
Proof.
  intros H0 Hq HI Hsucc Hkeep HkeepI Hself Hpost.
  destruct H0 as [Hnd Hs].
  assert (Hin : In s (filter q (subscriptions wf))).
  { apply filter_In. split; [apply (sub_by_id_In _ _ _ Hs) | exact Hq]. }
  destruct (in_split _ _ Hin) as [l1 [l2 El]].
  pose proof (NoDup_map_filter sub_id q _ Hnd) as Hndl.
  rewrite El in Hndl.
  pose proof (NoDup_split_ne sub_id l1 s l2 Hndl) as Hne.
  rewrite El, forM_app.
  assert (S1 : succeeds (forM_ l1 body))
    by (apply succ_forM_; intros c _; apply Hsucc).
  destruct (succ_run S1 wf) as [[] [w1 E1]].
  rewrite (bind_run _ E1). simpl forM_.
  assert (H1 : holds_sub (sub_id s) s w1).
  { refine (keeps_run _ _ E1); [|split; assumption].
    apply pres_forM_; [typeclasses eauto|]. intros c Hc.
    apply Hkeep. apply Hne. left. exact Hc. }
  assert (I1 : I w1).
  { refine (keeps_run _ HI E1).
    apply pres_forM_; [typeclasses eauto|]. intros c Hc.
    apply HkeepI. apply Hne. left. exact Hc. }
  destruct (Hself w1 H1 I1) as [w2 [E2 P2]].
  rewrite (bind_run _ E2).
  assert (S3 : succeeds (forM_ l2 body))
    by (apply succ_forM_; intros c _; apply Hsucc).
  destruct (succ_run S3 w2) as [[] [w3 E3]].
  exists w3. split; [exact E3|].
  refine (keeps_run _ P2 E3).
  apply pres_forM_; [typeclasses eauto|]. intros c Hc.
  apply Hpost. apply Hne. right. exact Hc.
Qed.

Lemma generateInviteLink_run env tid w :
  generateInviteLink env tid w
  = (Ok (createChatInviteLink_result env (tick w) tid),
     log_event (EvCreateInviteLink tid
                  (createChatInviteLink_result env (tick w) tid)) w).
Proof.
  unfold generateInviteLink, try_catch, bind, createChatInviteLink.
  cbv zeta. destruct (createChatInviteLink_result env (tick w) tid);
    reflexivity.
Qed.

Section MonitorStoreOk.

Variable env : Env.
Hypothesis store_ok : forall t, store_fails env t = false.
Hypothesis query_ok : forall t x, getChatMember_fails env t x = false.

Lemma monitorActive_reinvites w0 l s w :
  (forall t, createChatInviteLink_result env t (telegramId s) = Some l) ->
  l <> EmptyString ->
  holds_sub (sub_id s) s w -> since w0 w -> absent (telegramId s) w ->
  exists w', monitorActive env s w = (Ok tt, w') /\ reinvited_post w0 l s w'.
Proof.
  intros Hlink Hl H0 Hs0 Habs. unfold monitorActive.
  pose proof (isGroupMember_run env (telegramId s) w) as E1.
  rewrite query_ok in E1. rewrite (bind_run _ E1). rewrite Habs.
  rewrite (bind_run _ (generateInviteLink_run env _ _)). rewrite Hlink.
  destruct (String.eqb_spec l EmptyString) as [E|_]; [contradiction|].
  rewrite (bind_run _ (save_run env store_ok _ _)).
  match goal with
  | |- context [bind (safeSend env ?o ?t ?m) _ ?w3] =>
      assert (Hs3 : since w0 w3) by (repeat apply since_event; exact Hs0);
      destruct (succ_run (safeSend_succeeds env o t m) w3) as [sent [w4 E4]];
      destruct (safeSend_event env w0 o t m w3 Hs3) as [r [Hsend _]]
  end.
  rewrite (bind_run _ E4). rewrite E4 in Hsend. simpl in Hsend.
  eexists. split; [reflexivity|]. split; [|split].
  - through E4.
    apply (holds_sub_replace_self s (set_inviteLink (Some l) s)).
    repeat apply holds_sub_event. exact H0.
  - through E4. apply emitted_event.
    apply (emitted_now w0 _ (log_event (EvGetChatMember (telegramId s) true) w)).
    apply since_event. exact Hs0.
  - exists r. exact Hsend.
Qed.

Lemma monitorActive_keeps_absent tid c :
  preserves (keeps (absent tid)) (monitorActive env c).
Proof.
  assert (H : preserves chat_same (monitorActive env c)) by (pres; stab).
  intros w Hw. unfold absent in *. rewrite (H w). exact Hw.
Qed.

Lemma membershipMonitor_reinvites l s w :
  (forall t, createChatInviteLink_result env t (telegramId s) = Some l) ->
  l <> EmptyString ->
  holds_sub (sub_id s) s w ->
  status s = S_active ->
  clock env (tick w) < expiryDate s ->
  absent (telegramId s) w ->
  exists w', membershipMonitor env w = (Ok tt, w') /\ reinvited_post w l s w'.
Proof.
  intros Hlink Hl H0 Hst Hexp Habs. unfold membershipMonitor.
  rewrite (bind_run _ (now_run env w)).
  rewrite (bind_run _ (find_run env store_ok _ _)).
  match goal with
  | |- context [bind (forM_ _ (monitorActive env)) _ ?w2] => set (wf := w2)
  end.
  change (subscriptions (log_event (EvNow (clock env (tick w))) w))
    with (subscriptions wf).
  assert (Hsf : since w wf) by (repeat apply since_event; apply since_refl).
  destruct (loop_focus_inv (monitorActive env)
              (monitor_active_query (clock env (tick w))) s wf
              (inv_and (since w) (absent (telegramId s)))
              (reinvited_post w l s)) as [w1 [E1 P1]].
  - exact H0.
  - unfold monitor_active_query. rewrite Hst. simpl.
    apply Z.ltb_lt. exact Hexp.
  - split; [exact Hsf | exact Habs].
  - intros c. apply monitorActive_succeeds. exact store_ok.
  - intros c Hc. pres; inv_side.
  - intros c Hc.
    assert (K : preserves (keeps (since w)) (monitorActive env c))
      by (pres; inv_side).
    intros w1 [I1 I2]. split.
    + apply K. exact I1.
    + apply monitorActive_keeps_absent. exact I2.
  - intros w1 H1 [I1 I2].
    apply (monitorActive_reinvites w l s w1 Hlink Hl H1 I1 I2).
  - intros c Hc. unfold reinvited_post. pres; inv_side.
  - rewrite (bind_run _ E1).
    rewrite (bind_run _ (find_run env store_ok _ _)).
    rewrite forM_exec_all by (intros c _; apply monitorExpired_succeeds).
    eexists. split; [reflexivity|].
    apply exec_all_keeps.
    + intros c. unfold reinvited_post. pres; inv_side.
    + destruct P1 as [Q1 [Q2 [r Q3]]].
      split; [apply holds_sub_event; exact Q1|].
      split; [apply emitted_event; exact Q2|].
      exists r. apply emitted_event. exact Q3.
Qed.

End MonitorStoreOk.

(** X15. The reconciler invites back a subscriber in good standing who is
    not in the group: for an 'active' subscription with its expiry ahead
    whose user is absent (store and membership query working, Telegram
    issuing the link [l]) the run asks for an invite link, stores it in the
    record and sends the rejoin message that carries it. *)
Theorem monitor_reinvites_absent_subscriber (env : Env) (w : World)
  (s : Subscription) (l : string) :
  (forall t, store_fails env t = false) ->
  (forall t x, getChatMember_fails env t x = false) ->
  (forall t, createChatInviteLink_result env t (telegramId s) = Some l) ->
  l <> EmptyString ->
  NoDup (map sub_id (subscriptions w)) ->
  In s (subscriptions w) ->
  status s = S_active ->
  clock env (tick w) < expiryDate s ->
  is_present (chat w (telegramId s)) = false ->
  exists w',
    membershipMonitor env w = (Ok tt, w')
    /\ sub_by_id (sub_id s) (subscriptions w')
       = Some (set_inviteLink (Some l) s)
    /\ exists lt r,
         trace w' = lt ++ trace w
         /\ In (EvCreateInviteLink (telegramId s) (Some l)) lt
         /\ In (EvSendMessage (Some (sub_id s)) (telegramId s) (MsgRejoin l) r)
               lt.
Proof.
  intros Hok Hq Hlink Hl Hnd Hin Hst Hexp Habs.
  assert (H0 : holds_sub (sub_id s) s w).
  { split; [exact Hnd | apply In_sub_by_id; assumption]. }
  destruct (membershipMonitor_reinvites env Hok Hq l s w Hlink Hl H0 Hst Hexp
                                        Habs)
    as [w' [E [P1 [P2 [r P3]]]]].
  exists w'. split; [exact E|]. split; [apply P1|].
  destruct P2 as [lt [El Hlt]]. exists lt, r.
  split; [exact El|]. split; [exact Hlt|].
  apply (emitted_in w _ w' lt P3 El).
Qed.

Lemma monitor_reinvites_absent_subscriber_witness :
  exists w',
    membershipMonitor (calm_env 10) bob_left = (Ok tt, w')
    /\ sub_by_id 1 (subscriptions w')
       = Some (set_inviteLink (Some "https://t.me/+invite"%string)
                              (sub_of 1 502 (DAY 20) S_active)).
Proof.
  destruct (monitor_reinvites_absent_subscriber (calm_env 10) bob_left
              (sub_of 1 502 (DAY 20) S_active) "https://t.me/+invite"%string)
    as [w' [E [H _]]].
  - intros t. reflexivity.
  - intros t x. reflexivity.
  - intros t. reflexivity.
  - discriminate.
  - repeat constructor. simpl. intros [].
  - left. reflexivity.
  - reflexivity.
  - vm_compute. reflexivity.
  - reflexivity.
  - exists w'. split; [exact E | exact H].
Defined.

Lemma try_catch_bind_run {A B} {m : M A} (k : A -> M B) h {w a w1} :
  m w = (Ok a, w1) -> try_catch (bind m k) h w = try_catch (k a) h w1.
Proof. intros E. unfold try_catch. rewrite (bind_run _ E). reflexivity. Qed.

(** The creation branch of createSubscription when the store works. *)
Lemma createSubscription_creates env tid plan admin w u :
  (forall t, store_fails env t = false) ->
  find (by_telegramId tid) (users w) = Some u ->
  find (active_or_grace_of tid) (subscriptions w) = None ->
  exists start w1,
    createSubscription env tid plan admin w
    = (Ok (created u tid plan admin start
                   (addDays start (plan_durationDays plan))
                   (fresh_id (subscriptions w))), w1)
    /\ subscriptions w1
       = subscriptions w
         ++ [created u tid plan admin start
                     (addDays start (plan_durationDays plan))
                     (fresh_id (subscriptions w))]
    /\ (forall x, chat w1 x = chat w x)
    /\ since w w1.
Proof.
  intros Hok Hu Hex.
  assert (Hs : since w (snd (createSubscription env tid plan admin w))).
  { assert (K : preserves (keeps (since w))
                          (createSubscription env tid plan admin))
      by (pres; inv_side).
    apply K. apply since_refl. }
  revert Hs. unfold createSubscription.
  rewrite (bind_run _ (User_findOne_run env Hok _ _)). rewrite Hu.
  rewrite (bind_run _ (findOne_run env Hok _ _)).
  cbn [subscriptions log_event]. rewrite Hex.
  rewrite (bind_run _ (now_run env _)). cbv zeta.
  match goal with
  | |- context [bind (Subscription_create env ?mk) _ ?w1] =>
      destruct (create_outcome env mk w1) as [E2|E2]
  end.
  { unfold Subscription_create, bind, store in E2. rewrite Hok in E2.
    discriminate E2. }
  rewrite (bind_run _ E2).
  rewrite (bind_run _ (User_findByIdAndUpdate_run env Hok _ _ _)).
  intros Hs.
  eexists. eexists. split; [reflexivity|].
  split; [reflexivity|]. split; [reflexivity|]. exact Hs.
Qed.

Lemma watching_update sid (P : Subscription -> Prop) id f :
  (forall s, sub_id (f s) = sub_id s) ->
  (forall s, P s -> P (f s)) ->
  stable_modify (keeps (watching sid P))
                (set_subscriptions (update_sub_by_id id f)).
Proof.
  intros Hid HP w [cur [[Hnd Hc] Pc]].
  cbn [subscriptions set_subscriptions].
  destruct (Nat.eq_dec id sid) as [->|Hne].
  - exists (f cur). split; [|apply HP; exact Pc]. split.
    + cbn [subscriptions set_subscriptions].
      rewrite update_sub_by_id_ids by exact Hid. exact Hnd.
    + apply sub_by_id_update; assumption.
  - exists cur. split; [|exact Pc]. split.
    + cbn [subscriptions set_subscriptions].
      rewrite update_sub_by_id_ids by exact Hid. exact Hnd.
    + cbn [subscriptions set_subscriptions]. clear Hnd.
      unfold sub_by_id, update_sub_by_id in *.
      induction (subscriptions w) as [|x l IH]; simpl in *; [discriminate|].
      destruct (Nat.eqb_spec (sub_id x) id) as [E|E].
      * rewrite Hid.
        destruct (Nat.eqb_spec (sub_id x) sid) as [E'|E']; [congruence|].
        apply IH. exact Hc.
      * destruct (Nat.eqb_spec (sub_id x) sid) as [E'|E'];
          [exact Hc | apply IH; exact Hc].
Qed.

Lemma no_invite_event w0 ev :
  no_invite ev -> stable_event (keeps (trace_new no_invite w0)) ev.
Proof. apply keeps_trace_new. Qed.

Ltac approve_side :=
  first
    [ apply keeps_and_event; approve_side
    | apply keeps_and_modify; approve_side
    | apply watching_update; [intros ?; reflexivity | intros ? ?; assumption]
    | apply no_invite_event; intros ? ?; discriminate
    | unfold watching; inv_side ].

Section ApproveStoreOk.

Variable env : Env.
Hypothesis store_ok : forall t, store_fails env t = false.
Hypothesis query_ok : forall t x, getChatMember_fails env t x = false.

Lemma awardReferralBonus_succeeds tid : succeeds (awardReferralBonus env tid).
Proof. succ. Qed.

Lemma fresh_id_new l : ~ In (fresh_id l) (map sub_id l).
Proof.
  intros H. apply in_map_iff in H. destruct H as [s [E Hs]].
  pose proof (fresh_id_above l s Hs). lia.
Qed.

(** The approval of a first subscription, step by step. *)
Lemma approve_creates w tid plan admin u l :
  (forall t, createChatInviteLink_result env t tid = Some l) ->
  l <> EmptyString ->
  NoDup (map sub_id (subscriptions w)) ->
  find (by_telegramId tid) (users w) = Some u ->
  find (active_or_grace_of tid) (subscriptions w) = None ->
  exists w',
    approve env tid plan admin w = (Ok tt, w')
    /\ approved_post w (fresh_id (subscriptions w)) tid l w'
    /\ (exists r, emitted w (EvSendMessage None tid MsgApproved r) w')
    /\ logged w (mkLog admin approve_request tid
                   (DApproval (plan_name plan) (plan_durationDays plan) false))
              w'.
Proof.
  intros Hlink Hl Hnd Hu Hex.
  destruct (createSubscription_creates env tid plan admin w u store_ok Hu Hex)
    as [start [w1 [E1 [Es1 [_ Hs1]]]]].
  set (doc := created u tid plan admin start
                      (addDays start (plan_durationDays plan))
                      (fresh_id (subscriptions w))) in *.
  assert (H1 : holds_sub (fresh_id (subscriptions w)) doc w1).
  { assert (Hnd1 : NoDup (map sub_id (subscriptions w1))).
    { rewrite Es1, map_app. cbn [map]. apply NoDup_app;
        [exact Hnd | repeat constructor; intros [] |].
      intros i Hi [<-|[]]. apply (fresh_id_new _ Hi). }
    split; [exact Hnd1|].
    apply (In_sub_by_id (s := doc) Hnd1).
    rewrite Es1. apply in_or_app. right. left. reflexivity. }
  unfold approve. rewrite (try_catch_bind_run _ _ E1).
  unfold try_catch at 1.
  rewrite (bind_run _ (store_run env store_ok _ _)).
  match goal with
  | |- context [bind (isGroupMember env tid) _ ?w2] =>
      pose proof (isGroupMember_run env tid w2) as E2;
      rewrite query_ok in E2
  end.
  rewrite (bind_run _ E2). cbn [isRenewal doc created andb].
  rewrite bind_assoc.
  rewrite (bind_run _ (generateInviteLink_run env _ _)). rewrite Hlink.
  destruct (String.eqb_spec l EmptyString) as [E|_]; [contradiction|].
  rewrite (bind_run _ (Subscription_findByIdAndUpdate_run env _ _ _ store_ok)).
  match goal with
  | |- context [bind (safeSend env ?o ?t ?m) _ ?w3] =>
      assert (P3 : approved_post w (fresh_id (subscriptions w)) tid l w3)
  end.
  { split; [|split].
    - exists (set_inviteLink (Some l) doc). split; [|repeat split].
      destruct H1 as [H1a H1b]. split.
      + cbn [subscriptions set_subscriptions log_event].
        rewrite update_sub_by_id_ids by (intros x; reflexivity). exact H1a.
      + cbn [subscriptions set_subscriptions log_event].
        apply (sub_by_id_update _ _ _ doc); [intros x; reflexivity | exact H1b].
    - apply emitted_event.
      match goal with
      | |- emitted w ?ev (log_event ?ev ?w0) => apply (emitted_now w ev w0)
      end.
      repeat apply since_event. exact Hs1.
    - repeat apply since_event. exact Hs1. }
  match goal with
  | |- context [bind (safeSend env ?o ?t ?m) _ ?w3] =>
      destruct (succ_run (safeSend_succeeds env o t m) w3) as [sent [w4 E4]];
      destruct (safeSend_event env w o t m w3 (proj2 (proj2 P3)))
        as [r [Hsend _]]
  end.
  rewrite (bind_run _ E4). rewrite E4 in Hsend. simpl in Hsend.
  destruct (succ_run (awardReferralBonus_succeeds tid) w4) as [[] [w5 E5]].
  rewrite (bind_run _ E5).
  match goal with
  | |- context [bind (logToChannel env ?m) _ _] =>
      destruct (succ_run (logToChannel_succeeds env m) w5) as [[] [w6 E6]]
  end.
  rewrite (bind_run _ E6). rewrite (AdminLog_create_run env store_ok).
  assert (P4 : approved_post w (fresh_id (subscriptions w)) tid l w4).
  { refine (keeps_run _ P3 E4). unfold approved_post. pres; approve_side. }
  assert (P5 : approved_post w (fresh_id (subscriptions w)) tid l w5).
  { refine (keeps_run _ P4 E5). unfold approved_post. pres; approve_side. }
  assert (P6 : approved_post w (fresh_id (subscriptions w)) tid l w6).
  { refine (keeps_run _ P5 E6). unfold approved_post. pres; approve_side. }
  eexists. split; [reflexivity|]. split; [|split].
  - revert P6. unfold approved_post.
    match goal with
    | |- ?I w6 -> ?I (set_adminLogs ?f (log_event ?ev w6)) =>
        assert (K1 : stable_event (keeps I) ev) by approve_side;
        assert (K2 : stable_modify (keeps I) (set_adminLogs f))
          by approve_side;
        intros P6; apply K2, K1, P6
    end.
  - exists r. apply emitted_event.
    refine (keeps_run _ _ E6); [pres; inv_side|].
    refine (keeps_run _ Hsend E5). pres; inv_side.
  - apply logged_now. apply since_event. apply P6.
Qed.

(** The approval of a renewal for a user who is in the group. *)
Lemma approve_renews_in_group w tid plan admin u ex :
  NoDup (map sub_id (subscriptions w)) ->
  find (by_telegramId tid) (users w) = Some u ->
  find (active_or_grace_of tid) (subscriptions w) = Some ex ->
  is_present (chat w tid) = true ->
  exists w',
    approve env tid plan admin w = (Ok tt, w')
    /\ renewed_post w ex w'
    /\ (exists r, emitted w (EvSendMessage None tid MsgApproved r) w')
    /\ (forall x, chat w' x = chat w x).
Proof.
  intros Hnd Hu Hex Hin.
  destruct (createSubscription_renews env tid plan admin w u ex store_ok Hu Hex)
    as [e [w1 [E1 [Es1 [_ Ec1]]]]].
  set (doc := renewed plan admin e ex) in *.
  assert (K1 : inv_and (trace_new no_invite w) (since w) w1).
  { assert (K : preserves (keeps (inv_and (trace_new no_invite w) (since w)))
                          (createSubscription env tid plan admin))
      by (pres; approve_side).
    specialize (K w). rewrite E1 in K. apply K.
    split; [apply frame_refl | apply since_refl]. }
  assert (H1 : holds_sub (sub_id ex) doc w1).
  { destruct (find_some _ _ Hex) as [Hi _].
    assert (H0 : holds_sub (sub_id ex) ex w)
      by (split; [exact Hnd | apply In_sub_by_id; assumption]).
    destruct H0 as [H0a H0b]. split; rewrite Es1.
    - rewrite map_id_replace_sub. exact H0a.
    - apply (sub_by_id_replace_self doc _ ex H0b). }
  unfold approve. rewrite (try_catch_bind_run _ _ E1).
  unfold try_catch at 1.
  rewrite (bind_run _ (store_run env store_ok _ _)).
  match goal with
  | |- context [bind (isGroupMember env tid) _ ?w2] =>
      pose proof (isGroupMember_run env tid w2) as E2;
      rewrite query_ok in E2
  end.
  rewrite (bind_run _ E2). cbn [chat log_event]. rewrite Ec1, Hin.
  cbn [isRenewal doc renewed andb]. rewrite bind_ret.
  match goal with
  | |- context [bind (safeSend env ?o ?t ?m) _ ?w3] =>
      assert (P3 : renewed_post w ex w3)
  end.
  { destruct K1 as [K1a K1b]. split; [|split].
    - exists doc. split; [|repeat split].
      repeat apply holds_sub_event. exact H1.
    - repeat (apply no_invite_event; [intros ? ?; discriminate|]).
      exact K1a.
    - repeat apply since_event. exact K1b. }
  match goal with
  | |- context [bind (safeSend env ?o ?t ?m) ?k ?w3] =>
      destruct (succ_run (safeSend_succeeds env o t m) w3) as [sent [w4 E4]];
      destruct (safeSend_event env w o t m w3 (proj2 (proj2 P3)))
        as [r [Hsend _]];
      assert (Hc : preserves chat_same (bind (safeSend env o t m) k))
        by (pres; stab);
      specialize (Hc w3)
  end.
  revert Hc.
  rewrite (bind_run _ E4). rewrite E4 in Hsend. simpl in Hsend.
  destruct (succ_run (awardReferralBonus_succeeds tid) w4) as [[] [w5 E5]].
  rewrite (bind_run _ E5).
  match goal with
  | |- context [bind (logToChannel env ?m) _ _] =>
      destruct (succ_run (logToChannel_succeeds env m) w5) as [[] [w6 E6]]
  end.
  rewrite (bind_run _ E6). rewrite (AdminLog_create_run env store_ok).
  cbn [snd]. intros Hc.
  assert (P4 : renewed_post w ex w4).
  { refine (keeps_run _ P3 E4). unfold renewed_post. pres; approve_side. }
  assert (P5 : renewed_post w ex w5).
  { refine (keeps_run _ P4 E5). unfold renewed_post. pres; approve_side. }
  assert (P6 : renewed_post w ex w6).
  { refine (keeps_run _ P5 E6). unfold renewed_post. pres; approve_side. }
  eexists. split; [reflexivity|]. split; [|split].
  - revert P6. unfold renewed_post.
    match goal with
    | |- ?I w6 -> ?I (set_adminLogs ?f (log_event ?ev w6)) =>
        assert (K3 : stable_event (keeps I) ev) by approve_side;
        assert (K2 : stable_modify (keeps I) (set_adminLogs f))
          by approve_side;
        intros P6; apply K2, K3, P6
    end.
  - exists r. apply emitted_event.
    refine (keeps_run _ _ E6); [pres; inv_side|].
    refine (keeps_run _ Hsend E5). pres; inv_side.
  - intros x. rewrite (Hc x). cbn [chat log_event]. rewrite Ec1. reflexivity.
Qed.

End ApproveStoreOk.

(** X16. Approving a plan for a user on record who has no active or in-grace
    subscription (store and membership query working, Telegram issuing the
    link [l]) creates one record under an [_id] that was not in use:
    'active', not a renewal, with inviteLink [l].  The invite link was asked
    of Telegram, the approval message was sent to the user and the audit log
    gained the approve_request entry with isRenewal false. *)
Theorem approval_of_first_subscription (env : Env) (w : World) (tid : Z)
  (plan : Plan) (admin : Z) (u : User) (l : string) :
  (forall t, store_fails env t = false) ->
  (forall t x, getChatMember_fails env t x = false) ->
  (forall t, createChatInviteLink_result env t tid = Some l) ->
  l <> EmptyString ->
  NoDup (map sub_id (subscriptions w)) ->
  find (by_telegramId tid) (users w) = Some u ->
  find (active_or_grace_of tid) (subscriptions w) = None ->
  exists w' doc,
    approve env tid plan admin w = (Ok tt, w')
    /\ sub_by_id (fresh_id (subscriptions w)) (subscriptions w') = Some doc
    /\ ~ In (fresh_id (subscriptions w)) (map sub_id (subscriptions w))
    /\ telegramId doc = tid /\ status doc = S_active
    /\ isRenewal doc = false /\ inviteLink doc = Some l
    /\ (exists lt r,
          trace w' = lt ++ trace w
          /\ In (EvCreateInviteLink tid (Some l)) lt
          /\ In (EvSendMessage None tid MsgApproved r) lt)
    /\ exists la,
         adminLogs w' = la ++ adminLogs w
         /\ In (mkLog admin approve_request tid
                  (DApproval (plan_name plan) (plan_durationDays plan) false))
               la.
Proof.
  intros Hok Hq Hlink Hl Hnd Hu Hex.
  destruct (approve_creates env Hok Hq w tid plan admin u l Hlink Hl Hnd Hu Hex)
    as [w' [E [[[doc [[_ Hdoc] [D1 [D2 [D3 D4]]]]] [[lt [Elt Hlt]] _]]
               [[r Hr] Hlog]]]].
  exists w', doc. split; [exact E|]. split; [exact Hdoc|].
  split; [apply fresh_id_new|].
  repeat (split; [assumption|]). split.
  - exists lt, r. split; [exact Elt|]. split; [exact Hlt|].
    apply (emitted_in w _ w' lt Hr Elt).
  - exact Hlog.
Qed.

Lemma approval_of_first_subscription_witness :
  exists w' doc,
    approve (calm_env 10) 502 monthly 900 fresh_world = (Ok tt, w')
    /\ sub_by_id 1 (subscriptions w') = Some doc
    /\ inviteLink doc = Some "https://t.me/+invite"%string.
Proof.
  destruct (approval_of_first_subscription (calm_env 10) fresh_world 502
              monthly 900 bob "https://t.me/+invite"%string)
    as [w' [doc [E [H [_ [_ [_ [_ [L _]]]]]]]]].
  - intros t. reflexivity.
  - intros t x. reflexivity.
  - intros t. reflexivity.
  - discriminate.
  - constructor.
  - reflexivity.
  - reflexivity.
  - exists w', doc. split; [exact E|]. split; [exact H | exact L].
Defined.

(** X17. Approving a renewal for a user who is in the group (store and
    membership query working): the record is renewed under its [_id] and
    keeps the inviteLink it had, no invite link is asked of Telegram, the
    approval message is sent and the group is unchanged. *)
Theorem renewal_in_group_gets_no_link (env : Env) (w : World) (tid : Z)
  (plan : Plan) (admin : Z) (u : User) (ex : Subscription) :
  (forall t, store_fails env t = false) ->
  (forall t x, getChatMember_fails env t x = false) ->
  NoDup (map sub_id (subscriptions w)) ->
  find (by_telegramId tid) (users w) = Some u ->
  find (active_or_grace_of tid) (subscriptions w) = Some ex ->
  is_present (chat w tid) = true ->
  exists w' doc,
    approve env tid plan admin w = (Ok tt, w')
    /\ sub_by_id (sub_id ex) (subscriptions w') = Some doc
    /\ status doc = S_active /\ isRenewal doc = true
    /\ inviteLink doc = inviteLink ex
    /\ (exists lt r,
          trace w' = lt ++ trace w
          /\ Forall (fun ev => forall t l, ev <> EvCreateInviteLink t l) lt
          /\ In (EvSendMessage None tid MsgApproved r) lt)
    /\ forall x, chat w' x = chat w x.
Proof.
  intros Hok Hq Hnd Hu Hex Hin.
  destruct (approve_renews_in_group env Hok Hq w tid plan admin u ex Hnd Hu
                                    Hex Hin)
    as [w' [E [[[doc [[_ Hdoc] [D1 [D2 D3]]]] [[lt [Elt Hlt]] _]]
               [[r Hr] Hc]]]].
  exists w', doc. split; [exact E|]. split; [exact Hdoc|].
  repeat (split; [assumption|]). split; [|exact Hc].
  exists lt, r. split; [exact Elt|]. split; [exact Hlt|].
  apply (emitted_in w _ w' lt Hr Elt).
Qed.

Lemma renewal_in_group_gets_no_link_witness :
  exists w' doc,
    approve (calm_env 10) 501 monthly 900
            (world_of [sub_of 1 501 (DAY 20) S_active]) = (Ok tt, w')
    /\ sub_by_id 1 (subscriptions w') = Some doc
    /\ inviteLink doc = None.
Proof.
  destruct (renewal_in_group_gets_no_link (calm_env 10)
              (world_of [sub_of 1 501 (DAY 20) S_active]) 501 monthly 900
              alice (sub_of 1 501 (DAY 20) S_active))
    as [w' [doc [E [H [_ [_ [L _]]]]]]].
  - intros t. reflexivity.
  - intros t x. reflexivity.
  - repeat constructor. simpl. intros [].
  - reflexivity.
  - reflexivity.
  - reflexivity.
  - exists w', doc. split; [exact E|]. split; [exact H | exact L].
Defined.

(** *** Dates *)

Lemma ceil_div_spec a b :
  0 < b -> (ceil_div a b - 1) * b < a <= ceil_div a b * b.
Proof.
  intros Hb. unfold ceil_div.
  pose proof (Z.div_mod (- a) b ltac:(lia)) as E.
  pose proof (Z.mod_pos_bound (- a) b Hb) as Hr.
  nia.
Qed.

Lemma setHours_0_bounds tz d :
  setHours_0 tz d <= d < setHours_0 tz d + MS_PER_DAY.
Proof.
  unfold setHours_0.
  pose proof (Z.mod_pos_bound (d + tz) MS_PER_DAY MS_PER_DAY_pos). lia.
Qed.

(** A local midnight moved by whole days is a local midnight. *)
Lemma setHours_0_addDays tz d k :
  setHours_0 tz (addDays (setHours_0 tz d) k) = addDays (setHours_0 tz d) k.
Proof.
  unfold setHours_0, addDays.
  pose proof (Z.div_mod (d + tz) MS_PER_DAY ltac:(discriminate)) as E.
  set (q := (d + tz) / MS_PER_DAY) in *.
  set (r := (d + tz) mod MS_PER_DAY) in *.
  replace (d + tz - r - tz + k * MS_PER_DAY + tz)
    with ((q + k) * MS_PER_DAY) by lia.
  rewrite Z.mod_mul by discriminate. lia.
Qed.

(** X18. daysRemaining returns the time left in days, rounded up: the [n]
    with (n - 1) days < expiry - now <= n days.  It is at least 1 exactly
    while the expiry is ahead, and for an expiry in the window of the
    checkpoint [k] days ahead of today it is [k] or [k + 1]. *)
Theorem daysRemaining_rounds_up (env : Env) (expiry : Z) (w : World) :
  exists n,
    fst (daysRemaining env expiry w) = Ok n
    /\ (n - 1) * MS_PER_DAY < expiry - clock env (tick w) <= n * MS_PER_DAY
    /\ (1 <= n <-> clock env (tick w) < expiry)
    /\ forall k,
         let today := setHours_0 (tzOffset env) (clock env (tick w)) in
         addDays today k <= expiry
         <= setHours_end (tzOffset env) (addDays today k) ->
         k <= n <= k + 1.
Proof.
  exists (ceil_div (expiry - clock env (tick w)) MS_PER_DAY).
  split; [reflexivity|].
  pose proof (ceil_div_spec (expiry - clock env (tick w)) MS_PER_DAY
                            MS_PER_DAY_pos) as H.
  pose proof MS_PER_DAY_pos as HD.
  split; [exact H|]. split; [split; intros; nia|].
  intros k today [H1 H2].
  pose proof (setHours_0_bounds (tzOffset env) (clock env (tick w))) as Hb.
  fold today in Hb.
  unfold setHours_end in H2. unfold today in H2 at 1.
  rewrite setHours_0_addDays in H2. fold today in H2.
  unfold addDays in *. nia.
Qed.

Lemma getDay_range tz d : 0 <= getDay tz d < 7.
Proof. unfold getDay. apply Z.mod_pos_bound. lia. Qed.

(** X19. startOfWeek returns the local midnight that begins the Monday of
    the current week: a midnight, on a Monday, not after the present instant
    and less than seven days before it (on a Sunday, the Monday six days
    back). *)
Theorem startOfWeek_is_last_monday (env : Env) (w : World) :
  exists m,
    fst (startOfWeek env w) = Ok m
    /\ getDay (tzOffset env) m = 1
    /\ setHours_0 (tzOffset env) m = m
    /\ m <= clock env (tick w) < m + 7 * MS_PER_DAY.
Proof.
  eexists. split; [reflexivity|].
  set (t := clock env (tick w)). set (tz := tzOffset env).
  pose proof (getDay_range tz t) as Hday.
  set (day := getDay tz t) in *.
  set (diff := - day + (if day =? 0 then -6 else 1)).
  assert (Hdiff : -6 <= diff <= 0).
  { unfold diff. destruct (Z.eqb_spec day 0); lia. }
  assert (Em : setHours_0 tz (addDays t diff)
               = ((t + tz) / MS_PER_DAY + diff) * MS_PER_DAY - tz).
  { unfold setHours_0, addDays.
    pose proof (Z.div_mod (t + tz) MS_PER_DAY ltac:(discriminate)) as E.
    replace (t + diff * MS_PER_DAY + tz) with (t + tz + diff * MS_PER_DAY)
      by lia.
    rewrite Z.mod_add by discriminate. lia. }
  rewrite Em.
  pose proof (Z.div_mod (t + tz) MS_PER_DAY ltac:(discriminate)) as E.
  pose proof (Z.mod_pos_bound (t + tz) MS_PER_DAY MS_PER_DAY_pos) as Hr.
  pose proof MS_PER_DAY_pos as HD.
  set (n := (t + tz) / MS_PER_DAY) in *.
  split; [|split].
  - unfold getDay.
    replace ((n + diff) * MS_PER_DAY - tz + tz) with ((n + diff) * MS_PER_DAY)
      by lia.
    rewrite Z.div_mul by discriminate.
    assert (Eday : day = (n + 4) mod 7) by reflexivity.
    pose proof (Z.div_mod (n + 4) 7 ltac:(discriminate)) as E7.
    rewrite <- Eday in E7.
    unfold diff. destruct (Z.eqb_spec day 0) as [E0|E0].
    + replace (n + (- day + -6) + 4) with (1 + ((n + 4) / 7 - 1) * 7) by lia.
      rewrite Z.mod_add by discriminate. reflexivity.
    + replace (n + (- day + 1) + 4) with (1 + ((n + 4) / 7) * 7) by lia.
      rewrite Z.mod_add by discriminate. reflexivity.
  - unfold setHours_0.
    replace ((n + diff) * MS_PER_DAY - tz + tz) with ((n + diff) * MS_PER_DAY)
      by lia.
    rewrite Z.mod_mul by discriminate. lia.
  - nia.
Qed.

Lemma endOfToday_run env w :
  endOfToday env w
  = (Ok (setHours_end (tzOffset env) (clock env (tick w))),
     log_event (EvNow (clock env (tick w))) w).
Proof. reflexivity. Qed.

Lemma setHours_0_idem tz d : setHours_0 tz (setHours_0 tz d) = setHours_0 tz d.
Proof.
  pose proof (setHours_0_addDays tz d 0) as H. unfold addDays in H.
  rewrite Z.add_0_r in H. exact H.
Qed.

Lemma in_window today k e :
  today + k * MS_PER_DAY <= e <= today + k * MS_PER_DAY + (MS_PER_DAY - 1)
  <-> k = (e - today) / MS_PER_DAY.
Proof.
  pose proof MS_PER_DAY_pos as HD.
  pose proof (Z.div_mod (e - today) MS_PER_DAY ltac:(lia)) as E.
  pose proof (Z.mod_pos_bound (e - today) MS_PER_DAY HD) as Hr.
  split.
  - intros [H1 H2]. apply (Z.div_unique (e - today) MS_PER_DAY k
                                        (e - today - k * MS_PER_DAY)); lia.
  - intros ->. lia.
Qed.

(** X20. The day windows of getSubscriptionsExpiringSoon tile the time line
    (the store answering, the calls within one day): an active subscription
    is returned for daysAhead = k exactly when [k] is the whole number of
    days from today's midnight to its expiry; getExpiredUnprocessed returns
    it exactly when that number is negative; and getTodayExpiryList returns
    what getSubscriptionsExpiringSoon(0) returns. *)
Theorem expiry_windows_tile (env : Env) (today : Z) (w : World)
  (s : Subscription) :
  (forall t, store_fails env t = false) ->
  (forall t, setHours_0 (tzOffset env) (clock env t) = today) ->
  In s (subscriptions w) ->
  status s = S_active ->
  (forall k, exists l,
       fst (getSubscriptionsExpiringSoon env k w) = Ok l
       /\ (In s l <-> k = (expiryDate s - today) / MS_PER_DAY))
  /\ (exists l,
        fst (getExpiredUnprocessed env w) = Ok l
        /\ (In s l <-> (expiryDate s - today) / MS_PER_DAY < 0))
  /\ fst (getTodayExpiryList env w) = fst (getSubscriptionsExpiringSoon env 0 w).
Proof.
  intros Hok Hday Hin Hst.
  assert (Hmid : forall k, setHours_0 (tzOffset env) (addDays today k)
                           = addDays today k).
  { intros k. rewrite <- (Hday 0%nat). apply setHours_0_addDays. }
  split; [|split].
  - intros k. unfold getSubscriptionsExpiringSoon.
    rewrite (bind_run _ (startOfToday_run env w)). rewrite Hday. cbv zeta.
    rewrite (find_run env Hok). eexists. split; [reflexivity|].
    cbn [subscriptions log_event]. rewrite filter_In.
    unfold expiring_query, setHours_end. rewrite Hst, Hmid.
    cbn [SubStatus_eqb andb]. rewrite andb_true_iff, !Z.leb_le.
    rewrite <- (in_window today k (expiryDate s)). unfold addDays.
    tauto.
  - unfold getExpiredUnprocessed.
    rewrite (bind_run _ (startOfToday_run env w)). rewrite Hday.
    rewrite (find_run env Hok). eexists. split; [reflexivity|].
    cbn [subscriptions log_event]. rewrite filter_In.
    unfold just_expired_query. rewrite Hst. cbn [SubStatus_eqb andb].
    rewrite Z.ltb_lt.
    pose proof MS_PER_DAY_pos as HD.
    pose proof (Z.div_mod (expiryDate s - today) MS_PER_DAY ltac:(lia)) as E.
    pose proof (Z.mod_pos_bound (expiryDate s - today) MS_PER_DAY HD) as Hr.
    split; [intros [_ H]; nia | intros H; split; [exact Hin | nia]].
  - unfold getTodayExpiryList, getSubscriptionsExpiringSoon.
    rewrite !(bind_run _ (startOfToday_run env w)). rewrite Hday. cbv zeta.
    rewrite (bind_run _ (endOfToday_run env _)).
    rewrite !(find_run env Hok). cbn [fst subscriptions log_event].
    unfold setHours_end. rewrite Hday, Hmid.
    unfold addDays. rewrite Z.mul_0_l, Z.add_0_r. reflexivity.
Qed.

Lemma expiry_windows_tile_witness :
  exists l,
    fst (getSubscriptionsExpiringSoon (calm_env 10) 7
           (world_of [sub_of 1 501 (DAY 17 + 3600000) S_active])) = Ok l
    /\ In (sub_of 1 501 (DAY 17 + 3600000) S_active) l.
Proof.
  destruct (expiry_windows_tile (calm_env 10) (DAY 10)
              (world_of [sub_of 1 501 (DAY 17 + 3600000) S_active])
              (sub_of 1 501 (DAY 17 + 3600000) S_active))
    as [H _].
  - intros t. reflexivity.
  - intros t. vm_compute. reflexivity.
  - left. reflexivity.
  - reflexivity.
  - destruct (H 7) as [l [E Hl]]. exists l. split; [exact E|].
    apply Hl. vm_compute. reflexivity.
Defined.

Lemma fold_left_inv {A B} (f : B -> A -> B) (P : list A -> B -> Prop) :
  (forall pre a b, P pre b -> P (pre ++ [a]) (f b a)) ->
  forall l pre b, P pre b -> P (pre ++ l) (fold_left f l b).
Proof.
  intros H. induction l as [|a l IH]; intros pre b Hb; simpl.
  - rewrite app_nil_r. exact Hb.
  - replace (pre ++ a :: l) with ((pre ++ [a]) ++ l)
      by (rewrite <- app_assoc; reflexivity).
    apply IH. apply H. exact Hb.
Qed.

Lemma count_plan_snoc pid seen s :
  count_plan pid (seen ++ [s])
  = (count_plan pid seen + (if Nat.eqb (planId s) pid then 1 else 0))%nat.
Proof.
  unfold count_plan. rewrite filter_app, length_app. simpl.
  destruct (Nat.eqb (planId s) pid); reflexivity.
Qed.

Lemma group_add_ids s rows :
  map row_id (group_add s rows)
  = if existsb (fun r => Nat.eqb (row_id r) (planId s)) rows
    then map row_id rows
    else map row_id rows ++ [planId s].
Proof.
  induction rows as [|r rows IH]; simpl; [reflexivity|].
  destruct (Nat.eqb (row_id r) (planId s)); simpl; [reflexivity|].
  rewrite IH.
  destruct (existsb (fun r0 => Nat.eqb (row_id r0) (planId s)) rows);
    reflexivity.
Qed.

Lemma existsb_row_id pid rows :
  existsb (fun r => Nat.eqb (row_id r) pid) rows = true
  <-> In pid (map row_id rows).
Proof.
  rewrite existsb_exists, in_map_iff. split.
  - intros [r [Hr E]]. exists r. apply Nat.eqb_eq in E. auto.
  - intros [r [E Hr]]. exists r. split; [exact Hr | apply Nat.eqb_eq; exact E].
Qed.

Lemma group_add_total s rows : total (group_add s rows) = S (total rows).
Proof.
  unfold total. induction rows as [|r rows IH]; simpl; [reflexivity|].
  destruct (Nat.eqb (row_id r) (planId s)); simpl; [reflexivity|].
  rewrite IH. lia.
Qed.

Lemma group_add_rows s seen rows :
  NoDup (map row_id rows) ->
  (~ In (planId s) (map row_id rows) -> count_plan (planId s) seen = 0%nat) ->
  Forall (fun r => row_count r = count_plan (row_id r) seen
                   /\ (1 <= row_count r)%nat) rows ->
  Forall (fun r => row_count r = count_plan (row_id r) (seen ++ [s])
                   /\ (1 <= row_count r)%nat) (group_add s rows).
Proof.
  induction rows as [|r rows IH]; intros Hnd Hz Hall; simpl.
  - constructor; [|constructor]. cbn [row_id row_count].
    rewrite count_plan_snoc, Nat.eqb_refl, Hz; [lia | intros []].
  - inversion Hall as [|? ? [Hr1 Hr2] Hrest]; subst.
    inversion Hnd as [|? ? Hnotin Hnd']; subst.
    destruct (Nat.eqb_spec (row_id r) (planId s)) as [E|E].
    + constructor.
      * cbn [row_id row_count]. rewrite count_plan_snoc, <- E, Nat.eqb_refl.
        lia.
      * apply Forall_forall. intros x Hx.
        pose proof (proj1 (Forall_forall _ _) Hrest x Hx) as [Hx1 Hx2].
        rewrite count_plan_snoc.
        destruct (Nat.eqb_spec (planId s) (row_id x)) as [E'|E']; [|lia].
        exfalso. apply Hnotin. rewrite E, E'. apply in_map. exact Hx.
    + constructor.
      * rewrite count_plan_snoc.
        destruct (Nat.eqb_spec (planId s) (row_id r)); [congruence | lia].
      * apply IH; [exact Hnd' | | exact Hrest].
        intros Hpid. apply Hz. simpl. intros [F|F]; [congruence | auto].
Qed.

Lemma group_add_grouped s seen rows :
  grouped seen rows -> grouped (seen ++ [s]) (group_add s rows).
Proof.
  intros [Hnd [Hall [Hz Ht]]]. split; [|split; [|split]].
  - rewrite group_add_ids.
    destruct (existsb (fun r => Nat.eqb (row_id r) (planId s)) rows) eqn:E;
      [exact Hnd|].
    apply NoDup_app; [exact Hnd | repeat constructor; intros [] |].
    intros a Ha [<-|[]].
    apply existsb_row_id in Ha. congruence.
  - apply group_add_rows; [exact Hnd | apply Hz | exact Hall].
  - intros pid Hpid. rewrite count_plan_snoc.
    rewrite group_add_ids in Hpid.
    destruct (existsb (fun r => Nat.eqb (row_id r) (planId s)) rows) eqn:E.
    + rewrite (Hz pid Hpid).
      destruct (Nat.eqb_spec (planId s) pid) as [E'|E']; [|reflexivity].
      exfalso. apply Hpid. rewrite <- E'. apply existsb_row_id. exact E.
    + rewrite Hz by (intros F; apply Hpid; apply in_or_app; left; exact F).
      destruct (Nat.eqb_spec (planId s) pid) as [E'|E']; [|reflexivity].
      exfalso. apply Hpid. apply in_or_app. right. left. exact E'.
  - rewrite group_add_total, length_app, Ht. simpl. lia.
Qed.

Lemma group_by_plan_grouped l : grouped l (group_by_plan l).
Proof.
  unfold group_by_plan.
  apply (fold_left_inv (fun rows s => group_add s rows) grouped
           (fun pre a b => group_add_grouped a pre b) l [] []).
  split; [constructor | split; [constructor | split; [reflexivity|reflexivity]]].
Qed.

Lemma insert_row_in r rows x :
  In x (insert_row r rows) <-> x = r \/ In x rows.
Proof.
  induction rows as [|y rows IH]; simpl.
  - intuition.
  - destruct (row_durationDays r <=? row_durationDays y); simpl.
    + intuition.
    + rewrite IH. intuition.
Qed.

Lemma insert_row_total r rows :
  total (insert_row r rows) = (row_count r + total rows)%nat.
Proof.
  unfold total. induction rows as [|y rows IH]; simpl; [reflexivity|].
  destruct (row_durationDays r <=? row_durationDays y); simpl; [reflexivity|].
  rewrite IH. lia.
Qed.

Lemma insert_row_nodup r rows :
  NoDup (map row_id (r :: rows)) -> NoDup (map row_id (insert_row r rows)).
Proof.
  induction rows as [|y rows IH]; simpl; intros H; [exact H|].
  destruct (row_durationDays r <=? row_durationDays y); [exact H|].
  simpl. inversion H as [|? ? H1 H2]; subst.
  inversion H2 as [|? ? H3 H4]; subst.
  constructor.
  - intros F. apply in_map_iff in F. destruct F as [x [Ex Hx]].
    apply insert_row_in in Hx. destruct Hx as [->|Hx].
    + apply H1. left. symmetry. exact Ex.
    + apply H3. rewrite <- Ex. apply in_map. exact Hx.
  - apply IH. simpl. constructor; [|exact H4].
    intros F. apply H1. right. exact F.
Qed.

Lemma insert_row_ascending r rows :
  ascending (map row_durationDays rows) ->
  ascending (map row_durationDays (insert_row r rows)).
Proof.
  induction rows as [|y rows IH]; intros H; [exact I|].
  cbn [insert_row].
  destruct (Z.leb_spec (row_durationDays r) (row_durationDays y)) as [L|L].
  - cbn [map]. cbn [map] in H. split; [exact L | exact H].
  - specialize (IH ltac:(destruct rows; [exact I | apply H])).
    destruct rows as [|z rows].
    + cbn. split; [lia | exact I].
    + cbn [insert_row map] in *.
      destruct (row_durationDays r <=? row_durationDays z) eqn:E.
      * cbn [map] in *. split; [lia | exact IH].
      * cbn [map] in *. split; [apply H | exact IH].
Qed.

Lemma sort_rows_spec rows :
  (forall x, In x (sort_rows rows) <-> In x rows)
  /\ total (sort_rows rows) = total rows
  /\ (NoDup (map row_id rows) -> NoDup (map row_id (sort_rows rows)))
  /\ ascending (map row_durationDays (sort_rows rows)).
Proof.
  induction rows as [|r rows [IH1 [IH2 [IH3 IH4]]]].
  - repeat split; auto.
  - cbn [sort_rows fold_right]. fold (sort_rows rows).
    split; [|split; [|split]].
    + intros x. rewrite insert_row_in, IH1. simpl. intuition.
    + rewrite insert_row_total, IH2. reflexivity.
    + intros H. apply insert_row_nodup. simpl. simpl in H.
      inversion H as [|? ? H1 H2]; subst. constructor; [|auto].
      intros F. apply H1. apply in_map_iff in F. destruct F as [x [Ex Hx]].
      rewrite <- Ex. apply in_map. apply IH1. exact Hx.
    + apply insert_row_ascending. exact IH4.
Qed.

(** X21. getPlanPerformance, when the store answers, returns one row for
    each plan that has a matching subscription ('active', expiry after the
    present instant): the rows have distinct plan ids, each counts exactly
    the matching subscriptions of its plan (at least one), and they come in
    ascending order of durationDays.  The counts add up to the number of
    matching subscriptions, which is the figure the 'active' report of
    /reports shows when asked at the same instant. *)
Theorem plan_performance_counts_the_active (env : Env) (w : World) :
  let matched := filter (monitor_active_query (clock env (tick w)))
                        (subscriptions w) in
  forall rows, fst (getPlanPerformance env w) = Ok rows ->
    NoDup (map row_id rows)
    /\ Forall (fun r => row_count r = count_plan (row_id r) matched
                        /\ (1 <= row_count r)%nat) rows
    /\ (forall s, In s matched -> In (planId s) (map row_id rows))
    /\ ascending (map row_durationDays rows)
    /\ total rows = List.length matched
    /\ (forall n, fst (report_active env w) = Ok n -> total rows = n).
Proof.
  intros matched rows H.
  assert (E : rows = sort_rows (group_by_plan matched)).
  { revert H. unfold getPlanPerformance, now, store, bind, gets, ret.
    cbn [fst snd tick log_event].
    destruct (store_fails env _); cbn [fst snd subscriptions log_event];
      [discriminate | intros H; inversion H; reflexivity]. }
  destruct (sort_rows_spec (group_by_plan matched)) as [S1 [S2 [S3 S4]]].
  destruct (group_by_plan_grouped matched) as [G1 [G2 [G3 G4]]].
  subst rows. split; [|split; [|split; [|split; [|split]]]].
  - apply S3. exact G1.
  - apply Forall_forall. intros x Hx. apply S1 in Hx.
    exact (proj1 (Forall_forall _ _) G2 x Hx).
  - intros s Hs.
    destruct (in_dec Nat.eq_dec (planId s)
                (map row_id (group_by_plan matched))) as [Hin|Hout].
    + apply in_map_iff in Hin. destruct Hin as [x [Ex Hx]].
      rewrite <- Ex. apply in_map. apply S1. exact Hx.
    + exfalso. apply G3 in Hout. unfold count_plan in Hout.
      assert (Hf : In s (filter (fun s0 => Nat.eqb (planId s0) (planId s))
                                matched)).
      { apply filter_In. split; [exact Hs | apply Nat.eqb_refl]. }
      destruct (filter (fun s0 => Nat.eqb (planId s0) (planId s)) matched);
        [destruct Hf | discriminate].
  - exact S4.
  - rewrite S2. exact G4.
  - intros n Hn. rewrite S2, G4.
    revert Hn. unfold report_active, Subscription_countDocuments, now, store,
      bind, gets, ret.
    cbn [fst snd tick log_event].
    destruct (store_fails env _); cbn [fst snd subscriptions log_event];
      [discriminate | intros Hn; inversion Hn; reflexivity].
Qed.

Lemma plan_performance_counts_the_active_witness :
  exists rows,
    fst (getPlanPerformance (calm_env 10)
           (world_of [sub_of 1 501 (DAY 17) S_active;
                      sub_of 2 502 (DAY 9) S_active;
                      sub_of 3 503 (DAY 30) S_active])) = Ok rows
    /\ total rows = 2%nat.
Proof.
  eexists. split; [vm_compute; reflexivity|].
  destruct (plan_performance_counts_the_active (calm_env 10)
              (world_of [sub_of 1 501 (DAY 17) S_active;
                         sub_of 2 502 (DAY 9) S_active;
                         sub_of 3 503 (DAY 30) S_active]) _ eq_refl)
    as [_ [_ [_ [_ [H _]]]]].
  exact H.
Defined.

Lemma watching_replace_self sid (P : Subscription -> Prop) doc :
  sub_id doc = sid -> P doc ->
  stable_modify (keeps (watching sid P)) (set_subscriptions (replace_sub doc)).
Proof.
  intros E HP w [cur [Hcur _]]. exists doc. split; [|exact HP].
  subst sid. apply (holds_sub_replace_self cur). exact Hcur.
Qed.

Lemma keeps_both (A B : World -> Prop) {X} (m : M X) :
  preserves (keeps A) m -> preserves (keeps B) m ->
  preserves (keeps (inv_and A B)) m.
Proof. intros HA HB w [H1 H2]. split; [apply HA | apply HB]; assumption. Qed.

Ltac no_removal :=
  apply keeps_trace_new; unfold removal_of;
  intros [[? [? F]]|[? [? F]]]; inversion F; congruence.

Lemma renotified_refl s : renotified s s.
Proof. exists (graceNotifications s). destruct s; reflexivity. Qed.

Lemma renotified_again s cur g :
  renotified s cur -> renotified s (set_graceNotifications g cur).
Proof. intros [g0 ->]. exists g. destruct s; reflexivity. Qed.

(** The turn of the watched record while its grace days are not used up. *)
Lemma graceStep_honours env today s w0 cur :
  renotified s cur ->
  daysSinceExpiry today s < GRACE_DAYS env ->
  preserves
    (keeps (inv_and (watching (sub_id s) (renotified s))
                    (trace_new (fun ev => ~ removal_of (sub_id s) ev) w0)))
    (graceStep env today cur).
Proof.
  intros Hcur Hd.
  assert (Eid : sub_id cur = sub_id s) by (destruct Hcur as [g ->]; reflexivity).
  assert (Ed : daysSinceExpiry today cur = daysSinceExpiry today s)
    by (destruct Hcur as [g ->]; reflexivity).
  unfold graceStep. cbv zeta. rewrite Ed.
  destruct (Z.leb_spec (GRACE_DAYS env) (daysSinceExpiry today s)); [lia|].
  apply keeps_both.
  - destruct ((daysSinceExpiry today s =? GRACE_DAYS env - 1)
              && negb (gn_day2 (graceNotifications cur)));
      [|destruct ((daysSinceExpiry today s =? 1)
                  && negb (gn_day1 (graceNotifications cur)))];
      unfold watching; pres;
      first [ apply watching_replace_self;
              [exact Eid | apply renotified_again; exact Hcur]
            | inv_side ].
  - destruct ((daysSinceExpiry today s =? GRACE_DAYS env - 1)
              && negb (gn_day2 (graceNotifications cur)));
      [|destruct ((daysSinceExpiry today s =? 1)
                  && negb (gn_day1 (graceNotifications cur)))];
      pres; first [no_removal | untouched].
Qed.

(** The turn of any other record. *)
Lemma graceEnter_of_other env sid (P : Subscription -> Prop) w0 c :
  sub_id c <> sid ->
  preserves
    (keeps (inv_and (watching sid P)
                    (trace_new (fun ev => ~ removal_of sid ev) w0)))
    (graceEnter env c).
Proof.
  intros Hne. apply keeps_both.
  - unfold watching. pres; inv_side.
  - pres; first [no_removal | untouched].
Qed.

Lemma graceStep_of_other env sid (P : Subscription -> Prop) w0 today c :
  sub_id c <> sid ->
  preserves
    (keeps (inv_and (watching sid P)
                    (trace_new (fun ev => ~ removal_of sid ev) w0)))
    (graceStep env today c).
Proof.
  intros Hne. apply keeps_both.
  - unfold watching. pres; inv_side.
  - pres; first [no_removal | untouched].
Qed.

Lemma grace_passes_honour env today s w0 :
  status s = S_grace ->
  daysSinceExpiry today s < GRACE_DAYS env ->
  preserves
    (keeps (inv_and (watching (sub_id s) (renotified s))
                    (trace_new (fun ev => ~ removal_of (sub_id s) ev) w0)))
    (justExpired <- Subscription_find env (just_expired_query today) ;;
     forM_ justExpired (graceEnter env) ;;
     inGrace <- Subscription_find env in_grace_query ;;
     forM_ inGrace (graceStep env today)).
Proof.
  intros Hst Hd.
  apply keeps_find.
  { intros ok. apply keeps_and_event; [unfold watching; inv_side | no_removal]. }
  intros wf [[cur [Hwf Hcur]] _].
  apply pres_bind; [typeclasses eauto | | intros _].
  - apply pres_forM_; [typeclasses eauto|]. intros c Hc.
    apply graceEnter_of_other.
    refine (candidate_other (sub_id s) cur _ wf c Hwf _ Hc).
    destruct Hcur as [g ->]. unfold just_expired_query.
    cbn [status set_graceNotifications]. 
    destruct s; cbn in *. rewrite Hst. reflexivity.
  - apply keeps_find.
    { intros ok. apply keeps_and_event; [unfold watching; inv_side | no_removal]. }
    intros wf2 [[cur2 [Hwf2 Hcur2]] _].
    apply pres_forM_; [typeclasses eauto|]. intros c Hc.
    destruct (Nat.eq_dec (sub_id c) (sub_id s)) as [E|E].
    + pose proof (holds_sub_candidate _ _ _ _ _ Hwf2 Hc E) as ->.
      apply graceStep_honours; assumption.
    + apply graceStep_of_other. exact E.
Qed.

(** X22. The grace period is honoured: while daysSinceExpiry is below
    GRACE_DAYS the grace job does not remove a subscription in grace,
    whatever the environment does.  The record keeps every field but its
    notification flags, and neither the removal from the group nor the
    removal notice is issued for it. *)
Theorem grace_period_is_honoured (env : Env) (w : World) (s : Subscription) :
  NoDup (map sub_id (subscriptions w)) ->
  In s (subscriptions w) ->
  status s = S_grace ->
  daysSinceExpiry (setHours_0 (tzOffset env) (clock env (tick w))) s
  < GRACE_DAYS env ->
  (exists g,
     sub_by_id (sub_id s) (subscriptions (snd (gracePeriodHandler env w)))
     = Some (set_graceNotifications g s))
  /\ exists l,
       trace (snd (gracePeriodHandler env w)) = l ++ trace w
       /\ Forall (fun ev => ~ removal_of (sub_id s) ev) l.
Proof.
  intros Hnd Hin Hst Hd.
  unfold gracePeriodHandler.
  rewrite (bind_run _ (startOfToday_run env w)).
  set (today := setHours_0 (tzOffset env) (clock env (tick w))) in *.
  match goal with
  | |- context [snd (?m ?w1)] =>
      assert (K : inv_and (watching (sub_id s) (renotified s))
                          (trace_new (fun ev => ~ removal_of (sub_id s) ev) w)
                          (snd (m w1)))
  end.
  { apply (grace_passes_honour env today s w Hst Hd). split.
    - exists s. split; [|apply renotified_refl].
      split; [exact Hnd | apply In_sub_by_id; assumption].
    - exists [EvNow (clock env (tick w))]. split; [reflexivity|].
      constructor; [|constructor]. unfold removal_of.
      intros [[? [? F]]|[? [? F]]]; discriminate. }
  destruct K as [[cur [[_ K1] [g ->]]] K2]. split; [exists g; exact K1 | exact K2].
Qed.

(** Day 10, 09:00: a subscription that expired on day 8 at 01:00 is two
    days into a grace period of three. *)
Lemma grace_period_is_honoured_witness :
  exists g,
    sub_by_id 1
      (subscriptions
         (snd (gracePeriodHandler (calm_env 10)
                 (world_of [sub_of 1 501 (DAY 8 + 3600000) S_grace]))))
    = Some (set_graceNotifications g (sub_of 1 501 (DAY 8 + 3600000) S_grace)).
Proof.
  apply (grace_period_is_honoured (calm_env 10)
           (world_of [sub_of 1 501 (DAY 8 + 3600000) S_grace])
           (sub_of 1 501 (DAY 8 + 3600000) S_grace)).
  - repeat constructor. simpl. intros [].
  - left. reflexivity.
  - reflexivity.
  - vm_compute. reflexivity.
Defined.

(** X23. The reminder job reminds at its checkpoints only (the run staying
    within one day, the environment otherwise arbitrary): a subscription
    that is not 'active', or whose expiry is a whole number of days ahead of
    today's midnight other than 7, 3, 1 and 0, is the same after the run,
    and no call (send or write) was made for it. *)
Theorem reminders_only_at_the_checkpoints (env : Env) (today : Z) (w : World)
  (s : Subscription) :
  (forall t, setHours_0 (tzOffset env) (clock env t) = today) ->
  NoDup (map sub_id (subscriptions w)) ->
  In s (subscriptions w) ->
  status s <> S_active
  \/ ~ In ((expiryDate s - today) / MS_PER_DAY) [7; 3; 1; 0] ->
  sub_by_id (sub_id s) (subscriptions (snd (reminderScheduler env w)))
  = Some s
  /\ exists l,
       trace (snd (reminderScheduler env w)) = l ++ trace w
       /\ Forall (fun ev => event_origin ev <> Some (sub_id s)) l.
Proof.
  intros Hday Hnd Hin Hs.
  assert (Hmid : forall k, setHours_0 (tzOffset env) (addDays today k)
                           = addDays today k).
  { intros k. rewrite <- (Hday 0%nat). apply setHours_0_addDays. }
  assert (K : inv_and (watching (sub_id s) (eq s))
                      (trace_new (not_for (sub_id s)) w)
                      (snd (reminderScheduler env w))).
  { assert (HP : preserves
                   (keeps (inv_and (watching (sub_id s) (eq s))
                                   (trace_new (not_for (sub_id s)) w)))
                   (reminderScheduler env)).
    { unfold reminderScheduler.
      apply pres_bind; [typeclasses eauto | unfold watching; pres; inv_side|].
      intros _. apply pres_forM_; [typeclasses eauto|]. intros cp Hcp.
      apply (reminderCheckpoint_skips env today).
      - exact Hday.
      - intros cur <-. unfold reminder_query, setHours_end. rewrite Hmid.
        destruct Hs as [Hs|Hs].
        + destruct (status s); try reflexivity. congruence.
        + rewrite <- !andb_assoc. apply andb_false_intro2.
          rewrite andb_assoc. apply andb_false_intro1.
          apply not_true_is_false. intros F.
          apply andb_true_iff in F. rewrite !Z.leb_le in F.
          apply Hs.
          assert (E : fst cp = (expiryDate s - today) / MS_PER_DAY).
          { apply in_window. unfold addDays in F. lia. }
          rewrite <- E.
          destruct Hcp as [<-|[<-|[<-|[<-|[]]]]]; simpl; auto.
      - intros t. apply keeps_trace_new. unfold not_for. simpl. discriminate.
      - intros ok. apply keeps_trace_new. unfold not_for. simpl. discriminate.
      - intros c Hc. pres; inv_side. }
    apply HP. split; [|apply frame_refl].
    exists s. split; [|reflexivity].
    split; [exact Hnd | apply In_sub_by_id; assumption]. }
  destruct K as [[cur [[_ K1] <-]] K2]. split; [exact K1 | exact K2].
Qed.

(** Day 10: a subscription that expires on day 15 is five days ahead, between
    the checkpoints. *)
Lemma reminders_only_at_the_checkpoints_witness :
  sub_by_id 1
    (subscriptions
       (snd (reminderScheduler (calm_env 10)
               (world_of [sub_of 1 501 (DAY 15 + 3600000) S_active]))))
  = Some (sub_of 1 501 (DAY 15 + 3600000) S_active).
Proof.
  apply (reminders_only_at_the_checkpoints (calm_env 10) (DAY 10)
           (world_of [sub_of 1 501 (DAY 15 + 3600000) S_active])
           (sub_of 1 501 (DAY 15 + 3600000) S_active)).
  - intros t. vm_compute. reflexivity.
  - repeat constructor. simpl. intros [].
  - left. reflexivity.
  - right. vm_compute. intros [F|[F|[F|[F|[]]]]]; discriminate.
Defined.

Lemma at_most_one {X} (l : list X) (a b : X) :
  (List.length l <= 1)%nat -> In a l -> In b l -> a = b.
Proof.
  destruct l as [|x [|y l]]; simpl; intros H Ha Hb.
  - destruct Ha.
  - destruct Ha as [<-|[]], Hb as [<-|[]]. reflexivity.
  - lia.
Qed.

Lemma active_now_is_live tid t s :
  active_now_query tid t s = true -> active_or_grace_of tid s = true.
Proof.
  unfold active_now_query, active_or_grace_of. intros H.
  apply andb_true_iff in H. destruct H as [H _].
  apply andb_true_iff in H. destruct H as [H1 H2].
  rewrite H1, H2. reflexivity.
Qed.

(** X24. As long as runs do not overlap (the states [reachable] composes),
    the lookup of getActiveSubscription is unambiguous: when the user has an
    'active' subscription with its expiry ahead, that record is the one
    returned (the store answering the read).  After overlapping approvals
    the user may hold two such records, and the lookup returns the first. *)
Theorem active_subscription_lookup_is_unambiguous (env : Env) (w : World)
  (s : Subscription) :
  reachable w ->
  store_fails env (S (tick w)) = false ->
  In s (subscriptions w) ->
  status s = S_active ->
  clock env (tick w) < expiryDate s ->
  fst (getActiveSubscription env (telegramId s) w) = Ok (Some s).
Proof.
  intros Hr Hok Hin Hst Hexp.
  destruct (reachable_well_kept w Hr) as [_ [Hone _]].
  set (q := active_now_query (telegramId s) (clock env (tick w))).
  assert (E0 : fst (getActiveSubscription env (telegramId s) w)
               = Ok (find q (subscriptions w))).
  { unfold getActiveSubscription, now, Subscription_findOne, store, bind, gets.
    cbn [fst snd]. change (tick (log_event _ w)) with (S (tick w)).
    rewrite Hok. reflexivity. }
  rewrite E0.
  assert (Hq : q s = true).
  { unfold q, active_now_query. rewrite Z.eqb_refl, Hst. simpl.
    apply Z.ltb_lt. exact Hexp. }
  destruct (find q (subscriptions w)) as [x|] eqn:E.
  - apply find_some in E. destruct E as [Hx Qx].
    f_equal. f_equal.
    apply (at_most_one (filter (active_or_grace_of (telegramId s))
                               (subscriptions w))).
    + apply (Hone (telegramId s)).
    + apply filter_In. split; [exact Hx|].
      apply (active_now_is_live _ _ _ Qx).
    + apply filter_In. split; [exact Hin|].
      apply (active_now_is_live _ _ _ Hq).
  - pose proof (find_none _ _ E s Hin) as F. congruence.
Qed.

(** Day 41: Alice's first record is expired, her second one is the one the
    lookup returns. *)
Lemma active_subscription_lookup_is_unambiguous_witness :
  fst (getActiveSubscription (calm_env 41) 501 alice_resubscribed)
  = Ok (Some alice_second).
Proof.
  apply (active_subscription_lookup_is_unambiguous (calm_env 41)
           alice_resubscribed alice_second alice_resubscribed_reachable).
  - reflexivity.
  - vm_compute. right. left. reflexivity.
  - reflexivity.
  - vm_compute. reflexivity.
Defined.

(** *** The referral awarder where it is called *)









